(** * Persona-driven PDF section retrieval: a shallow embedding

    The development follows the two Python modules of the repository:
    [process_pdfs.py] (outline and title extraction) and [main.py]
    (configuration, text normalisation, section segmentation, index
    building, retrieval and result assembly).

    Python strings are sequences of Unicode code points; they are modelled
    as lists of code points.  Dictionaries are finite maps, Python
    exceptions are an explicit error result, and the external collaborators
    (PDF rendering, the embedding model, the vector index) are parameters. *)

From Stdlib Require Import NArith ZArith QArith Lia Lqa List Bool Ascii String.
From Stdlib Require Import Sorted Permutation.
From stdpp Require Import base option list gmap.
Import ListNotations.

Local Open Scope N_scope.

(** ** Python strings *)

Module Py.

Abbreviation char := N.
Abbreviation str := (list N).

(** Code points of a plain ASCII literal. *)
Definition lit (s : string) : str :=
  List.map N_of_ascii (list_ascii_of_string s).

Definition LF : char := 10.
Definition SP : char := 32.

(** [str.isspace] on one code point; the same test decides [\s] in a
    regular expression over [str] and what [str.strip] removes. *)
Definition isspace (c : char) : bool :=
  ((9 <=? c) && (c <=? 13)) || ((28 <=? c) && (c <=? 32))
  || (c =? 133) || (c =? 160) || (c =? 5760)
  || ((8192 <=? c) && (c <=? 8202))
  || (c =? 8232) || (c =? 8233) || (c =? 8239) || (c =? 8287) || (c =? 12288).

(** Line boundaries recognised by [str.splitlines]. *)
Definition islinebreak (c : char) : bool :=
  ((10 <=? c) && (c <=? 13)) || ((28 <=? c) && (c <=? 30))
  || (c =? 133) || (c =? 8232) || (c =? 8233).

Fixpoint lstrip (s : str) : str :=
  match s with
  | c :: s' => if isspace c then lstrip s' else s
  | [] => []
  end.

Definition rstrip (s : str) : str := rev (lstrip (rev s)).

Definition strip (s : str) : str := rstrip (lstrip s).

(** [sep.join(parts)] *)
Fixpoint join (sep : str) (parts : list str) : str :=
  match parts with
  | [] => []
  | [p] => p
  | p :: ps => p ++ sep ++ join sep ps
  end.

(** [s.split('\n')]: always at least one field. *)
Fixpoint split_lf_go (cur : str) (s : str) : list str :=
  match s with
  | [] => [rev cur]
  | c :: s' => if c =? LF then rev cur :: split_lf_go [] s'
               else split_lf_go (c :: cur) s'
  end.

Definition split_lf (s : str) : list str := split_lf_go [] s.

(** [s.splitlines()]: no line for the empty string nor after a final line
    break; a carriage return directly followed by a line feed is one
    boundary ([after_cr] remembers the carriage return). *)
Fixpoint splitlines_go (after_cr : bool) (cur : str) (s : str) : list str :=
  match s with
  | [] => match cur with [] => [] | _ => [rev cur] end
  | c :: s' =>
      if (c =? LF) && after_cr then splitlines_go false cur s'
      else if islinebreak c then rev cur :: splitlines_go (c =? 13) [] s'
      else splitlines_go false (c :: cur) s'
  end.

Definition splitlines (s : str) : list str := splitlines_go false [] s.

(** Truth value of a string: non-empty. *)
Definition truthy (s : str) : bool :=
  match s with [] => false | _ => true end.

(** [needle in s] for strings. *)
Fixpoint startswith (p s : str) : bool :=
  match p, s with
  | [], _ => true
  | a :: p', b :: s' => (a =? b) && startswith p' s'
  | _ :: _, [] => false
  end.

Fixpoint contains (needle s : str) : bool :=
  startswith needle s
  || match s with [] => false | _ :: s' => contains needle s' end.

Definition endswith (p s : str) : bool := startswith (rev p) (rev s).

(** [l[:n]] for an integer [n] of either sign. *)
Definition slice_to {A} (n : Z) (l : list A) : list A :=
  if (0 <=? n)%Z then take (Z.to_nat n) l
  else take (Z.to_nat (Z.of_nat (length l) + n)) l.

(** [l[i]] for an integer index: negative indices count from the end, and
    an index out of range raises [IndexError] ([None]). *)
Definition index {A} (l : list A) (i : Z) : option A :=
  if (0 <=? i)%Z then l !! Z.to_nat i
  else if (0 <=? Z.of_nat (length l) + i)%Z
       then l !! Z.to_nat (Z.of_nat (length l) + i)
       else None.

(** *** [re.sub]

    [re.sub] scans the subject from left to right; at each position
    outside a previous match it tries the pattern, and a match of [n]
    characters is replaced and scanning resumes right after it.  A pattern
    is given by its matcher: the length of the (greedy, backtracking) match
    at the head of the remaining text, [0] when there is none -- none of
    the patterns of this program matches the empty string.  The matcher
    is told whether the position starts a line, which is what [^] tests
    under [re.MULTILINE]: the start of the subject or the position after
    a line feed of the subject.  [skip] counts the characters of the
    current match that remain to be consumed. *)
Fixpoint re_sub_go (m : bool -> str -> nat) (repl : str)
    (bol : bool) (skip : nat) (s : str) : str :=
  match s with
  | [] => []
  | c :: s' =>
      match skip with
      | S k => re_sub_go m repl (c =? LF) k s'
      | O =>
          match m bol s with
          | O => c :: re_sub_go m repl (c =? LF) 0 s'
          | S k => repl ++ re_sub_go m repl (c =? LF) k s'
          end
      end
  end.

Definition re_sub (m : bool -> str -> nat) (repl : str) (s : str) : str :=
  re_sub_go m repl true 0 s.

(** Positions covered by a match, in the same scan. *)
Fixpoint re_spans_go (m : bool -> str -> nat)
    (bol : bool) (skip : nat) (s : str) : list bool :=
  match s with
  | [] => []
  | c :: s' =>
      match skip with
      | S k => true :: re_spans_go m (c =? LF) k s'
      | O =>
          match m bol s with
          | O => false :: re_spans_go m (c =? LF) 0 s'
          | S k => true :: re_spans_go m (c =? LF) k s'
          end
      end
  end.

Definition re_spans (m : bool -> str -> nat) (s : str) : list bool :=
  re_spans_go m true 0 s.

(** Length of the longest prefix whose characters satisfy [p]: what a
    greedy [[...]*] consumes. *)
Fixpoint run (p : char -> bool) (s : str) : nat :=
  match s with
  | c :: s' => if p c then S (run p s') else 0%nat
  | [] => 0%nat
  end.

(** Matcher of [\s+]. *)
Definition m_spaces (_ : bool) (s : str) : nat := run isspace s.

(** [len(text.split())]: the number of maximal runs of characters that
    are not white space. *)
Fixpoint word_count_go (in_word : bool) (s : str) : nat :=
  match s with
  | [] => 0%nat
  | c :: s' =>
      if isspace c then word_count_go false s'
      else ((if in_word then 0 else 1) + word_count_go true s')%nat
  end.

Definition word_count (s : str) : nat := word_count_go false s.

(** [list.sort(key=...)] is a stable sort; [le x y] compares the keys.
    An element is inserted before the first element that is not smaller,
    so elements with equal keys keep their order. *)
Fixpoint insert_by {A} (le : A -> A -> bool) (x : A) (l : list A) : list A :=
  match l with
  | [] => [x]
  | y :: l' => if le x y then x :: l else y :: insert_by le x l'
  end.

Definition sort_by {A} (le : A -> A -> bool) (l : list A) : list A :=
  foldr (insert_by le) [] l.

(** Exceptions the program can raise. *)
Inductive exn :=
  | AttributeError | KeyError | TypeError | IndexError | OSError.

Inductive result (A : Type) :=
  | Ok (a : A)
  | Raise (e : exn).
Arguments Ok {A} a.
Arguments Raise {A} e.

Definition bind {A B} (r : result A) (k : A -> result B) : result B :=
  match r with
  | Ok a => k a
  | Raise e => Raise e
  end.

Notation "x <- r ;; k" := (bind r (fun x => k))
  (at level 100, r at next level, right associativity).

End Py.

(** ** process_pdfs.py: outline and title *)

Module ProcessPdfs.
Import Py.

(** What the PDF library exposes of a document.  Sizes and positions are
    floats; a finite float is modelled by the rational it denotes. *)
Record span := { span_text : str; span_size : Q }.

(** A text line of [page.get_text("dict")]: its spans and [bbox[1]]. *)
Record tline := { line_spans : list span; line_top : Q }.

(** A block; [block_lines] is [block.get("lines", [])]. *)
Record block := { block_lines : list tline }.

(** A page: its blocks, its plain text [page.get_text()], and its markdown
    rendering, [None] when rendering that page raises. *)
Record page := {
  page_blocks : list block;
  page_text : str;
  page_markdown : option str
}.

(** A document: [doc.metadata.get('title')] when the metadata has one, and
    the pages. *)
Record document := { meta_title : option str; doc_pages : list page }.

(** A heading of the outline; [h_level] is the [n] of ["Hn"]. *)
Record heading := { h_level : nat; h_text : str; h_page : nat }.

(** Matcher of [[\*_`]] (one character). *)
Definition m_md_mark (_ : bool) (s : str) : nat :=
  match s with
  | c :: _ => if (c =? 42) || (c =? 95) || (c =? 96) then 1%nat else 0%nat
  | [] => 0%nat
  end.

(** [text.replace(a, b)] for single characters. *)
Definition replace_char (a b : char) (s : str) : str :=
  List.map (fun c => if c =? a then b else c) s.

Definition clean_text (text : str) : str :=
  if truthy text then
    let text := re_sub m_md_mark [] text in
    let text := replace_char 8211 45 text in
    let text := replace_char 8220 34 text in
    let text := replace_char 8221 34 text in
    strip (re_sub m_spaces [SP] text)
  else [].

(** What [.] repeated greedily takes: everything up to a line feed. *)
Definition dot_star (s : str) : str :=
  take (run (fun c => negb (c =? LF)) s) s.

(** One line of [extract_headings_from_markdown]: [re.match] on the
    stripped line of a run of hashes (group 1), then white space, then the
    rest of the line (group 2). *)
Definition markdown_heading (line : str) (page_num : nat) : list heading :=
  let l := strip line in
  let level := run (N.eqb 35) l in
  let rest := drop level l in
  let gap := run isspace rest in
  if (0 <? level)%nat && (0 <? gap)%nat then
    let text := clean_text (dot_star (drop gap rest)) in
    if (length text <? 4)%nat || contains (lit "---") text then []
    else [ {| h_level := Nat.min level 6; h_text := text; h_page := page_num |} ]
  else [].

Definition extract_headings_from_markdown (markdown_text : str)
    (page_num : nat) : list heading :=
  flat_map (fun line => markdown_heading line page_num) (split_lf markdown_text).

Definition Qgt_bool (a b : Q) : bool := negb (Qle_bool a b).

Definition span_heading (page_num : nat) (sp : span) : list heading :=
  let text := clean_text (span_text sp) in
  if truthy text && (word_count text <? 15)%nat && Qgt_bool (span_size sp) 12
  then [ {| h_level := 2; h_text := text; h_page := page_num |} ]
  else [].

Definition extract_headings_from_font_sizes (p : page) (page_num : nat)
    : list heading :=
  flat_map (fun b =>
    flat_map (fun ln => flat_map (span_heading page_num) (line_spans ln))
             (block_lines b))
    (page_blocks p).

(** One line of [convert_bold_to_markdown_headings]: [re.fullmatch] of
    [\*\*(.+?)\*\*] succeeds exactly when the stripped line starts and
    ends with two asterisks around at least one character, and the group
    is then what lies between them. *)
Definition bold_line (line : str) : str :=
  let stripped := strip line in
  let n := length stripped in
  if (5 <=? n)%nat && startswith (lit "**") stripped
     && endswith (lit "**") stripped
     && negb (existsb (N.eqb LF) stripped)
  then
    let content := strip (take (n - 4) (drop 2 stripped)) in
    if endswith (lit ":") content
    then lit "### " ++ strip (take (length content - 1) content)
    else lit "## " ++ content
  else line.

Definition convert_bold_to_markdown_headings (md_text : str) : str :=
  join [LF] (List.map bold_line (split_lf md_text)).

(** The sort key [(-size, pos)] of [get_best_title], compared as Python
    compares tuples. *)
Definition title_key_le (x y : str * Q * Q) : bool :=
  let '(_, sx, px) := x in
  let '(_, sy, py) := y in
  Qgt_bool (- sy) (- sx) || (Qeq_bool (- sx) (- sy) && Qle_bool px py).

Definition first_page_lines (p : page) : list (str * Q * Q) :=
  flat_map (fun b =>
    flat_map (fun ln =>
      List.map (fun sp => (clean_text (span_text sp), span_size sp, line_top ln))
               (line_spans ln))
      (block_lines b))
    (page_blocks p).

(** [get_best_title]; [doc[0]] raises [IndexError] without a first page. *)
Definition get_best_title (doc : document) : result str :=
  let from_meta :=
    match meta_title doc with
    | Some t =>
        if truthy t then
          let meta := clean_text t in
          if (5 <? length meta)%nat then Some meta else None
        else None
    | None => None
    end in
  match from_meta with
  | Some t => Ok t
  | None =>
      let from_spans :=
        match doc_pages doc with
        | p0 :: _ =>
            List.find (fun x => (4 <? length x)%nat && (length x <? 80)%nat)
              (List.map (fun x => fst (fst x))
                 (sort_by title_key_le (first_page_lines p0)))
        | [] => None
        end in
      match from_spans with
      | Some t => Ok t
      | None =>
          match doc_pages doc with
          | p0 :: _ =>
              match List.find (fun c => (5 <? length c)%nat)
                      (List.map clean_text (split_lf (page_text p0))) with
              | Some c => Ok c
              | None => Ok []
              end
          | [] => Raise IndexError
          end
      end
  end.

(** Headings of one page: the markdown ones unless rendering raised, then
    the font-size ones. *)
Definition page_headings (i : nat) (p : page) : list heading :=
  match page_markdown p with
  | Some md_page =>
      extract_headings_from_markdown (convert_bold_to_markdown_headings md_page) i
  | None => []
  end ++ extract_headings_from_font_sizes p i.

(** The [seen] loop: first occurrence of each [(text, page)] is kept. *)
Fixpoint dedup (seen : gset (list N * nat)) (hs : list heading) : list heading :=
  match hs with
  | [] => []
  | h :: hs' =>
      let key := (h_text h, h_page h) in
      if bool_decide (key ∈ seen) then dedup seen hs'
      else h :: dedup ({[ key ]} ∪ seen) hs'
  end.

Record pdf_result := {
  r_title : str;
  r_outline : list heading;
  r_filename : str
}.

(** [os.path.basename]: what follows the last slash. *)
Definition basename (path : str) : str :=
  rev (take (run (fun c => negb (c =? 47)) (rev path)) (rev path)).

Definition process_pdf_doc (filename : str) (doc : document) : result pdf_result :=
  let all_headings := concat (imap page_headings (doc_pages doc)) in
  let outline := dedup ∅ all_headings in
  match get_best_title doc with
  | Raise e => Raise e
  | Ok title =>
      let title :=
        if negb (truthy title) && (match outline with [] => false | _ => true end)
        then
          match List.find (fun h => (h_level h =? 1)%nat) outline with
          | Some h => if truthy (h_text h) then h_text h
                      else match outline with h0 :: _ => h_text h0 | [] => [] end
          | None => match outline with h0 :: _ => h_text h0 | [] => [] end
          end
        else title in
      Ok {| r_title := strip title ++ lit " ";
            r_outline := outline;
            r_filename := filename |}
  end.

(** [process_pdf]: [fitz_open] is [fitz.open], which raises on a file it
    cannot read.  A [document] is one whose pages the library can read:
    the loop header and the font-size scan stand outside the [try] of the
    loop, so an exception there would end [process_pdf] like one of
    [fitz.open]; such a document has no counterpart here, and nothing
    below is stated about it. *)
Definition process_pdf (fitz_open : list N -> option document) (pdf_path : str)
    : result pdf_result :=
  match fitz_open pdf_path with
  | None => Raise OSError
  | Some doc => process_pdf_doc (basename pdf_path) doc
  end.

(** Result of [main_process_pdf]: [sys.exit(0)] on an empty path, else the
    result of [process_pdf], or [None] after an exception was reported on
    standard error. *)
Inductive mpp :=
  | SysExit0
  | Returned (r : option pdf_result).

Definition main_process_pdf (fitz_open : list N -> option document)
    (pdf_path : str) : mpp :=
  if negb (truthy pdf_path) then SysExit0
  else
    match process_pdf fitz_open pdf_path with
    | Ok r => Returned (Some r)
    | Raise _ => Returned None
    end.

End ProcessPdfs.

(** ** main.py: text normalisation *)

Module Main.
Import Py.

(** Character class of [[••\-–]]: bullet, hyphen-minus, en dash. *)
Definition is_dash_glyph (c : char) : bool :=
  (c =? 8226) || (c =? 45) || (c =? 8211).

(** Matcher of [[••\-–]+]. *)
Definition m_glyphs (_ : bool) (s : str) : nat := run is_dash_glyph s.

(** Matcher of [\s*\n\s*]: the greedy [\s*] takes the whole run of
    white space and backs off to the last line feed in it, after which
    the second [\s*] takes the rest of the run again. *)
Definition m_newline (_ : bool) (s : str) : nat :=
  let n := run isspace s in
  if existsb (N.eqb LF) (take n s) then n else 0%nat.

Definition clean_text (text : str) : str :=
  let text := re_sub m_glyphs [] text in
  let text := re_sub m_newline [SP] text in
  let text := re_sub m_spaces [SP] text in
  strip text.

(** Character class of [[•\-–o]] in [combine_lines]: bullet, the
    private-use bullet U+F0B7, hyphen-minus, en dash and the letter o. *)
Definition is_marker (c : char) : bool :=
  (c =? 8226) || (c =? 61623) || (c =? 45) || (c =? 8211) || (c =? 111).

(** Matcher of [^[\s]*[•\-–o]+\s*] under [re.MULTILINE].  White space
    and markers are disjoint, so each greedy run is maximal. *)
Definition m_marker (bol : bool) (s : str) : nat :=
  if bol then
    let a := run isspace s in
    let b := run is_marker (drop a s) in
    match b with
    | O => 0%nat
    | _ => (a + b + run isspace (drop (a + b) s))%nat
    end
  else 0%nat.

(** Character class of [[.?!:,]]. *)
Definition is_terminal (c : char) : bool :=
  (c =? 46) || (c =? 63) || (c =? 33) || (c =? 58) || (c =? 44).

(** [re.search(r'[.?!:,]$', line)]: [$] holds at the end of the subject
    and just before a line feed that ends it. *)
Definition ends_terminal (line : str) : bool :=
  match rev line with
  | c :: r =>
      is_terminal c
      || ((c =? LF) && match r with d :: _ => is_terminal d | [] => false end)
  | [] => false
  end.

(** The loop of [combine_lines]: [result] and [temp]. *)
Definition combine_step (st : list str * str) (line : str) : list str * str :=
  let '(result, temp) := st in
  if ends_terminal line then
    if truthy temp then (result ++ [strip (temp ++ lit " " ++ line)], [])
    else (result ++ [line], [])
  else
    if truthy temp then (result, temp ++ lit ", " ++ line)
    else (result, line).

Definition combine_loop (lines : list str) : list str * str :=
  foldl combine_step ([], []) lines.

(** [[line.strip() for line in s.splitlines() if line.strip()]] *)
Definition nonblank_lines (s : str) : list str :=
  List.filter truthy (List.map strip (splitlines s)).

Definition strip_markers (s : str) : str := re_sub m_marker [] s.

Definition combine_lines (s : str) : str :=
  let s := strip_markers s in
  let lines := nonblank_lines s in
  let '(result, temp) := combine_loop lines in
  let result := if truthy temp then result ++ [strip temp] else result in
  join (lit " ") result.

(** ** main.py: configuration *)

#[local] Unset Elimination Schemes.

(** A value decoded by [json.load]; an object is the decoded dictionary,
    looked up by key. *)
Inductive json :=
  | JNull
  | JBool (b : bool)
  | JNum (q : Q)
  | JStr (s : list N)
  | JList (l : list json)
  | JDict (d : list (list N * json)).

#[local] Set Elimination Schemes.

Definition json_truthy (v : json) : bool :=
  match v with
  | JNull => false
  | JBool b => b
  | JNum q => negb (Qeq_bool q 0)
  | JStr s => truthy s
  | JList l => match l with [] => false | _ => true end
  | JDict d => match d with [] => false | _ => true end
  end.

Fixpoint assoc (k : str) (d : list (list N * json)) : option json :=
  match d with
  | [] => None
  | (k', v) :: d' => if bool_decide (k = k') then Some v else assoc k d'
  end.

(** [v.get(key, dflt)]: only a dictionary has the method. *)
Definition py_get (v : json) (key : str) (dflt : json) : result json :=
  match v with
  | JDict d => Ok (default dflt (assoc key d))
  | _ => Raise AttributeError
  end.

(** [v[key]] for a string key. *)
Definition py_item (v : json) (key : str) : result json :=
  match v with
  | JDict d => match assoc key d with Some x => Ok x | None => Raise KeyError end
  | _ => Raise TypeError
  end.

(** [[doc["filename"] for doc in docs]], stopping at the first exception. *)
Fixpoint filenames_of (docs : list json) : result (list json) :=
  match docs with
  | [] => Ok []
  | doc :: docs' =>
      x <- py_item doc (lit "filename");;
      xs <- filenames_of docs';;
      Ok (x :: xs)
  end.

(** Iterating a decoded value: a list yields its items, a dictionary its
    keys, a string its characters; the other values are not iterable. *)
Definition py_iter (v : json) : result (list json) :=
  match v with
  | JList l => Ok l
  | JDict d => Ok (List.map (fun kv => JStr (fst kv)) d)
  | JStr s => Ok (List.map (fun c => JStr [c]) s)
  | _ => Raise TypeError
  end.

(** [a.get(k1, {}).get(k2, "") or a.get(k1, "")] *)
Definition nested_or_bare (data : json) (k1 k2 : str) : result json :=
  inner <- py_get data k1 (JDict []);;
  field <- py_get inner k2 (JStr []);;
  if json_truthy field then Ok field else py_get data k1 (JStr []).

(** [load_input_config] on the decoded file [data]. *)
Definition load_input_config (data : json) : result (json * json * list json) :=
  persona <- nested_or_bare data (lit "persona") (lit "role");;
  job <- nested_or_bare data (lit "job_to_be_done") (lit "task");;
  docs <- py_get data (lit "documents") (JList []);;
  items <- py_iter docs;;
  filenames <- filenames_of items;;
  Ok (persona, job, filenames).

(** ** main.py: section segmenter *)

(** The dictionary the segmenter builds for a section. *)
Record segment := { seg_title : str; seg_content : str; seg_page : nat }.

(** [{h[0].strip(): h[1] for h in headings_list}]: a later heading
    overwrites an earlier one with the same key. *)
Definition heading_page_map (headings_list : list (list N * nat))
    : gmap (list N) nat :=
  foldl (fun m h => <[strip (fst h) := snd h]> m) ∅ headings_list.

(** One line of the scan; [line_stripped in heading_texts] holds exactly
    when the map has the key. *)
Definition segment_step (m : gmap (list N) nat)
    (st : list segment * option segment) (line : str)
    : list segment * option segment :=
  let '(sections, current_section) := st in
  let line_stripped := strip line in
  match m !! line_stripped with
  | Some p =>
      (match current_section with
       | Some c => sections ++ [c]
       | None => sections
       end,
       Some {| seg_title := line_stripped; seg_content := []; seg_page := p |})
  | None =>
      match current_section with
      | Some c =>
          (sections,
           Some {| seg_title := seg_title c;
                   seg_content := seg_content c ++ line ++ [LF];
                   seg_page := seg_page c |})
      | None => (sections, None)
      end
  end.

Definition segment_lines (headings_list : list (list N * nat))
    (lines : list str) : list segment :=
  let m := heading_page_map headings_list in
  let '(sections, current_section) := foldl (segment_step m) ([], None) lines in
  match current_section with
  | Some c => sections ++ [c]
  | None => sections
  end.

Definition extract_sections_from_pdf
    (fitz_open : list N -> option ProcessPdfs.document) (pdf_path : str)
    (all_headings : gmap (list N) (list (list N * nat)))
    : result (list segment) :=
  let filename := ProcessPdfs.basename pdf_path in
  let headings_list := default [] (all_headings !! filename) in
  match headings_list with
  | [] => Ok []
  | _ =>
      match fitz_open pdf_path with
      | None => Raise OSError
      | Some doc =>
          let full_text :=
            join [LF] (List.map ProcessPdfs.page_text (ProcessPdfs.doc_pages doc)) in
          Ok (segment_lines headings_list (splitlines full_text))
      end
  end.

(** ** main.py: index and retrieval *)

(** A section once [main] has added its document. *)
Record section := {
  document : str;
  title : str;
  content : str;
  page : nat
}.

(** [f"{section['document']} {section['title']} {section['content']}"] *)
Definition full_text (s : section) : str :=
  document s ++ lit " " ++ title s ++ lit " " ++ content s.

Definition index_step (encode : list N -> list Q)
    (st : list (list Q) * list section) (s : section)
    : list (list Q) * list section :=
  let '(embeddings, metadata) := st in
  if (length (strip (full_text s)) <? 30)%nat then st
  else (embeddings ++ [encode (full_text s)], metadata ++ [s]).

(** [build_faiss_index]: the index is the list of the vectors added to
    it, [None] when there is none. *)
Definition build_faiss_index (encode : list N -> list Q)
    (sections : list section) : option (list (list Q)) * list section :=
  let '(embeddings, metadata) := foldl (index_step encode) ([], []) sections in
  match embeddings with
  | [] => (None, [])
  | _ => (Some embeddings, metadata)
  end.

(** [metadata[idx]] for each hit of the search, stopping at the first
    [IndexError]. *)
Fixpoint hits_sections (metadata : list section) (hits : list (Q * Z))
    : result (list (Q * section)) :=
  match hits with
  | [] => Ok []
  | (score, idx) :: hits' =>
      match index metadata idx with
      | None => Raise IndexError
      | Some s =>
          rest <- hits_sections metadata hits';;
          Ok ((score, s) :: rest)
      end
  end.

(** The key [-x[0]] of the sort, as an order on the results. *)
Definition by_score_desc (x y : Q * section) : bool :=
  Qle_bool (- fst x) (- fst y).

(** [query_faiss_index]; [search idx q k] is [index.search]: its rows of
    scores and labels, paired. *)
Definition query_faiss_index (encode : list N -> list Q)
    (search : list (list Q) -> list Q -> nat -> list (Q * Z))
    (idx : list (list Q)) (metadata : list section) (query_text : str)
    (top_k : nat) : result (list (Q * section)) :=
  let query_embedding := encode query_text in
  results <- hits_sections metadata (search idx query_embedding top_k);;
  Ok (sort_by by_score_desc results).

(** ** main.py: the run *)

(** The outside world of one run. *)
Record world := {
  (** [open] then [json.load]; [None] when either raises *)
  read_json : list N -> option json;
  (** [os.path.exists] *)
  path_exists : list N -> bool;
  (** [fitz.open]; [None] when it raises *)
  fitz_open : list N -> option ProcessPdfs.document;
  (** [model.encode(text, normalize_embeddings=True)] *)
  encode : list N -> list Q;
  (** [index.search]: scores and labels, paired *)
  search : list (list Q) -> list Q -> nat -> list (Q * Z);
  (** [datetime.now().isoformat()] *)
  now_isoformat : list N;
  (** [str(v)] of a value that is not a string *)
  format_value : json -> list N;
  (** whether the output directory and file can be written *)
  can_write : list N -> bool
}.

Record args := {
  num_results : Z;
  input_json : list N;
  pdf_folder : list N;
  output_json : list N
}.

(** What the run prints, in order; [StderrError] goes to standard error,
    the others to standard output.  The message [process_pdf] prints for a
    page whose rendering raised is not recorded. *)
Inductive event :=
  | PrintNoPdfFiles
  | PrintMissing (filename : list N)
  | StderrError (pdf_path : list N)
  | PrintProcessed (filename : list N) (n : nat)
  | PrintErrorMain (filename : list N)
  | PrintNoContent
  | PrintNothingToIndex
  | PrintSaved (output_path : list N) (pdfs sections subsections : nat).

Record extracted := {
  e_document : list N;
  e_section_title : list N;
  e_importance_rank : nat;
  e_page_number : nat
}.

Record refined := {
  a_document : list N;
  a_refined_text : list N;
  a_page_number : nat
}.

Record output := {
  o_input_documents : list (list N);
  o_persona : json;
  o_job_to_be_done : json;
  o_processing_timestamp : list N;
  extracted_sections : list extracted;
  subsection_analysis : list refined
}.

(** How the run ends: [main] returns, [sys.exit(code)] is called, or an
    exception reaches the top level. *)
Inductive status :=
  | Finished
  | SystemExit (code : Z)
  | Uncaught (e : exn).

Record outcome := {
  run_log : list event;
  run_status : status;
  run_written : option output
}.

(** [os.path.join] of two components. *)
Definition path_join (a b : str) : str :=
  if startswith (lit "/") b then b
  else if negb (truthy a) || endswith (lit "/") a then a ++ b
  else a ++ lit "/" ++ b.

(** [f"{v}"] *)
Definition fstr (w : world) (v : json) : str :=
  match v with
  | JStr s => s
  | _ => format_value w v
  end.

Record loop_state := {
  input_documents : list (list N);
  all_sections : list section;
  all_headings : gmap (list N) (list (list N * nat));
  log : list event
}.

Inductive loop_result :=
  | Completed (st : loop_state)
  | Stopped (events : list event) (s : status).

Definition with_document (filename : str) (g : segment) : section :=
  {| document := filename; title := seg_title g;
     content := seg_content g; page := seg_page g |}.

(** [[[e["text"], e["page"]] for e in outline if e["level"] in ["H1", "H2"]]] *)
Definition top_level_headings (outline : list ProcessPdfs.heading)
    : list (list N * nat) :=
  List.map (fun h => (ProcessPdfs.h_text h, ProcessPdfs.h_page h))
    (List.filter (fun h => (ProcessPdfs.h_level h =? 1)%nat
                           || (ProcessPdfs.h_level h =? 2)%nat) outline).

(** The loop over [pdf_filenames]. *)
Fixpoint main_loop (w : world) (pdf_folder_path : str)
    (pdf_filenames : list json) (st : loop_state) : loop_result :=
  match pdf_filenames with
  | [] => Completed st
  | JStr filename :: rest =>
      let path := path_join pdf_folder_path filename in
      if negb (path_exists w path) then
        main_loop w pdf_folder_path rest
          {| input_documents := input_documents st;
             all_sections := all_sections st;
             all_headings := all_headings st;
             log := log st ++ [PrintMissing filename] |}
      else
        match ProcessPdfs.main_process_pdf (fitz_open w) path with
        | ProcessPdfs.SysExit0 =>
            Stopped (log st ++ [PrintNoPdfFiles]) (SystemExit 0)
        | ProcessPdfs.Returned None =>
            Stopped (log st ++ [StderrError path]) Finished
        | ProcessPdfs.Returned (Some extracted_headings) =>
            let headings :=
              top_level_headings (ProcessPdfs.r_outline extracted_headings) in
            let all_headings' := <[filename := headings]> (all_headings st) in
            match extract_sections_from_pdf (fitz_open w) path all_headings' with
            | Ok sections =>
                main_loop w pdf_folder_path rest
                  {| input_documents := input_documents st ++ [filename];
                     all_sections :=
                       all_sections st ++ List.map (with_document filename) sections;
                     all_headings := all_headings';
                     log := log st ++ [PrintProcessed filename (length sections)] |}
            | Raise _ =>
                main_loop w pdf_folder_path rest
                  {| input_documents := input_documents st;
                     all_sections := all_sections st;
                     all_headings := all_headings';
                     log := log st ++ [PrintErrorMain filename] |}
            end
        end
  | _ :: _ => Stopped (log st) (Uncaught TypeError)
  end.

(** The filter of the result assembler. *)
Definition has_body (x : Q * section) : bool :=
  (10 <? length (combine_lines (content (snd x))))%nat.

Definition extracted_of (i : nat) (x : Q * section) : extracted :=
  {| e_document := document (snd x);
     e_section_title := title (snd x);
     e_importance_rank := S i;
     e_page_number := page (snd x) + 1 |}.

Definition refined_of (x : Q * section) : refined :=
  {| a_document := document (snd x);
     a_refined_text := title (snd x) ++ lit " - " ++ combine_lines (content (snd x));
     a_page_number := page (snd x) + 1 |}.

(** The two lists of the output, from the results of the query. *)
Definition assemble (n : Z) (top_sections : list (Q * section))
    : list extracted * list refined :=
  let top_sections := List.filter has_body top_sections in
  let extracted_sections := imap extracted_of top_sections in
  let subsection_analysis := List.map refined_of top_sections in
  (slice_to n extracted_sections, slice_to n subsection_analysis).

Definition initial_state : loop_state :=
  {| input_documents := []; all_sections := []; all_headings := ∅; log := [] |}.

Definition stop (events : list event) (s : status) : outcome :=
  {| run_log := events; run_status := s; run_written := None |}.

Definition main (w : world) (a : args) : outcome :=
  match read_json w (input_json a) with
  | None => stop [] (Uncaught OSError)
  | Some data =>
      match load_input_config data with
      | Raise e => stop [] (Uncaught e)
      | Ok (persona, job, pdf_filenames) =>
          let query_text := fstr w persona ++ lit " " ++ fstr w job in
          match main_loop w (pdf_folder a) pdf_filenames initial_state with
          | Stopped events s => stop events s
          | Completed st =>
              match all_sections st with
              | [] => stop (log st ++ [PrintNoContent]) Finished
              | _ =>
                  match build_faiss_index (encode w) (all_sections st) with
                  | (None, _) => stop (log st ++ [PrintNothingToIndex]) Finished
                  | (Some idx, metadata) =>
                      match query_faiss_index (encode w) (search w) idx metadata
                              query_text 25 with
                      | Raise e => stop (log st) (Uncaught e)
                      | Ok top_sections =>
                          let '(es, sa) := assemble (num_results a) top_sections in
                          let n := length (List.filter has_body top_sections) in
                          if can_write w (output_json a) then
                            {| run_log :=
                                 log st ++ [PrintSaved (output_json a)
                                              (length (input_documents st)) n n];
                               run_status := Finished;
                               run_written :=
                                 Some {| o_input_documents := input_documents st;
                                         o_persona := persona;
                                         o_job_to_be_done := job;
                                         o_processing_timestamp := now_isoformat w;
                                         extracted_sections := es;
                                         subsection_analysis := sa |} |}
                          else stop (log st) (Uncaught OSError)
                      end
                  end
              end
          end
      end
  end.

End Main.

(** ** A concrete run

    Two small documents and the collaborators of a run, to evaluate the
    program on. *)

Module Demo.
Import Py Main ProcessPdfs.

Definition text_line (text : string) (size top : Q) : tline :=
  {| line_spans := [ {| span_text := lit text; span_size := size |} ];
     line_top := top |}.

(** One page of body text: no heading, by markdown or by font size. *)
Definition notes_pdf : document :=
  {| meta_title := None;
     doc_pages :=
       [ {| page_blocks := [ {| block_lines := [ text_line "hello world" 10 72 ] |} ];
            page_text := lit "hello world" ++ [LF];
            page_markdown := Some (lit "hello world" ++ [LF]) |} ] |}.

(** Two pages, each with a heading [Overview] and a line of body text. *)
Definition guide_page (body : string) : page :=
  {| page_blocks :=
       [ {| block_lines := [ text_line "Overview" 16 72; text_line body 10 100 ] |} ];
     page_text := lit "Overview" ++ [LF] ++ lit body ++ [LF];
     page_markdown := Some (lit "## Overview" ++ [LF] ++ lit body ++ [LF]) |}.

Definition guide_pdf : document :=
  {| meta_title := None;
     doc_pages :=
       [ guide_page "This guide explains the retrieval pipeline in detail.";
         guide_page "Ranking uses cosine similarity between embeddings." ] |}.

Definition config : json :=
  JDict [ (lit "persona", JDict [ (lit "role", JStr (lit "Analyst")) ]);
          (lit "job_to_be_done", JDict [ (lit "task", JStr (lit "Summarise")) ]);
          (lit "documents",
           JList [ JDict [ (lit "filename", JStr (lit "notes.pdf")) ];
                   JDict [ (lit "filename", JStr (lit "guide.pdf")) ] ]) ].

(** A second configuration, whose second file exists but is no PDF. *)
Definition config_broken : json :=
  JDict [ (lit "persona", JDict [ (lit "role", JStr (lit "Analyst")) ]);
          (lit "job_to_be_done", JDict [ (lit "task", JStr (lit "Summarise")) ]);
          (lit "documents",
           JList [ JDict [ (lit "filename", JStr (lit "guide.pdf")) ];
                   JDict [ (lit "filename", JStr (lit "broken.pdf")) ];
                   JDict [ (lit "filename", JStr (lit "notes.pdf")) ] ]) ].

Definition dot (u v : list Q) : Q :=
  foldr Qplus 0%Q (zip_with Qmult u v).

(** A flat inner-product search: the [k] best vectors by descending
    score, and label [-1] with the lowest float where the index holds
    fewer than [k] vectors.  The search promises no insertion order among
    equal scores: here the vector added later comes first. *)
Definition flat_ip_search (vs : list (list Q)) (q : list Q) (k : nat)
    : list (Q * Z) :=
  let scored := imap (fun i v => (dot v q, Z.of_nat i)) vs in
  let ranked := sort_by (fun x y => Qle_bool (fst y) (fst x)) (rev scored) in
  take k (ranked
          ++ replicate k ((-340282346638528859811704183484516925440 # 1)%Q, (-1)%Z)).

Definition open_demo (path : list N) : option document :=
  if bool_decide (path = lit "pdfs/notes.pdf") then Some notes_pdf
  else if bool_decide (path = lit "pdfs/guide.pdf") then Some guide_pdf
  else None.

Definition world : Main.world :=
  {| read_json := fun path =>
       if bool_decide (path = lit "in.json") then Some config
       else if bool_decide (path = lit "in2.json") then Some config_broken
       else None;
     path_exists := fun path =>
       bool_decide (path ∈ [lit "pdfs/notes.pdf"; lit "pdfs/guide.pdf";
                            lit "pdfs/broken.pdf"]);
     fitz_open := open_demo;
     encode := fun _ => [1%Q];
     search := flat_ip_search;
     now_isoformat := lit "2025-07-28T10:00:00";
     format_value := fun _ => [];
     can_write := fun _ => true |}.

Definition arguments : args :=
  {| num_results := 2;
     input_json := lit "in.json";
     pdf_folder := lit "pdfs";
     output_json := lit "out/result.json" |}.

Definition arguments_broken : args :=
  {| num_results := 2;
     input_json := lit "in2.json";
     pdf_folder := lit "pdfs";
     output_json := lit "out/result.json" |}.

(** What [process_pdf] returns for the second document. *)
Definition guide_result : pdf_result :=
  {| r_title := lit "Overview ";
     r_outline :=
       [ {| h_level := 2; h_text := lit "Overview"; h_page := 0 |};
         {| h_level := 2; h_text := lit "Overview"; h_page := 1 |} ];
     r_filename := lit "guide.pdf" |}.

(** The two sections of the second document; both carry the page of the
    second heading. *)
Definition guide_segments : list segment :=
  [ {| seg_title := lit "Overview";
       seg_content :=
         lit "This guide explains the retrieval pipeline in detail." ++ [LF; LF];
       seg_page := 1 |};
    {| seg_title := lit "Overview";
       seg_content :=
         lit "Ranking uses cosine similarity between embeddings." ++ [LF];
       seg_page := 1 |} ].

Definition guide_sections : list section :=
  List.map (with_document (lit "guide.pdf")) guide_segments.

Definition no_output : output :=
  {| o_input_documents := []; o_persona := JNull; o_job_to_be_done := JNull;
     o_processing_timestamp := []; extracted_sections := [];
     subsection_analysis := [] |}.

(** The output file of the run on [arguments]. *)
Definition written : output :=
  Eval vm_compute in default no_output (run_written (main world arguments)).

(** A world in which every path exists and opens as the second document. *)
Definition world_everywhere : Main.world :=
  {| read_json := fun _ => Some config;
     path_exists := fun _ => true;
     fitz_open := fun _ => Some guide_pdf;
     encode := fun _ => [1%Q];
     search := flat_ip_search;
     now_isoformat := lit "2025-07-28T10:00:00";
     format_value := fun _ => [];
     can_write := fun _ => true |}.

(** A world whose configuration lists the two documents while the folder
    holds no file. *)
Definition world_empty_folder : Main.world :=
  {| read_json := fun _ => Some config;
     path_exists := fun _ => false;
     fitz_open := fun _ => None;
     encode := fun _ => [1%Q];
     search := flat_ip_search;
     now_isoformat := lit "2025-07-28T10:00:00";
     format_value := fun _ => [];
     can_write := fun _ => true |}.

(** One page with a heading and one letter of body text. *)
Definition tiny_pdf : document :=
  {| meta_title := None;
     doc_pages :=
       [ {| page_blocks :=
              [ {| block_lines := [ text_line "Intro" 16 72; text_line "x" 10 100 ] |} ];
            page_text := lit "Intro" ++ [LF] ++ lit "x" ++ [LF];
            page_markdown := Some (lit "## Intro" ++ [LF] ++ lit "x" ++ [LF]) |} ] |}.

Definition config_tiny : json :=
  JDict [ (lit "persona", JDict [ (lit "role", JStr (lit "Analyst")) ]);
          (lit "job_to_be_done", JDict [ (lit "task", JStr (lit "Summarise")) ]);
          (lit "documents", JList [ JDict [ (lit "filename", JStr (lit "a.pdf")) ] ]) ].

(** One page whose only line is short: text, but nothing a title or a
    heading can be made of. *)
Definition short_pdf : document :=
  {| meta_title := None;
     doc_pages :=
       [ {| page_blocks := [ {| block_lines := [ text_line "Hi" 10 72 ] |} ];
            page_text := lit "Hi" ++ [LF];
            page_markdown := Some (lit "Hi" ++ [LF]) |} ] |}.

(** A world whose only document is the tiny one. *)
Definition world_tiny : Main.world :=
  {| read_json := fun _ => Some config_tiny;
     path_exists := fun _ => true;
     fitz_open := fun _ => Some tiny_pdf;
     encode := fun _ => [1%Q];
     search := flat_ip_search;
     now_isoformat := lit "2025-07-28T10:00:00";
     format_value := fun _ => [];
     can_write := fun _ => true |}.

End Demo.

(** ** Vocabulary of the properties *)

Section Vocabulary.
Import Py Main.

(** No white space at either end. *)
Definition trimmed (s : list N) : Prop :=
  match s with [] => True | c :: _ => isspace c = false end
  /\ match rev s with [] => True | c :: _ => isspace c = false end.

(** Deleting the positions a mask selects. *)
Fixpoint delete_spans (mask : list bool) (s : list N) : list N :=
  match mask, s with
  | b :: mask', c :: s' =>
      if b then delete_spans mask' s' else c :: delete_spans mask' s'
  | _, _ => []
  end.

(** Where the scan stands, as to [^], after [k] characters of a match. *)
Fixpoint bol_after (bol : bool) (k : nat) (s : list N) : bool :=
  match k, s with
  | S k', c :: s' => bol_after (c =? LF) k' s'
  | _, _ => bol
  end.

(** The text [pre] ends where a line starts: after a line feed, or it is
    empty and the scan is at the start of a line. *)
Definition line_start (bol : bool) (pre : list N) : Prop :=
  match last pre with
  | Some c => c = LF
  | None => bol = true
  end.

(** No bullet, hyphen-minus or en dash. *)
Definition glyph_free (s : list N) : Prop :=
  Forall (fun c => is_dash_glyph c = false) s.

(** Every white-space character is a single space between two other
    characters or at an end. *)
Fixpoint spaced (s : list N) : Prop :=
  match s with
  | [] => True
  | c :: s' =>
      (isspace c = true ->
       c = SP /\ match s' with d :: _ => isspace d = false | [] => True end)
      /\ spaced s'
  end.

(** The admission threshold, as the specification words it: the
    normalised length of the embedding text is at least 30. *)
Definition admitted (s : section) : bool :=
  (30 <=? length (strip (full_text s)))%nat.

(** Descending scores. *)
Definition score_ge (x y : Q * section) : Prop := (fst y <= fst x)%Q.

(** The results whose score equals [q]. *)
Definition has_score (q : Q) (x : Q * section) : bool := Qeq_bool (fst x) q.

(** The page of the last heading of the list with the given text, as the
    specification words the lookup. *)
Fixpoint last_page (t : list N) (hs : list (list N * nat)) : option nat :=
  match hs with
  | [] => None
  | h :: hs' =>
      match last_page t hs' with
      | Some p => Some p
      | None => if bool_decide (strip (fst h) = t) then Some (snd h) else None
      end
  end.

(** Every section the scan has opened carries the page the lookup gives
    for its title. *)
Definition paged (m : gmap (list N) nat) (g : segment) : Prop :=
  m !! seg_title g = Some (seg_page g).

(** A text fit for a title: not empty, no white space at either end. *)
Definition solid (t : list N) : Prop := t <> [] /\ trimmed t.

(** A listed file that lets the loop go on: it is missing, or it is
    processed without an exception. *)
Definition passes (w : world) (folder : list N) (g : list N) : Prop :=
  path_exists w (path_join folder g) = false
  \/ (path_join folder g <> []
      /\ exists r, ProcessPdfs.process_pdf (fitz_open w) (path_join folder g) = Ok r).

(** The claim of the specification, for one run: a listed document that
    exists and is processed with an empty outline makes the run return
    early without writing its output. *)
Definition aborts_on_empty_outline (w : world) (a : args) : Prop :=
  forall data persona job names f r,
    read_json w (input_json a) = Some data ->
    load_input_config data = Ok (persona, job, names) ->
    In (JStr f) names ->
    path_exists w (path_join (pdf_folder a) f) = true ->
    ProcessPdfs.main_process_pdf (fitz_open w) (path_join (pdf_folder a) f)
    = ProcessPdfs.Returned (Some r) ->
    ProcessPdfs.r_outline r = [] ->
    run_status (main w a) = Finished /\ run_written (main w a) = None.

(** A character [process_pdfs.clean_text] leaves alone: no markdown mark
    (asterisk, underscore, backquote), en dash or curly double quote. *)
Definition plain_char (c : N) : bool :=
  negb ((c =? 42) || (c =? 95) || (c =? 96)
        || (c =? 8211) || (c =? 8220) || (c =? 8221)).

(** The key of the [seen] set of [process_pdf]. *)
Definition heading_key (h : ProcessPdfs.heading) : list N * nat :=
  (ProcessPdfs.h_text h, ProcessPdfs.h_page h).

(** No line feed. *)
Definition no_lf (s : list N) : Prop := Forall (fun c => (c =? LF) = false) s.

(** The metadata of the document has a title that cleans to more than 5
    characters. *)
Definition has_usable_title (doc : ProcessPdfs.document) : bool :=
  match ProcessPdfs.meta_title doc with
  | Some t => truthy t && (5 <? length (ProcessPdfs.clean_text t))%nat
  | None => false
  end.

(** A first-page span text that can be the title: more than 4 and fewer
    than 80 characters. *)
Definition title_candidate (x : list N * Q * Q) : bool :=
  (4 <? length (fst (fst x)))%nat && (length (fst (fst x)) <? 80)%nat.

(** No slash: a plain file name. *)
Definition no_slash (s : list N) : Prop := Forall (fun c => (c =? 47) = false) s.

(** The state of the loop of [main] after a file was processed into
    [sections]. *)
Definition processed (st : loop_state) (filename : list N)
    (headings : list (list N * nat)) (sections : list segment) : loop_state :=
  {| input_documents := input_documents st ++ [filename];
     all_sections := all_sections st ++ List.map (with_document filename) sections;
     all_headings := <[filename := headings]> (all_headings st);
     log := log st ++ [PrintProcessed filename (length sections)] |}.

(** The lines of a document as the segmenter reads them. *)
Definition document_lines (doc : ProcessPdfs.document) : list (list N) :=
  splitlines (join [LF] (List.map ProcessPdfs.page_text (ProcessPdfs.doc_pages doc))).

(** A line that opens a section: its stripped text is a key of the lookup. *)
Definition is_heading_line (m : gmap (list N) nat) (line : list N) : bool :=
  bool_decide (is_Some (m !! strip line)).

(** The lines from the first heading line on. *)
Fixpoint after_first_heading (m : gmap (list N) nat) (lines : list (list N))
    : list (list N) :=
  match lines with
  | [] => []
  | l :: ls => if is_heading_line m l then l :: ls else after_first_heading m ls
  end.

(** A section written out again: its title on a line, then its content. *)
Definition segment_text (g : segment) : list N :=
  seg_title g ++ [LF] ++ seg_content g.

(** A line as a section holds it: a heading line stripped, any other line
    as it is, each ended by a line feed. *)
Definition line_text (m : gmap (list N) nat) (line : list N) : list N :=
  (if is_heading_line m line then strip line else line) ++ [LF].

(** The sections closed so far and the open one. *)
Definition flush (st : list segment * option segment) : list segment :=
  fst st ++ match snd st with Some c => [c] | None => [] end.

(** No character at which [str.splitlines] breaks a line. *)
Definition single_line (s : list N) : Prop :=
  Forall (fun c => islinebreak c = false) s.

(** A piece of reflowed text: not empty, trimmed, on one line. *)
Definition piece (s : list N) : Prop := solid s /\ single_line s.

(** How many items [l[:n]] keeps of a list of [len] items. *)
Definition slice_count (n : Z) (len : nat) : nat :=
  if (0 <=? n)%Z then Nat.min (Z.to_nat n) len
  else (len - Z.to_nat (- n))%nat.

(** The tie rule of the specification, for one answer of the query: of
    two results with equal scores, the one that stands first was added
    to the index no later than the other. *)
Definition ties_in_insertion_order (metadata : list section)
    (results : list (Q * section)) : Prop :=
  forall i j x y,
    (i < j)%nat -> results !! i = Some x -> results !! j = Some y ->
    (fst x == fst y)%Q ->
    exists m n, (m <= n)%nat
      /\ metadata !! m = Some (snd x) /\ metadata !! n = Some (snd y).

(** Nothing [get_best_title] can make a title of: no usable metadata
    title, on the first page no span text of more than 4 and fewer than
    80 characters and no line of the plain text that cleans to more than
    5 characters. *)
Definition no_title_source (doc : ProcessPdfs.document) : bool :=
  negb (has_usable_title doc)
  && match ProcessPdfs.doc_pages doc with
     | p0 :: _ =>
         forallb (fun x => negb (title_candidate x)) (ProcessPdfs.first_page_lines p0)
         && forallb (fun l => (length (ProcessPdfs.clean_text l) <=? 5)%nat)
              (split_lf (ProcessPdfs.page_text p0))
     | [] => true
     end.

(** The document is not entirely empty: the plain text of some page
    holds a character that is not white space. *)
Definition has_text (doc : ProcessPdfs.document) : bool :=
  existsb (fun p => truthy (strip (ProcessPdfs.page_text p)))
    (ProcessPdfs.doc_pages doc).

(** The claim of the specification, for one file: when the document is
    not entirely empty, the title [process_pdf] returns holds some text. *)
Definition titled_unless_empty (fitz_open : list N -> option ProcessPdfs.document)
    (pdf_path : list N) : Prop :=
  forall doc r,
    fitz_open pdf_path = Some doc ->
    ProcessPdfs.process_pdf fitz_open pdf_path = Ok r ->
    has_text doc = true ->
    strip (ProcessPdfs.r_title r) <> [].

(** The state of the loop of [main] after a file whose segmentation
    raised: its headings are stored, nothing else is kept of it. *)
Definition unsegmented (st : loop_state) (filename : list N)
    (headings : list (list N * nat)) : loop_state :=
  {| input_documents := input_documents st;
     all_sections := all_sections st;
     all_headings := <[filename := headings]> (all_headings st);
     log := log st ++ [PrintErrorMain filename] |}.

End Vocabulary.

(** * Properties *)

Import Py.

(** ** Facts about the string primitives *)

Section StringFacts.

Lemma lstrip_head (s : list N) :
  match lstrip s with [] => True | c :: _ => isspace c = false end.
Proof.
  induction s as [|c s IH]; simpl; [exact I|].
  destruct (isspace c) eqn:E; [exact IH | exact E].
Qed.

Lemma lstrip_suffix (s : list N) :
  exists p, s = p ++ lstrip s /\ forallb isspace p = true.
Proof.
  induction s as [|c s [p [Hp Hs]]]; simpl.
  - exists []. split; reflexivity.
  - destruct (isspace c) eqn:E.
    + exists (c :: p). simpl. rewrite E, Hs. split; [congruence | reflexivity].
    + exists []. split; reflexivity.
Qed.

Lemma lstrip_id (s : list N) :
  match s with [] => True | c :: _ => isspace c = false end -> lstrip s = s.
Proof. destruct s as [|c s]; simpl; [reflexivity|]. intros ->. reflexivity. Qed.

Lemma strip_trimmed (s : list N) : trimmed (strip s).
Proof.
  unfold trimmed, strip, rstrip. rewrite rev_involutive.
  split; [| apply lstrip_head].
  pose proof (lstrip_head s) as Hh.
  destruct (lstrip_suffix (rev (lstrip s))) as [p [Hp _]].
  set (q := lstrip (rev (lstrip s))) in *.
  assert (Ht : lstrip s = rev q ++ rev p).
  { rewrite <- rev_app_distr, <- Hp, rev_involutive. reflexivity. }
  destruct (rev q) as [|c r] eqn:Er; [exact I|].
  rewrite Ht in Hh. exact Hh.
Qed.

Lemma strip_id (s : list N) : trimmed s -> strip s = s.
Proof.
  intros [Hh Hl]. unfold strip, rstrip.
  rewrite (lstrip_id s Hh), (lstrip_id (rev s) Hl). apply rev_involutive.
Qed.

Lemma strip_idem (s : list N) : strip (strip s) = strip s.
Proof. apply strip_id, strip_trimmed. Qed.

(** [strip] keeps a contiguous part of its argument. *)
Lemma strip_infix (s : list N) : exists p q, s = p ++ strip s ++ q.
Proof.
  destruct (lstrip_suffix s) as [p [Hp _]].
  destruct (lstrip_suffix (rev (lstrip s))) as [q [Hq _]].
  exists p, (rev q). unfold strip, rstrip.
  rewrite <- rev_app_distr, <- Hq, rev_involutive. exact Hp.
Qed.

Lemma trimmed_app (a b : list N) :
  trimmed a -> trimmed b -> a <> [] -> b <> [] -> forall m, trimmed (a ++ m ++ b).
Proof.
  intros [Ha _] [_ Hb] Na Nb m. split.
  - destruct a as [|c a]; [congruence | exact Ha].
  - rewrite !rev_app_distr.
    destruct (rev b) as [|c r] eqn:E; [| exact Hb].
    apply (f_equal (@rev N)) in E. rewrite rev_involutive in E. simpl in E. congruence.
Qed.

Lemma join_snoc (sep : list N) (l : list (list N)) (x : list N) :
  join sep (l ++ [x]) =
  match l with [] => x | _ => join sep l ++ sep ++ x end.
Proof.
  induction l as [|a l IH]; [reflexivity|].
  destruct l as [|b l].
  - reflexivity.
  - change (join sep ((a :: b :: l) ++ [x]))
      with (a ++ sep ++ join sep ((b :: l) ++ [x])).
    rewrite IH. change (join sep (a :: b :: l)) with (a ++ sep ++ join sep (b :: l)).
    rewrite <- !app_assoc. reflexivity.
Qed.

End StringFacts.

(** ** Line reflow *)

Section Reflow.
Import Main.

Lemma nonblank_lines_trimmed (s : list N) :
  Forall (fun l => trimmed l /\ l <> []) (nonblank_lines s).
Proof.
  apply List.Forall_forall. intros l Hl. unfold nonblank_lines in Hl.
  apply List.filter_In in Hl. destruct Hl as [Hin Ht].
  apply List.in_map_iff in Hin. destruct Hin as [x [<- _]].
  split; [apply strip_trimmed|]. intros E. rewrite E in Ht. discriminate.
Qed.

Lemma combine_step_trimmed (st : list (list N) * list N) (line : list N) :
  trimmed (snd st) -> trimmed line -> line <> [] ->
  trimmed (snd (combine_step st line)).
Proof.
  destruct st as [result temp]. cbn [snd]. intros Ht Hl Hn.
  unfold combine_step.
  destruct (ends_terminal line); destruct temp as [|c temp]; cbn [truthy snd];
    try (split; exact I); try exact Hl.
  apply (trimmed_app (c :: temp) line Ht Hl); [discriminate | exact Hn].
Qed.

Lemma combine_loop_trimmed (lines : list (list N)) :
  Forall (fun l => trimmed l /\ l <> []) lines ->
  forall st, trimmed (snd st) -> trimmed (snd (foldl combine_step st lines)).
Proof.
  induction 1 as [|l lines [Hl Hn] _ IH]; intros st Hst; simpl; [exact Hst|].
  apply IH, combine_step_trimmed; assumption.
Qed.

(** C7: when the loop of [combine_lines] ends with a non-empty pending
    fragment [temp], the fragment is appended to the results unchanged, so
    the returned string ends with it: trailing text that no terminal
    punctuation closed is flushed, not dropped. *)
Theorem combine_lines_flushes_trailing_fragment
    (s : list N) (result : list (list N)) (temp : list N) :
  combine_loop (nonblank_lines (strip_markers s)) = (result, temp) ->
  temp <> [] ->
  combine_lines s = join (lit " ") (result ++ [temp])
  /\ exists pre, combine_lines s = pre ++ temp.
Proof.
  intros Hloop Hne.
  assert (Ht : trimmed temp).
  { change temp with (snd (result, temp)). rewrite <- Hloop.
    apply combine_loop_trimmed; [apply nonblank_lines_trimmed|].
    split; exact I. }
  assert (Hc : combine_lines s = join (lit " ") (result ++ [temp])).
  { unfold combine_lines. rewrite Hloop.
    destruct temp as [|c temp]; [congruence|]. simpl truthy. cbv iota.
    rewrite (strip_id _ Ht). reflexivity. }
  split; [exact Hc|]. rewrite Hc, join_snoc.
  destruct result as [|r result].
  - exists []. reflexivity.
  - exists (join (lit " ") (r :: result) ++ lit " "). rewrite <- app_assoc. reflexivity.
Qed.

Lemma combine_lines_flushes_trailing_fragment_witness :
  combine_lines (lit "Start here." ++ [LF] ++ lit "alpha" ++ [LF] ++ lit "beta")
  = lit "Start here. alpha, beta"
  /\ exists pre,
       combine_lines (lit "Start here." ++ [LF] ++ lit "alpha" ++ [LF] ++ lit "beta")
       = pre ++ lit "alpha, beta".
Proof.
  apply (combine_lines_flushes_trailing_fragment
           (lit "Start here." ++ [LF] ++ lit "alpha" ++ [LF] ++ lit "beta")
           [lit "Start here."] (lit "alpha, beta")).
  - vm_compute. reflexivity.
  - discriminate.
Defined.

End Reflow.

(** ** The text normaliser of [main.py] *)

Section Normaliser.
Import Main.

(** Whatever the pattern, the output of [re.sub] is made of characters of
    the subject and of the replacement. *)
Lemma re_sub_go_Forall (P : N -> Prop) m repl :
  Forall P repl ->
  forall s bol k, Forall P s -> Forall P (re_sub_go m repl bol k s).
Proof.
  intros Hr. induction s as [|c s IH]; intros bol k Hs; simpl; [constructor|].
  inversion Hs as [|? ? Hc Hs']; subst.
  destruct k as [|k]; [| apply IH; exact Hs'].
  destruct (m bol (c :: s)).
  - constructor; [exact Hc | apply IH; exact Hs'].
  - apply Forall_app. split; [exact Hr | apply IH; exact Hs'].
Qed.

Lemma glyphs_removed (s : list N) :
  forall bol k, glyph_free (re_sub_go m_glyphs [] bol k s).
Proof.
  induction s as [|c s IH]; intros bol k; simpl; [constructor|].
  destruct k as [|k]; [| apply IH].
  unfold m_glyphs. simpl run.
  destruct (is_dash_glyph c) eqn:E; simpl; [apply IH|].
  constructor; [exact E | apply IH].
Qed.

Lemma glyph_free_id (s : list N) :
  glyph_free s -> forall bol, re_sub_go m_glyphs [] bol 0 s = s.
Proof.
  induction 1 as [|c s Hc _ IH]; intros bol; simpl; [reflexivity|].
  unfold m_glyphs. simpl run. rewrite Hc. f_equal. apply IH.
Qed.

Lemma spaced_app_r (p m : list N) : spaced (p ++ m) -> spaced m.
Proof. induction p as [|c p IH]; simpl; [tauto|]. intros [_ H]. exact (IH H). Qed.

Lemma spaced_app_l (m q : list N) : spaced (m ++ q) -> spaced m.
Proof.
  induction m as [|c m IH]; simpl; [tauto|].
  intros [H1 H2]. split; [| exact (IH H2)].
  intros Hc. destruct (H1 Hc) as [-> Hn]. split; [reflexivity|].
  destruct m; [exact I | exact Hn].
Qed.

Lemma spaces_head (s : list N) :
  forall bol,
    match re_sub_go m_spaces [SP] bol (run isspace s) s with
    | [] => True
    | d :: _ => isspace d = false
    end.
Proof.
  induction s as [|c s IH]; intros bol; [exact I|].
  simpl run. destruct (isspace c) eqn:E.
  - simpl. apply IH.
  - simpl. unfold m_spaces. simpl run. rewrite E. exact E.
Qed.

Lemma spaces_collapsed (s : list N) :
  forall bol k, spaced (re_sub_go m_spaces [SP] bol k s).
Proof.
  induction s as [|c s IH]; intros bol k; simpl; [exact I|].
  destruct k as [|k]; [| apply IH].
  unfold m_spaces. simpl run. destruct (isspace c) eqn:E.
  - simpl. split; [| apply IH]. intros _. split; [reflexivity|].
    apply spaces_head.
  - simpl. split; [| apply IH]. rewrite E. discriminate.
Qed.

Lemma spaced_id (s : list N) :
  spaced s -> forall bol, re_sub_go m_spaces [SP] bol 0 s = s.
Proof.
  induction s as [|c s IH]; intros Hs bol; [reflexivity|].
  destruct Hs as [Hc Hs]. simpl. unfold m_spaces. simpl run.
  destruct (isspace c) eqn:E.
  - destruct (Hc eq_refl) as [-> Hn].
    assert (R : run isspace s = 0%nat).
    { destruct s as [|d s]; [reflexivity|]. simpl. rewrite Hn. reflexivity. }
    rewrite R. simpl. f_equal. apply IH. exact Hs.
  - f_equal. apply IH. exact Hs.
Qed.

Lemma spaced_no_lf (s : list N) :
  spaced s -> Forall (fun c => (LF =? c) = false) s.
Proof.
  induction s as [|c s IH]; intros Hs; [constructor|].
  destruct Hs as [Hc Hs]. constructor; [| exact (IH Hs)].
  destruct (LF =? c) eqn:E; [| reflexivity].
  apply N.eqb_eq in E. subst c. destruct (Hc eq_refl) as [H _]. discriminate H.
Qed.

Lemma no_lf_take (s : list N) :
  Forall (fun c => (LF =? c) = false) s ->
  forall n, existsb (N.eqb LF) (take n s) = false.
Proof.
  induction 1 as [|c s Hc _ IH]; intros [|n]; cbn [firstn existsb]; try reflexivity.
  rewrite Hc. apply IH.
Qed.

Lemma no_lf_id (s : list N) :
  Forall (fun c => (LF =? c) = false) s ->
  forall bol, re_sub_go m_newline [SP] bol 0 s = s.
Proof.
  induction s as [|c s IH]; intros Hs bol; [reflexivity|].
  simpl. unfold m_newline. rewrite (no_lf_take _ Hs).
  f_equal. apply IH. inversion Hs; assumption.
Qed.

(** The result of [clean_text] is in normal form. *)
Lemma clean_text_normal (x : list N) :
  glyph_free (clean_text x) /\ spaced (clean_text x) /\ trimmed (clean_text x).
Proof.
  unfold clean_text.
  set (t := re_sub m_spaces [SP] (re_sub m_newline [SP] (re_sub m_glyphs [] x))).
  assert (Hg : glyph_free t).
  { unfold t, re_sub. apply re_sub_go_Forall; [repeat constructor|].
    apply re_sub_go_Forall; [repeat constructor|]. apply glyphs_removed. }
  assert (Hs : spaced t) by apply spaces_collapsed.
  destruct (strip_infix t) as [p [q Hpq]].
  split; [| split].
  - unfold glyph_free in *. rewrite Hpq in Hg.
    apply Forall_app in Hg. destruct Hg as [_ Hg].
    apply Forall_app in Hg. tauto.
  - rewrite Hpq in Hs. apply spaced_app_r in Hs. apply spaced_app_l in Hs. exact Hs.
  - apply strip_trimmed.
Qed.

(** C9: [clean_text] is idempotent. *)
Theorem clean_text_idempotent (x : list N) :
  clean_text (clean_text x) = clean_text x.
Proof.
  destruct (clean_text_normal x) as [Hg [Hs Ht]].
  set (y := clean_text x) in *.
  unfold clean_text at 1. unfold re_sub.
  rewrite (glyph_free_id y Hg), (no_lf_id y (spaced_no_lf y Hs)), (spaced_id y Hs).
  apply strip_id, Ht.
Qed.

End Normaliser.

(** ** Bullet markers at the start of a line *)

Section Markers.
Import Main.

(** Substituting the empty string deletes exactly the matched positions. *)
Lemma re_sub_go_delete m (s : list N) :
  forall bol k,
    re_sub_go m [] bol k s = delete_spans (re_spans_go m bol k s) s.
Proof.
  induction s as [|c s IH]; intros bol k; simpl; [reflexivity|].
  destruct k as [|k]; [| apply IH].
  destruct (m bol (c :: s)); simpl; [f_equal|]; apply IH.
Qed.

Lemma run_le_length p (s : list N) : (run p s <= length s)%nat.
Proof.
  induction s as [|c s IH]; simpl; [lia|]. destruct (p c); simpl; lia.
Qed.

Lemma run_inside p (s : list N) (i : nat) :
  (i < run p s)%nat -> exists c, s !! i = Some c /\ p c = true.
Proof.
  revert i. induction s as [|c s IH]; simpl; intros i Hi; [lia|].
  destruct (p c) eqn:E; [| lia].
  destruct i as [|i]; [exists c; split; [reflexivity | exact E]|].
  apply IH. lia.
Qed.

Lemma run_stop p (s : list N) (c : N) :
  s !! run p s = Some c -> p c = false.
Proof.
  induction s as [|d s IH]; simpl; [discriminate|].
  destruct (p d) eqn:E; simpl; [exact IH|]. intros [= <-]. exact E.
Qed.

Lemma run_app_all p (l s : list N) :
  forallb p l = true -> run p (l ++ s) = (length l + run p s)%nat.
Proof.
  induction l as [|c l IH]; simpl; [reflexivity|].
  intros H. apply andb_true_iff in H. destruct H as [Hc Hl].
  rewrite Hc, (IH Hl). reflexivity.
Qed.

Lemma marker_not_space (c : N) : is_marker c = true -> isspace c = false.
Proof.
  unfold is_marker. rewrite !orb_true_iff, !N.eqb_eq.
  intros [[[[-> | ->] | ->] | ->] | ->]; reflexivity.
Qed.

Lemma space_not_marker (c : N) : isspace c = true -> is_marker c = false.
Proof.
  intros Hs. destruct (is_marker c) eqn:E; [| reflexivity].
  rewrite (marker_not_space c E) in Hs. discriminate.
Qed.

Lemma spans_go_skip m (k : nat) :
  forall (s : list N) bol, (k <= length s)%nat ->
    re_spans_go m bol k s
    = replicate k true ++ re_spans_go m (bol_after bol k s) 0 (drop k s).
Proof.
  induction k as [|k IH]; intros s bol Hk.
  - destruct s; reflexivity.
  - destruct s as [|c s]; simpl in Hk; [lia|].
    simpl. rewrite IH by lia. reflexivity.
Qed.

Lemma spans_go_match m (s : list N) bol :
  re_spans_go m bol 0 s = re_spans_go m bol (m bol s) s.
Proof.
  destruct s as [|c s]; simpl.
  - destruct (m bol []); reflexivity.
  - destruct (m bol (c :: s)); reflexivity.
Qed.

Lemma spans_go_inside m (s : list N) :
  forall bol k i, (i < k)%nat -> (i < length s)%nat ->
    re_spans_go m bol k s !! i = Some true.
Proof.
  induction s as [|c s IH]; intros bol k i Hk Hi; simpl in Hi; [lia|].
  destruct k as [|k]; [lia|]. simpl.
  destruct i as [|i]; [reflexivity|]. apply IH; lia.
Qed.

Lemma bol_after_last (p : list N) :
  forall bol t, p <> [] -> last p = Some LF ->
    bol_after bol (length p) (p ++ t) = true.
Proof.
  induction p as [|c p IH]; intros bol t Hne Hl; [congruence|].
  simpl. destruct p as [|d p].
  - simpl in Hl. injection Hl as ->. destruct t; reflexivity.
  - apply IH; [discriminate | exact Hl].
Qed.

(** The pattern at the head of a line that begins with markers. *)
Lemma marker_match_head (mk ws rest : list N) :
  mk <> [] -> forallb is_marker mk = true -> forallb isspace ws = true ->
  (length mk + length ws <= m_marker true (mk ++ ws ++ rest))%nat.
Proof.
  intros Hne Hm Hw. unfold m_marker.
  assert (Ha : run isspace (mk ++ ws ++ rest) = 0%nat).
  { destruct mk as [|c mk]; [congruence|]. simpl in Hm.
    apply andb_true_iff in Hm. destruct Hm as [Hc _].
    simpl. rewrite (marker_not_space c Hc). reflexivity. }
  rewrite Ha. rewrite drop_0, (run_app_all is_marker mk _ Hm).
  assert (Hl : (0 < length mk)%nat) by (destruct mk; [congruence | simpl; lia]).
  destruct (length mk + run is_marker (ws ++ rest))%nat as [|b] eqn:E; [lia|].
  destruct ws as [|w ws]; [simpl; lia|].
  simpl in Hw. apply andb_true_iff in Hw. destruct Hw as [Hw0 Hw].
  assert (Hb : run is_marker ((w :: ws) ++ rest) = 0%nat).
  { simpl. rewrite (space_not_marker w Hw0). reflexivity. }
  rewrite Hb in E. rewrite <- E.
  replace (0 + (length mk + 0))%nat with (length mk) by lia.
  rewrite drop_app_length.
  rewrite (run_app_all isspace (w :: ws) rest)
    by (simpl; rewrite Hw0, Hw; reflexivity).
  lia.
Qed.

(** A match that starts before a line start and reaches beyond it covers
    the markers of that line and the white space after them. *)
Lemma marker_match_cover (pre mk ws rest : list N) :
  last pre = Some LF ->
  mk <> [] -> forallb is_marker mk = true -> forallb isspace ws = true ->
  (length pre < m_marker true (pre ++ mk ++ ws ++ rest))%nat ->
  (length pre + length mk + length ws
   <= m_marker true (pre ++ mk ++ ws ++ rest))%nat.
Proof.
  intros Hlast Hne Hm Hw Hlt.
  set (tail := mk ++ ws ++ rest) in *.
  assert (Hpos : (0 < length pre)%nat) by (destruct pre; [discriminate | simpl; lia]).
  assert (Hlf : (pre ++ tail) !! (length pre - 1)%nat = Some LF).
  { rewrite lookup_app_l by lia. rewrite last_lookup in Hlast.
    replace (length pre - 1)%nat with (Init.Nat.pred (length pre)) by lia.
    exact Hlast. }
  destruct mk as [|c0 mk]; [congruence|].
  assert (Hc0 : is_marker c0 = true).
  { simpl in Hm. apply andb_true_iff in Hm. tauto. }
  assert (Hhd : (pre ++ tail) !! length pre = Some c0).
  { rewrite lookup_app_r by lia. rewrite Nat.sub_diag. reflexivity. }
  pose proof (marker_match_head (c0 :: mk) ws rest Hne Hm Hw) as Hhead.
  fold tail in Hhead.
  unfold m_marker in Hlt, Hhead |- *.
  set (a := run isspace (pre ++ tail)) in *.
  assert (Ha : (a <= length pre)%nat).
  { destruct (le_lt_dec a (length pre)) as [H|H]; [exact H|].
    destruct (run_inside isspace _ _ H) as [c [Hc Hs]].
    rewrite Hhd in Hc. injection Hc as <-.
    rewrite (marker_not_space c0 Hc0) in Hs. discriminate. }
  destruct (Nat.eq_dec a (length pre)) as [Heq|Hneq].
  - assert (Ht : run isspace tail = 0%nat).
    { unfold tail. simpl. rewrite (marker_not_space c0 Hc0). reflexivity. }
    rewrite Ht, drop_0 in Hhead.
    rewrite Heq, drop_app_length in Hlt |- *.
    destruct (run is_marker tail) as [|b] eqn:Eb; [lia|].
    replace (length pre + S b)%nat with (length pre + (0 + S b))%nat by lia.
    rewrite <- drop_drop, drop_app_length. simpl in Hhead |- *. lia.
  - exfalso.
    set (b := run is_marker (drop a (pre ++ tail))) in *.
    assert (Hb : (a + b < length pre)%nat).
    { destruct (le_lt_dec (length pre) (a + b)) as [H|H]; [| exact H].
      assert (Hi : (length pre - 1 - a < b)%nat) by lia.
      destruct (run_inside is_marker _ _ Hi) as [c [Hc Hs]].
      rewrite lookup_drop in Hc.
      replace (a + (length pre - 1 - a))%nat with (length pre - 1)%nat in Hc by lia.
      rewrite Hlf in Hc. injection Hc as <-. discriminate Hs. }
    destruct b as [|b'] eqn:Eb; [lia|].
    assert (Hi : (length pre - (a + S b')
                  < run isspace (drop (a + S b') (pre ++ tail)))%nat) by lia.
    destruct (run_inside isspace _ _ Hi) as [c [Hc Hs]].
    rewrite lookup_drop in Hc.
    replace (a + S b' + (length pre - (a + S b')))%nat with (length pre) in Hc by lia.
    rewrite Hhd in Hc. injection Hc as <-.
    rewrite (marker_not_space c0 Hc0) in Hs. discriminate.
Qed.

Lemma last_drop_lt (pre : list N) (n : nat) :
  (n < length pre)%nat -> last (drop n pre) = last pre.
Proof.
  intros H. rewrite !last_lookup, lookup_drop, length_drop. f_equal. lia.
Qed.

Lemma spans_line_start (mk ws rest : list N) :
  mk <> [] -> forallb is_marker mk = true -> forallb isspace ws = true ->
  forall n pre, (length pre <= n)%nat ->
  forall bol, line_start bol pre ->
  forall i, (length pre <= i < length pre + length mk + length ws)%nat ->
    re_spans_go m_marker bol 0 (pre ++ mk ++ ws ++ rest) !! i = Some true.
Proof.
  intros Hne Hm Hw. induction n as [|n IH]; intros pre Hn bol Hstart i Hi.
  - destruct pre as [|c pre]; [| simpl in Hn; lia].
    unfold line_start in Hstart. simpl in Hstart. subst bol.
    simpl app. simpl in Hi. rewrite spans_go_match.
    pose proof (marker_match_head mk ws rest Hne Hm Hw).
    apply spans_go_inside; [lia|]. rewrite !length_app. lia.
  - destruct pre as [|c pre].
    { apply (IH []); [simpl; lia | exact Hstart | exact Hi]. }
    assert (Hlast : last (c :: pre) = Some LF).
    { unfold line_start in Hstart. destruct (last (c :: pre)) as [x|] eqn:E.
      - subst x. reflexivity.
      - apply last_None in E. discriminate E. }
    set (s := (c :: pre) ++ mk ++ ws ++ rest).
    destruct (m_marker bol s) as [|k] eqn:Em.
    + (* no match at this position *)
      change s with (c :: (pre ++ mk ++ ws ++ rest)). simpl re_spans_go.
      change (c :: (pre ++ mk ++ ws ++ rest)) with s. rewrite Em.
      destruct i as [|i]; [simpl in Hi; lia|]. simpl.
      apply IH; [simpl in Hn; lia | | simpl in Hi; lia].
      unfold line_start. destruct pre as [|d pre].
      * simpl. simpl in Hlast. injection Hlast as ->. reflexivity.
      * change (last (c :: d :: pre)) with (last (d :: pre)) in Hlast.
        rewrite Hlast. reflexivity.
    + rewrite spans_go_match, Em.
      destruct (le_lt_dec (S k) (length (c :: pre))) as [Hle|Hgt].
      * (* the match ends within the prefix *)
        rewrite spans_go_skip by (unfold s; rewrite length_app; lia).
        rewrite lookup_app_r by (rewrite length_replicate; lia).
        rewrite length_replicate. unfold s.
        rewrite drop_app_le by exact Hle.
        apply IH.
        -- rewrite length_drop. simpl in Hn |- *. lia.
        -- unfold line_start.
           destruct (Nat.eq_dec (S k) (length (c :: pre))) as [Heq|Hneq].
           ++ rewrite Heq, drop_all. simpl last.
              apply bol_after_last; [discriminate | exact Hlast].
           ++ rewrite last_drop_lt by lia. rewrite Hlast. reflexivity.
        -- rewrite length_drop. lia.
      * (* the match reaches beyond the prefix *)
        assert (bol = true) as ->.
        { destruct bol; [reflexivity|]. unfold m_marker in Em. discriminate. }
        pose proof (marker_match_cover (c :: pre) mk ws rest Hlast Hne Hm Hw) as Hc.
        fold s in Hc. rewrite Em in Hc.
        apply spans_go_inside; [lia|]. unfold s. rewrite !length_app. lia.
Qed.

(** C3: before it reflows lines, [combine_lines] removes from the text
    exactly the positions [re_spans m_marker] selects, and these contain,
    for every line (what follows a line feed, or the start of the text)
    that begins with characters of the class -- the bullet, hyphen-minus,
    en dash and the letter o among them -- that whole run of characters
    and all white space after it.  So a word that begins with the letter o
    loses it: [often] becomes [ften]. *)
Theorem combine_lines_strips_leading_markers (pre mk ws rest : list N) :
  pre = [] \/ last pre = Some LF ->
  mk <> [] -> forallb is_marker mk = true -> forallb isspace ws = true ->
  let s := pre ++ mk ++ ws ++ rest in
  strip_markers s = delete_spans (re_spans m_marker s) s
  /\ (forall i, (length pre <= i < length pre + length mk + length ws)%nat ->
        re_spans m_marker s !! i = Some true)
  /\ forallb is_marker [8226; 45; 8211; 111] = true
  /\ combine_lines (lit "often") = lit "ften".
Proof.
  intros Hpre Hne Hm Hw s. split; [| split; [| split]].
  - apply re_sub_go_delete.
  - intros i Hi. unfold re_spans, s.
    apply (spans_line_start mk ws rest Hne Hm Hw (length pre) pre); [lia | | exact Hi].
    unfold line_start. destruct Hpre as [-> | ->]; reflexivity.
  - reflexivity.
  - vm_compute. reflexivity.
Qed.

Lemma combine_lines_strips_leading_markers_witness :
  let s := lit "Uses:" ++ [LF] ++ lit "o-" ++ lit "  " ++ lit "often" in
  strip_markers s = delete_spans (re_spans m_marker s) s
  /\ (forall i, (6 <= i < 6 + 2 + 2)%nat -> re_spans m_marker s !! i = Some true)
  /\ forallb is_marker [8226; 45; 8211; 111] = true
  /\ combine_lines (lit "often") = lit "ften".
Proof.
  apply (combine_lines_strips_leading_markers
           (lit "Uses:" ++ [LF]) (lit "o-") (lit "  ") (lit "often")).
  - right. reflexivity.
  - discriminate.
  - reflexivity.
  - reflexivity.
Defined.

End Markers.

(** ** Admission into the index *)

Section Admission.
Import Main.

Lemma index_loop (encode : list N -> list Q) (sections : list section) :
  forall es ms,
    foldl (index_step encode) (es, ms) sections
    = (es ++ List.map (fun s => encode (full_text s)) (List.filter admitted sections),
       ms ++ List.filter admitted sections).
Proof.
  induction sections as [|s sections IH]; intros es ms.
  - simpl. rewrite !app_nil_r. reflexivity.
  - cbn [foldl List.filter]. unfold index_step at 2.
    rewrite Nat.ltb_antisym. fold (admitted s).
    destruct (admitted s); cbn [negb]; rewrite IH; [| reflexivity].
    simpl. rewrite <- !app_assoc. reflexivity.
Qed.

(** C5: the metadata list of [build_faiss_index] is the list of the
    sections whose embedding text -- document name, title and raw content
    separated by spaces -- has a stripped length of at least 30, in their
    order, and the index holds the embeddings of exactly these sections; a
    section is admitted if and only if it reaches the threshold, and one
    below it is in neither. *)
Theorem build_faiss_index_admission
    (encode : list N -> list Q) (sections : list section) :
  snd (build_faiss_index encode sections) = List.filter admitted sections
  /\ fst (build_faiss_index encode sections)
     = match List.filter admitted sections with
       | [] => None
       | kept => Some (List.map (fun s => encode (full_text s)) kept)
       end
  /\ forall s,
       In s (snd (build_faiss_index encode sections))
       <-> In s sections
           /\ (30 <= length (strip (document s ++ lit " " ++ title s
                                    ++ lit " " ++ content s)))%nat.
Proof.
  assert (H : snd (build_faiss_index encode sections) = List.filter admitted sections
              /\ fst (build_faiss_index encode sections)
                 = match List.filter admitted sections with
                   | [] => None
                   | kept => Some (List.map (fun s => encode (full_text s)) kept)
                   end).
  { unfold build_faiss_index. rewrite index_loop. simpl.
    destruct (List.filter admitted sections) as [|s kept]; simpl; split; reflexivity. }
  destruct H as [Hm Hi]. split; [exact Hm | split; [exact Hi|]].
  intros s. rewrite Hm, List.filter_In. unfold admitted, full_text.
  rewrite Nat.leb_le. reflexivity.
Qed.

End Admission.

(** ** Retrieval order *)

Section Retrieval.
Import Main.

Lemma by_score_desc_true (x y : Q * section) :
  by_score_desc x y = true -> score_ge x y.
Proof.
  unfold by_score_desc, score_ge. rewrite Qle_bool_iff. intros H. lra.
Qed.

Lemma by_score_desc_false (x y : Q * section) :
  by_score_desc x y = false -> score_ge y x /\ ~ (fst x == fst y)%Q.
Proof.
  unfold by_score_desc, score_ge. intros H.
  assert (Hn : ~ (- fst x <= - fst y)%Q).
  { intros Hle. apply Qle_bool_iff in Hle. congruence. }
  split; [| intros E]; lra.
Qed.

Lemma insert_by_perm {A} (le : A -> A -> bool) (x : A) (l : list A) :
  Permutation (insert_by le x l) (x :: l).
Proof.
  induction l as [|y l IH]; simpl; [reflexivity|].
  destruct (le x y); [reflexivity|].
  rewrite IH. apply perm_swap.
Qed.

Lemma sort_by_perm {A} (le : A -> A -> bool) (l : list A) :
  Permutation (sort_by le l) l.
Proof.
  induction l as [|x l IH]; simpl; [reflexivity|].
  unfold sort_by in IH |- *. simpl. rewrite insert_by_perm, IH. reflexivity.
Qed.

Lemma insert_hd (a x : Q * section) (l : list (Q * section)) :
  HdRel score_ge a l -> score_ge a x -> HdRel score_ge a (insert_by by_score_desc x l).
Proof.
  intros Hl Hx. destruct l as [|y l]; simpl; [constructor; exact Hx|].
  destruct (by_score_desc x y); constructor; [exact Hx|].
  inversion Hl; assumption.
Qed.

Lemma insert_sorted (x : Q * section) (l : list (Q * section)) :
  Sorted score_ge l -> Sorted score_ge (insert_by by_score_desc x l).
Proof.
  induction 1 as [|y l Hs IH Hh]; simpl; [repeat constructor|].
  destruct (by_score_desc x y) eqn:E.
  - constructor; [constructor; assumption|].
    constructor. apply by_score_desc_true, E.
  - constructor; [exact IH|].
    apply insert_hd; [exact Hh|]. apply by_score_desc_false, E.
Qed.

Lemma sort_sorted (l : list (Q * section)) :
  Sorted score_ge (sort_by by_score_desc l).
Proof.
  induction l as [|x l IH]; [constructor|]. apply insert_sorted, IH.
Qed.

(** Inserting an element leaves it in front of the elements with the same
    score: the sort is stable. *)
Lemma insert_stable (q : Q) (x : Q * section) (l : list (Q * section)) :
  List.filter (has_score q) (insert_by by_score_desc x l)
  = List.filter (has_score q) (x :: l).
Proof.
  induction l as [|y l IH]; [reflexivity|].
  cbn [insert_by]. destruct (by_score_desc x y) eqn:E; [reflexivity|].
  cbn [List.filter] in IH |- *. rewrite IH.
  destruct (has_score q x) eqn:Ex; [| reflexivity].
  destruct (has_score q y) eqn:Ey; [| reflexivity].
  exfalso. apply by_score_desc_false in E. destruct E as [_ E]. apply E.
  unfold has_score in Ex, Ey. apply Qeq_bool_iff in Ex, Ey.
  rewrite Ex, Ey. reflexivity.
Qed.

Lemma sort_stable (q : Q) (l : list (Q * section)) :
  List.filter (has_score q) (sort_by by_score_desc l)
  = List.filter (has_score q) l.
Proof.
  induction l as [|x l IH]; [reflexivity|].
  change (sort_by by_score_desc (x :: l))
    with (insert_by by_score_desc x (sort_by by_score_desc l)).
  rewrite insert_stable. cbn [List.filter]. rewrite IH. reflexivity.
Qed.

Lemma sorted_adjacent (l : list (Q * section)) :
  Sorted score_ge l ->
  forall i x y, l !! i = Some x -> l !! S i = Some y -> score_ge x y.
Proof.
  induction 1 as [|a l Hs IH Hh]; intros i x y Hx Hy; [discriminate|].
  destruct i as [|i].
  - simpl in Hx, Hy. injection Hx as <-.
    destruct l as [|b l]; [discriminate|]. simpl in Hy. injection Hy as <-.
    inversion Hh; assumption.
  - exact (IH i x y Hx Hy).
Qed.

Lemma index_valid (metadata : list section) (i : Z) :
  (- Z.of_nat (length metadata) <= i < Z.of_nat (length metadata))%Z ->
  exists s, index metadata i = Some s.
Proof.
  intros Hi. unfold index.
  destruct (Z.leb_spec 0 i) as [Hp|Hn].
  - apply lookup_lt_is_Some_2. lia.
  - destruct (Z.leb_spec 0 (Z.of_nat (length metadata) + i)) as [Hq|Hq]; [| lia].
    apply lookup_lt_is_Some_2. lia.
Qed.

Lemma hits_sections_total (metadata : list section) (hits : list (Q * Z)) :
  (forall h, In h hits ->
     (- Z.of_nat (length metadata) <= snd h < Z.of_nat (length metadata))%Z) ->
  exists results, hits_sections metadata hits = Ok results.
Proof.
  induction hits as [|[score i] hits IH]; intros H; [exists []; reflexivity|].
  destruct (index_valid metadata i (H (score, i) (or_introl eq_refl))) as [s Hs].
  destruct IH as [rest Hrest]; [intros h Hh; apply H; right; exact Hh|].
  exists ((score, s) :: rest). simpl. rewrite Hs, Hrest. reflexivity.
Qed.

Lemma hits_sections_scores (metadata : list section) (hits : list (Q * Z)) :
  forall results, hits_sections metadata hits = Ok results ->
    List.map fst results = List.map fst hits.
Proof.
  induction hits as [|[score i] hits IH]; intros results H; simpl in H.
  - injection H as <-. reflexivity.
  - destruct (index metadata i) as [s|]; [| discriminate].
    destruct (hits_sections metadata hits) as [rest|e]; [| discriminate].
    simpl in H. injection H as <-. simpl. f_equal. apply IH. reflexivity.
Qed.

(** C8, amended: [query_faiss_index] returns its results by descending
    score -- each score is at least the next one -- and results with
    equal scores stay in the order in which the index search returned
    them, whatever that order is: the result is a stable rearrangement of
    the hits.  It returns whenever every label of the search denotes a
    position of the metadata list. *)
Theorem query_faiss_index_sorted_descending
    (encode : list N -> list Q)
    (search : list (list Q) -> list Q -> nat -> list (Q * Z))
    (idx : list (list Q)) (metadata : list section) (query_text : list N)
    (top_k : nat) :
  let hits := search idx (encode query_text) top_k in
  let answer := query_faiss_index encode search idx metadata query_text top_k in
  ((forall h, In h hits ->
      (- Z.of_nat (length metadata) <= snd h < Z.of_nat (length metadata))%Z) ->
   exists results, answer = Ok results)
  /\ forall results, answer = Ok results ->
       (forall i x y, results !! i = Some x -> results !! S i = Some y ->
          (fst y <= fst x)%Q)
       /\ exists found,
            hits_sections metadata hits = Ok found
            /\ List.map fst found = List.map fst hits
            /\ Permutation results found
            /\ forall q, List.filter (has_score q) results
                         = List.filter (has_score q) found.
Proof.
  intros hits answer. unfold answer, query_faiss_index. fold hits. split.
  - intros Hv. destruct (hits_sections_total metadata hits Hv) as [found Hf].
    rewrite Hf. simpl. eexists. reflexivity.
  - intros results H.
    destruct (hits_sections metadata hits) as [found|e] eqn:Hf; [| discriminate].
    simpl in H. injection H as <-. split.
    + apply sorted_adjacent, sort_sorted.
    + exists found. split; [reflexivity|]. split; [| split].
      * apply hits_sections_scores with (metadata := metadata). exact Hf.
      * apply sort_by_perm.
      * intros q. apply sort_stable.
Qed.

End Retrieval.

(** ** Section segmenter *)

Section Segmenter.
Import Main.

Lemma heading_page_fold (t : list N) (hs : list (list N * nat)) :
  forall m : gmap (list N) nat,
    foldl (fun m h => <[strip (fst h) := snd h]> m) m hs !! t
    = match last_page t hs with Some p => Some p | None => m !! t end.
Proof.
  induction hs as [|h hs IH]; intros m; [reflexivity|].
  cbn [foldl last_page]. rewrite IH.
  destruct (last_page t hs); [reflexivity|].
  rewrite lookup_insert. destruct (decide (strip (fst h) = t)) as [E|E].
  - rewrite (bool_decide_eq_true_2 _ E). reflexivity.
  - rewrite (bool_decide_eq_false_2 _ E). reflexivity.
Qed.

Lemma heading_page_map_last (t : list N) (hs : list (list N * nat)) :
  heading_page_map hs !! t = last_page t hs.
Proof.
  unfold heading_page_map. rewrite heading_page_fold.
  destruct (last_page t hs); [reflexivity | apply lookup_empty].
Qed.

Lemma last_page_app (t text : list N) (p : nat) (before after : list (list N * nat)) :
  strip text = t -> (forall h, In h after -> strip (fst h) <> t) ->
  last_page t (before ++ (text, p) :: after) = Some p.
Proof.
  intros Ht Hafter.
  assert (Ha : last_page t after = None).
  { induction after as [|h after IH]; [reflexivity|]. simpl.
    rewrite IH by (intros h' Hh'; apply Hafter; right; exact Hh').
    rewrite bool_decide_eq_false_2; [reflexivity|].
    apply Hafter. left. reflexivity. }
  induction before as [|b before IH]; simpl.
  - rewrite Ha, (bool_decide_eq_true_2 _ Ht). reflexivity.
  - rewrite IH. reflexivity.
Qed.

Lemma segment_step_paged (m : gmap (list N) nat)
    (st : list segment * option segment) (line : list N) :
  Forall (paged m) (fst st) ->
  (forall c, snd st = Some c -> paged m c) ->
  Forall (paged m) (fst (segment_step m st line))
  /\ forall c, snd (segment_step m st line) = Some c -> paged m c.
Proof.
  destruct st as [sections cur]. cbn [fst snd]. intros Hs Hc.
  unfold segment_step.
  destruct (m !! strip line) as [p|] eqn:E.
  - cbn [fst snd]. split.
    + destruct cur as [c|]; [| exact Hs].
      apply Forall_app. split; [exact Hs|]. constructor; [| constructor].
      apply Hc. reflexivity.
    + intros c [= <-]. exact E.
  - destruct cur as [c|]; cbn [fst snd]; split; try exact Hs.
    + intros c' [= <-]. exact (Hc c eq_refl).
    + intros c' Hc'. discriminate.
Qed.

Lemma segment_loop_paged (m : gmap (list N) nat) (lines : list (list N)) :
  forall st,
    Forall (paged m) (fst st) ->
    (forall c, snd st = Some c -> paged m c) ->
    Forall (paged m) (fst (foldl (segment_step m) st lines))
    /\ forall c, snd (foldl (segment_step m) st lines) = Some c -> paged m c.
Proof.
  induction lines as [|l lines IH]; intros st Hs Hc; [split; assumption|].
  cbn [foldl]. destruct (segment_step_paged m st l Hs Hc) as [Hs' Hc'].
  apply IH; assumption.
Qed.

Lemma segment_lines_paged (hs : list (list N * nat)) (lines : list (list N)) :
  Forall (paged (heading_page_map hs)) (segment_lines hs lines).
Proof.
  unfold segment_lines.
  destruct (segment_loop_paged (heading_page_map hs) lines ([], None))
    as [Hs Hc]; [constructor | discriminate |].
  destruct (foldl (segment_step (heading_page_map hs)) ([], None) lines)
    as [sections cur].
  cbn [fst snd] in Hs, Hc. destruct cur as [c|]; [| exact Hs].
  apply Forall_app. split; [exact Hs|]. constructor; [| constructor].
  apply Hc. reflexivity.
Qed.

(** C4: the lookup the segmenter builds before the scan maps a heading
    text to the page of the last heading of the list with that text,
    whatever pages earlier headings with the same text have; and every
    section of the result with that title has that page. *)
Theorem segmenter_last_page_wins
    (fitz_open : list N -> option ProcessPdfs.document) (pdf_path : list N)
    (all_headings : gmap (list N) (list (list N * nat)))
    (before after : list (list N * nat)) (text : list N) (p : nat)
    (sections : list segment) (g : segment) :
  all_headings !! ProcessPdfs.basename pdf_path = Some (before ++ (text, p) :: after) ->
  (forall h, In h after -> strip (fst h) <> strip text) ->
  extract_sections_from_pdf fitz_open pdf_path all_headings = Ok sections ->
  In g sections -> seg_title g = strip text ->
  heading_page_map (before ++ (text, p) :: after) !! strip text = Some p
  /\ seg_page g = p.
Proof.
  intros Hh Hafter Hx Hg Ht.
  assert (Hm : heading_page_map (before ++ (text, p) :: after) !! strip text = Some p).
  { rewrite heading_page_map_last. apply last_page_app; [reflexivity | exact Hafter]. }
  split; [exact Hm|].
  unfold extract_sections_from_pdf in Hx. rewrite Hh in Hx. cbn [default] in Hx.
  destruct (before ++ (text, p) :: after) as [|h0 hs] eqn:Ehs.
  { destruct before; discriminate Ehs. }
  destruct (fitz_open pdf_path) as [doc|]; [| discriminate].
  injection Hx as <-.
  pose proof (segment_lines_paged (h0 :: hs)
                (splitlines (join [LF] (List.map ProcessPdfs.page_text
                                          (ProcessPdfs.doc_pages doc))))) as Hp.
  rewrite List.Forall_forall in Hp. specialize (Hp g Hg).
  unfold paged in Hp. rewrite Ht, Hm in Hp. congruence.
Qed.

End Segmenter.

(** ** Input configuration *)

Section Configuration.
Import Main.

Lemma assoc_here (k : list N) (v : json) (d : list (list N * json)) :
  assoc k ((k, v) :: d) = Some v.
Proof. cbn [assoc]. rewrite bool_decide_eq_true_2 by reflexivity. reflexivity. Qed.

Lemma assoc_skip (k k' : list N) (v : json) (d : list (list N * json)) :
  bool_decide (k = k') = false -> assoc k ((k', v) :: d) = assoc k d.
Proof. intros H. cbn [assoc]. rewrite H. reflexivity. Qed.

(** With the nested shape and non-empty role and task, the configuration
    loads. *)
Lemma load_input_config_nested (role task : list N) (names : list (list N)) :
  role <> [] -> task <> [] ->
  load_input_config
    (JDict [ (lit "persona", JDict [ (lit "role", JStr role) ]);
             (lit "job_to_be_done", JDict [ (lit "task", JStr task) ]);
             (lit "documents",
              JList (List.map (fun n => JDict [ (lit "filename", JStr n) ]) names)) ])
  = Ok (JStr role, JStr task, List.map JStr names).
Proof.
  intros Hr Ht.
  assert (H : filenames_of
                (List.map (fun n => JDict [ (lit "filename", JStr n) ]) names)
              = Ok (List.map JStr names)).
  { induction names as [|n names IH]; [reflexivity|].
    cbn [List.map filenames_of]. rewrite IH.
    unfold py_item. rewrite assoc_here. reflexivity. }
  destruct role as [|r role]; [congruence|].
  destruct task as [|t task]; [congruence|].
  unfold load_input_config, nested_or_bare, py_get.
  rewrite !assoc_here.
  rewrite (assoc_skip (lit "job_to_be_done")) by (vm_compute; reflexivity).
  rewrite !assoc_here.
  rewrite !(assoc_skip (lit "documents")) by (vm_compute; reflexivity).
  rewrite !assoc_here.
  cbn [default from_option bind]. unfold id. rewrite !assoc_here.
  cbn [default from_option bind json_truthy truthy py_iter]. unfold id.
  rewrite H. reflexivity.
Qed.

(** A bare string for the persona: [.get] is called on the string. *)
Lemma load_input_config_bare_persona (d : list (list N * json)) (s : list N) :
  assoc (lit "persona") d = Some (JStr s) ->
  load_input_config (JDict d) = Raise AttributeError.
Proof.
  intros H. unfold load_input_config, nested_or_bare. cbn [py_get bind].
  rewrite H. reflexivity.
Qed.

(** With an empty role the fallback returns the persona object itself. *)
Example load_input_config_empty_role :
  load_input_config
    (JDict [ (lit "persona", JDict [ (lit "role", JStr []) ]);
             (lit "job_to_be_done", JDict [ (lit "task", JStr (lit "Plan")) ]);
             (lit "documents", JList []) ])
  = Ok (JDict [ (lit "role", JStr []) ], JStr (lit "Plan"), []).
Proof. vm_compute. reflexivity. Qed.

(** C1, at a configuration with the bare-string shape for both fields:
    [load_input_config] raises [AttributeError] instead of returning the
    persona, the job and the file names. *)
Theorem load_input_config_bare_string_raises :
  load_input_config
    (JDict [ (lit "persona", JStr (lit "Analyst"));
             (lit "job_to_be_done", JStr (lit "Summarise the guides"));
             (lit "documents",
              JList [ JDict [ (lit "filename", JStr (lit "guide.pdf")) ] ]) ])
  = Raise AttributeError.
Proof. vm_compute. reflexivity. Qed.

End Configuration.

(** ** Title of a document *)

Section Title.
Import ProcessPdfs.

Lemma clean_text_trimmed (x : list N) : trimmed (clean_text x).
Proof.
  unfold clean_text. destruct (truthy x); [apply strip_trimmed | split; exact I].
Qed.

Lemma solid_of_length (x : list N) (n : nat) :
  (n <? length (clean_text x))%nat = true -> solid (clean_text x).
Proof.
  intros H. apply Nat.ltb_lt in H. split; [| apply clean_text_trimmed].
  intros E. rewrite E in H. simpl in H. lia.
Qed.

Lemma markdown_heading_solid (line : list N) (n : nat) (h : heading) :
  In h (markdown_heading line n) -> solid (h_text h).
Proof.
  unfold markdown_heading.
  destruct ((0 <? run (N.eqb 35) (strip line))%nat && _); [| intros []].
  match goal with |- context [ (length (clean_text ?x) <? 4)%nat ] => set (y := x) end.
  destruct (length (clean_text y) <? 4)%nat eqn:E; [intros []|].
  cbn [orb]. destruct (contains _ _); [intros []|].
  intros [<- | []]. cbn [h_text]. split; [| apply clean_text_trimmed].
  intros E0. rewrite E0 in E. discriminate E.
Qed.

Lemma span_heading_solid (n : nat) (sp : span) (h : heading) :
  In h (span_heading n sp) -> solid (h_text h).
Proof.
  unfold span_heading.
  destruct (truthy (clean_text (span_text sp))) eqn:E; [| intros []].
  cbn [andb]. destruct (_ && _); [| intros []].
  intros [<- | []]. cbn [h_text]. split; [| apply clean_text_trimmed].
  intros E0. rewrite E0 in E. discriminate E.
Qed.

Lemma page_headings_solid (i : nat) (p : page) (h : heading) :
  In h (page_headings i p) -> solid (h_text h).
Proof.
  unfold page_headings. rewrite in_app_iff. intros [H | H].
  - destruct (page_markdown p) as [md|]; [| destruct H].
    unfold extract_headings_from_markdown in H.
    apply in_flat_map in H. destruct H as [line [_ H]].
    exact (markdown_heading_solid _ _ _ H).
  - unfold extract_headings_from_font_sizes in H.
    apply in_flat_map in H. destruct H as [b [_ H]].
    apply in_flat_map in H. destruct H as [ln [_ H]].
    apply in_flat_map in H. destruct H as [sp [_ H]].
    exact (span_heading_solid _ _ _ H).
Qed.

Lemma dedup_subset (hs : list heading) :
  forall seen h, In h (dedup seen hs) -> In h hs.
Proof.
  induction hs as [|x hs IH]; intros seen h H; [exact H|].
  cbn [dedup] in H. destruct (bool_decide _).
  - right. exact (IH _ _ H).
  - destruct H as [<- | H]; [left; reflexivity | right; exact (IH _ _ H)].
Qed.

Lemma outline_solid (doc : document) (h : heading) :
  In h (dedup ∅ (concat (imap page_headings (doc_pages doc)))) -> solid (h_text h).
Proof.
  intros H. apply dedup_subset in H. apply in_concat in H.
  destruct H as [hs [Hhs Hh]].
  apply list_elem_of_In, elem_of_lookup_imap in Hhs.
  destruct Hhs as [i [p [-> _]]]. exact (page_headings_solid i p h Hh).
Qed.

Lemma find_clean_solid (n : nat) (l : list (list N)) (t : list N) :
  Forall trimmed l ->
  List.find (fun x => (n <? length x)%nat) l = Some t -> solid t.
Proof.
  intros Hl H. apply find_some in H. destruct H as [Hin Hn].
  rewrite List.Forall_forall in Hl. split; [| exact (Hl t Hin)].
  intros E. rewrite E in Hn. destruct n; discriminate Hn.
Qed.

(** What [get_best_title] returns is empty or solid. *)
Lemma get_best_title_solid (doc : document) (t : list N) :
  get_best_title doc = Ok t -> t = [] \/ solid t.
Proof.
  unfold get_best_title.
  destruct (match meta_title doc with Some _ => _ | None => _ end) as [m|] eqn:Em.
  - intros [= <-]. right.
    destruct (meta_title doc) as [mt|]; [| discriminate].
    destruct (truthy mt); [| discriminate].
    destruct (5 <? length (clean_text mt))%nat eqn:E; [| discriminate].
    injection Em as <-. exact (solid_of_length _ _ E).
  - destruct (doc_pages doc) as [|p0 ps]; [discriminate|].
    destruct (List.find _ (List.map _ (sort_by title_key_le (first_page_lines p0))))
      as [s|] eqn:Es.
    + intros [= <-]. right.
      apply find_some in Es. destruct Es as [Hin Hn].
      apply andb_true_iff in Hn. destruct Hn as [Hn _].
      apply in_map_iff in Hin. destruct Hin as [[[x sz] ps'] [<- Hin]].
      apply (Permutation_in _ (sort_by_perm _ _)) in Hin.
      unfold first_page_lines in Hin.
      apply in_flat_map in Hin. destruct Hin as [b [_ Hin]].
      apply in_flat_map in Hin. destruct Hin as [ln [_ Hin]].
      apply in_map_iff in Hin. destruct Hin as [sp [[= <- _ _] _]].
      cbn [fst] in Hn |- *. split; [| apply clean_text_trimmed].
      intros E. rewrite E in Hn. discriminate Hn.
    + destruct (List.find _ (List.map clean_text (split_lf (page_text p0))))
        as [c|] eqn:Ec; intros [= <-]; [right | left; reflexivity].
      apply (find_clean_solid 5 _ _) in Ec; [exact Ec|].
      apply List.Forall_forall. intros x Hx. apply in_map_iff in Hx.
      destruct Hx as [y [<- _]]. apply clean_text_trimmed.
Qed.

Lemma find_none_forallb {A} (P : A -> bool) (l : list A) :
  List.find P l = None <-> forallb (fun x => negb (P x)) l = true.
Proof.
  induction l as [|x l IH]; cbn [List.find forallb]; [tauto|].
  destruct (P x); cbn [negb andb]; [split; discriminate | exact IH].
Qed.

Lemma forallb_map_list {A B} (P : B -> bool) (f : A -> B) (l : list A) :
  forallb P (List.map f l) = forallb (fun x => P (f x)) l.
Proof.
  induction l as [|x l IH]; cbn [List.map forallb]; [reflexivity|].
  rewrite IH. reflexivity.
Qed.

Lemma forallb_perm {A} (P : A -> bool) (l l' : list A) :
  Permutation l l' -> forallb P l = true -> forallb P l' = true.
Proof.
  intros Hp H. rewrite forallb_forall in H. apply forallb_forall.
  intros x Hx. apply H. exact (Permutation_in _ (Permutation_sym Hp) Hx).
Qed.

(** No candidate among the sorted span texts exactly when no span text
    of the page is one. *)
Lemma no_candidate_sorted (p0 : page) :
  List.find (fun x => (4 <? length x)%nat && (length x <? 80)%nat)
    (List.map (fun x => fst (fst x)) (sort_by title_key_le (first_page_lines p0)))
  = None
  <-> forallb (fun x => negb (title_candidate x)) (first_page_lines p0) = true.
Proof.
  rewrite find_none_forallb, forallb_map_list. unfold title_candidate. split.
  - apply forallb_perm, sort_by_perm.
  - apply forallb_perm, Permutation_sym, sort_by_perm.
Qed.

Lemma no_long_line (p0 : page) :
  List.find (fun c => (5 <? length c)%nat)
    (List.map clean_text (split_lf (page_text p0))) = None
  <-> forallb (fun l => (length (clean_text l) <=? 5)%nat)
        (split_lf (page_text p0)) = true.
Proof.
  rewrite find_none_forallb, forallb_map_list.
  assert (E : forall l : list N,
            negb (5 <? length (clean_text l))%nat
            = (length (clean_text l) <=? 5)%nat).
  { intros l. rewrite Nat.ltb_antisym. apply negb_involutive. }
  split; intros H; rewrite forallb_forall in H; apply forallb_forall;
    intros l Hl; specialize (H l Hl); cbv beta in H |- *;
    [rewrite <- E | rewrite E]; exact H.
Qed.

(** [get_best_title] returns the empty string exactly when it has nothing
    to make a title of. *)
Lemma get_best_title_empty (doc : document) (t : list N) :
  get_best_title doc = Ok t -> (t = [] <-> no_title_source doc = true).
Proof.
  intros Ht. destruct (get_best_title_solid doc t Ht) as [-> | [Hne _]].
  - split; [intros _ | reflexivity].
    revert Ht. unfold get_best_title, no_title_source, has_usable_title.
    destruct (meta_title doc) as [mt|].
    + destruct (truthy mt); cbn [andb negb].
      * destruct (5 <? length (clean_text mt))%nat eqn:E.
        -- intros [= Hc]. rewrite Hc in E. discriminate E.
        -- cbn [negb andb]. destruct (doc_pages doc) as [|p0 ps]; [discriminate|].
           destruct (List.find _ (List.map _ (sort_by _ _))) as [s|] eqn:Es.
           ++ intros [= ->]. apply find_some in Es. destruct Es as [_ Es].
              discriminate Es.
           ++ apply no_candidate_sorted in Es. rewrite Es. cbn [andb].
              destruct (List.find _ (List.map clean_text _)) as [c|] eqn:Ec.
              ** intros [= ->]. apply find_some in Ec. destruct Ec as [_ Ec].
                 discriminate Ec.
              ** intros _. apply no_long_line. exact Ec.
      * destruct (doc_pages doc) as [|p0 ps]; [discriminate|].
        destruct (List.find _ (List.map _ (sort_by _ _))) as [s|] eqn:Es.
        -- intros [= ->]. apply find_some in Es. destruct Es as [_ Es].
           discriminate Es.
        -- apply no_candidate_sorted in Es. rewrite Es. cbn [andb].
           destruct (List.find _ (List.map clean_text _)) as [c|] eqn:Ec.
           ++ intros [= ->]. apply find_some in Ec. destruct Ec as [_ Ec].
              discriminate Ec.
           ++ intros _. apply no_long_line. exact Ec.
    + cbn [negb andb]. destruct (doc_pages doc) as [|p0 ps]; [discriminate|].
      destruct (List.find _ (List.map _ (sort_by _ _))) as [s|] eqn:Es.
      * intros [= ->]. apply find_some in Es. destruct Es as [_ Es].
        discriminate Es.
      * apply no_candidate_sorted in Es. rewrite Es. cbn [andb].
        destruct (List.find _ (List.map clean_text _)) as [c|] eqn:Ec.
        -- intros [= ->]. apply find_some in Ec. destruct Ec as [_ Ec].
           discriminate Ec.
        -- intros _. apply no_long_line. exact Ec.
  - split; [intros E; congruence|]. intros Hn. exfalso. apply Hne.
    revert Ht. unfold get_best_title.
    unfold no_title_source, has_usable_title in Hn.
    apply andb_true_iff in Hn. destruct Hn as [Hm Hp].
    apply negb_true_iff in Hm.
    assert (Hmeta : match meta_title doc with
                    | Some t0 => if truthy t0
                                 then if (5 <? length (clean_text t0))%nat
                                      then Some (clean_text t0) else None
                                 else None
                    | None => None
                    end = None).
    { destruct (meta_title doc) as [t0|]; [| reflexivity].
      destruct (truthy t0); [| reflexivity]. cbn [andb] in Hm. rewrite Hm.
      reflexivity. }
    rewrite Hmeta. destruct (doc_pages doc) as [|p0 ps]; [discriminate|].
    apply andb_true_iff in Hp. destruct Hp as [Hc Hl].
    apply no_candidate_sorted in Hc. apply no_long_line in Hl.
    rewrite Hc, Hl. intros [= <-]. reflexivity.
Qed.

(** C10, amended: the title [process_pdf] returns is a text without white
    space at either end followed by exactly one space, so the returned
    string is never empty.  While [get_best_title] has a source -- a
    usable metadata title, a span text of the first page of more than 4
    and fewer than 80 characters, a line of the first page that cleans to
    more than 5 characters -- the text is what it returns.  Otherwise the
    text is that of the first level-1 heading of the outline, or of its
    first heading when it has none of level 1.  So the text is empty, and
    the title a single space, exactly when there is no such source and
    the outline is empty. *)
Theorem process_pdf_title_shape
    (fitz_open : list N -> option document) (pdf_path : list N) (r : pdf_result) :
  process_pdf fitz_open pdf_path = Ok r ->
  r_title r <> []
  /\ exists doc core,
       fitz_open pdf_path = Some doc
       /\ r_title r = core ++ [SP]
       /\ trimmed core
       /\ (no_title_source doc = false -> get_best_title doc = Ok core)
       /\ (no_title_source doc = true ->
           core = match r_outline r with
                  | [] => []
                  | h0 :: _ =>
                      match List.find (fun h => (h_level h =? 1)%nat) (r_outline r) with
                      | Some h => h_text h
                      | None => h_text h0
                      end
                  end)
       /\ (core = [] <-> no_title_source doc = true /\ r_outline r = []).
Proof.
  unfold process_pdf. destruct (fitz_open pdf_path) as [doc|]; [| discriminate].
  unfold process_pdf_doc.
  destruct (get_best_title doc) as [title|e] eqn:Et; [| discriminate].
  set (outline := dedup ∅ (concat (imap page_headings (doc_pages doc)))).
  intros [= <-]. cbn [r_title r_outline].
  match goal with |- (strip ?t ++ _ <> []) /\ _ => set (chosen := t) end.
  split; [destruct (strip chosen); discriminate|].
  exists doc, (strip chosen). split; [reflexivity|]. split; [reflexivity|].
  split; [apply strip_trimmed|].
  pose proof (get_best_title_empty doc title Et) as Hsrc.
  destruct (get_best_title_solid doc title Et) as [-> | Hsolid].
  - assert (Hn : no_title_source doc = true) by (apply Hsrc; reflexivity).
    rewrite Hn. split; [discriminate|].
    unfold chosen. cbn [truthy negb andb].
    destruct outline as [|h0 rest] eqn:Eo.
    + split; [intros _; reflexivity|]. split; [intros _; split; reflexivity|].
      intros _. reflexivity.
    + assert (Hall : forall h, In h (h0 :: rest) -> solid (h_text h)).
      { intros h Hh. apply (outline_solid doc). fold outline. rewrite Eo. exact Hh. }
      assert (Hpick : (match List.find (fun h => (h_level h =? 1)%nat) (h0 :: rest) with
                       | Some h => if truthy (h_text h) then h_text h else h_text h0
                       | None => h_text h0
                       end)
                      = match List.find (fun h => (h_level h =? 1)%nat) (h0 :: rest) with
                        | Some h => h_text h
                        | None => h_text h0
                        end
                      /\ solid (match List.find (fun h => (h_level h =? 1)%nat) (h0 :: rest) with
                                | Some h => h_text h
                                | None => h_text h0
                                end)).
      { destruct (List.find _ (h0 :: rest)) as [h|] eqn:Ef.
        - apply find_some in Ef. destruct Ef as [Hin _].
          pose proof (Hall h Hin) as Hs. split; [| exact Hs].
          destruct (h_text h); [destruct Hs; congruence | reflexivity].
        - split; [reflexivity|]. apply Hall. left. reflexivity. }
      destruct Hpick as [-> [Hne Htr]]. rewrite (strip_id _ Htr).
      split; [intros _; reflexivity|]. split; [intros E; congruence|].
      intros [_ E]. discriminate E.
  - destruct Hsolid as [Hne Htr].
    assert (Hn : no_title_source doc = false).
    { destruct (no_title_source doc); [| reflexivity].
      exfalso. apply Hne. apply Hsrc. reflexivity. }
    assert (Hc : chosen = title).
    { unfold chosen. destruct title; [congruence | reflexivity]. }
    rewrite Hc, (strip_id _ Htr), Hn.
    split; [intros _; exact Et|]. split; [discriminate|].
    split; [intros E; congruence | intros [E _]; discriminate E].
Qed.

Lemma process_pdf_title_shape_witness :
  r_title Demo.guide_result <> []
  /\ exists doc core,
       Demo.open_demo (lit "pdfs/guide.pdf") = Some doc
       /\ r_title Demo.guide_result = core ++ [SP]
       /\ trimmed core
       /\ (no_title_source doc = false -> get_best_title doc = Ok core)
       /\ (no_title_source doc = true ->
           core = match r_outline Demo.guide_result with
                  | [] => []
                  | h0 :: _ =>
                      match List.find (fun h => (h_level h =? 1)%nat)
                              (r_outline Demo.guide_result) with
                      | Some h => h_text h
                      | None => h_text h0
                      end
                  end)
       /\ (core = [] <-> no_title_source doc = true /\ r_outline Demo.guide_result = []).
Proof.
  apply (process_pdf_title_shape Demo.open_demo (lit "pdfs/guide.pdf")
           Demo.guide_result).
  vm_compute. reflexivity.
Defined.

(** The text before the final space can be empty although the document
    is not: one page whose only line is short. *)
Example title_of_short_document :
  process_pdf
    (fun _ => Some {| meta_title := None;
                      doc_pages :=
                        [ {| page_blocks :=
                               [ {| block_lines := [ Demo.text_line "Hi" 10 72 ] |} ];
                             page_text := lit "Hi" ++ [LF];
                             page_markdown := Some (lit "Hi" ++ [LF]) |} ] |})
    (lit "short.pdf")
  = Ok {| r_title := [SP]; r_outline := []; r_filename := lit "short.pdf" |}.
Proof. vm_compute. reflexivity. Qed.

(** C10 as stated fails: the document below holds the line [Hi], yet the
    title [process_pdf] returns for it is a single space, with no text. *)
Lemma blank_title_of_document_with_text :
  ~ titled_unless_empty (fun _ => Some Demo.short_pdf) (lit "short.pdf").
Proof.
  intros H.
  apply (H Demo.short_pdf
           {| r_title := [SP]; r_outline := []; r_filename := lit "short.pdf" |}).
  - reflexivity.
  - vm_compute. reflexivity.
  - vm_compute. reflexivity.
  - vm_compute. reflexivity.
Qed.

End Title.

(** ** The run as a whole *)

Section Run.
Import Main.

Lemma slice_to_subset {A} (n : Z) (l : list A) (x : A) :
  In x (slice_to n l) -> In x l.
Proof.
  unfold slice_to. destruct (0 <=? n)%Z; intros H;
    apply list_elem_of_In in H; apply list_elem_of_In;
    exact (subseteq_take _ _ _ H).
Qed.

(** What the assembler emits comes from a result that passed the filter. *)
Lemma assemble_extracted (n : Z) (top : list (Q * section)) (e : extracted) :
  In e (fst (assemble n top)) ->
  exists i x, In x top /\ has_body x = true /\ e = extracted_of i x.
Proof.
  unfold assemble. cbn [fst]. intros H. apply slice_to_subset in H.
  apply list_elem_of_In, elem_of_lookup_imap in H. destruct H as [i [x [-> Hx]]].
  apply list_elem_of_lookup_2, list_elem_of_In, List.filter_In in Hx.
  exists i, x. tauto.
Qed.

Lemma assemble_refined (n : Z) (top : list (Q * section)) (r : refined) :
  In r (snd (assemble n top)) ->
  exists x, In x top /\ has_body x = true /\ r = refined_of x.
Proof.
  unfold assemble. cbn [snd]. intros H. apply slice_to_subset in H.
  apply in_map_iff in H. destruct H as [x [<- Hx]].
  apply List.filter_In in Hx. exists x. tauto.
Qed.

Lemma index_In {A} (l : list A) (i : Z) (x : A) : index l i = Some x -> In x l.
Proof.
  unfold index. destruct (0 <=? i)%Z.
  - intros H. apply list_elem_of_In. exact (list_elem_of_lookup_2 _ _ _ H).
  - destruct (0 <=? _)%Z; [| discriminate].
    intros H. apply list_elem_of_In. exact (list_elem_of_lookup_2 _ _ _ H).
Qed.

Lemma hits_sections_In (metadata : list section) (hits : list (Q * Z)) :
  forall results, hits_sections metadata hits = Ok results ->
    forall x, In x results -> In (snd x) metadata.
Proof.
  induction hits as [|[score i] hits IH]; intros results H x Hx; simpl in H.
  - injection H as <-. destruct Hx.
  - destruct (index metadata i) as [s|] eqn:Es; [| discriminate].
    destruct (hits_sections metadata hits) as [rest|e]; [| discriminate].
    simpl in H. injection H as <-. destruct Hx as [<- | Hx].
    + exact (index_In _ _ _ Es).
    + exact (IH rest eq_refl x Hx).
Qed.

Lemma query_results_In encode search idx (metadata : list section) q k results :
  query_faiss_index encode search idx metadata q k = Ok results ->
  forall x, In x results -> In (snd x) metadata.
Proof.
  unfold query_faiss_index.
  destruct (hits_sections metadata _) as [found|e] eqn:Hf; [| discriminate].
  simpl. intros [= <-] x Hx.
  apply (Permutation_in _ (sort_by_perm _ _)) in Hx.
  exact (hits_sections_In _ _ _ Hf x Hx).
Qed.

Lemma build_metadata_subset encode (sections : list section) (s : section) :
  In s (snd (build_faiss_index encode sections)) -> In s sections.
Proof.
  unfold build_faiss_index. rewrite index_loop. cbn [app].
  destruct (List.map _ _); cbn [snd]; [intros [] |].
  intros H. apply List.filter_In in H. tauto.
Qed.

(** The sections a finished run ranked come from its documents. *)
Lemma main_written (w : world) (a : args) (out : output) :
  run_written (main w a) = Some out ->
  exists data persona job names st top,
    read_json w (input_json a) = Some data
    /\ load_input_config data = Ok (persona, job, names)
    /\ main_loop w (pdf_folder a) names initial_state = Completed st
    /\ (forall x, In x top -> In (snd x) (all_sections st))
    /\ extracted_sections out = fst (assemble (num_results a) top)
    /\ subsection_analysis out = snd (assemble (num_results a) top).
Proof.
  intros H. unfold main in H.
  destruct (read_json w (input_json a)) as [data|] eqn:Ed; [| discriminate H].
  destruct (load_input_config data) as [[[persona job] names]|e] eqn:El;
    [| discriminate H].
  destruct (main_loop w (pdf_folder a) names initial_state) as [st|ev s] eqn:Eloop;
    [| discriminate H].
  destruct (all_sections st) as [|s0 ss] eqn:Es; [discriminate H|].
  rewrite <- Es in H.
  destruct (build_faiss_index (encode w) (all_sections st))
    as [[idx|] metadata] eqn:Eb; [| discriminate H].
  destruct (query_faiss_index (encode w) (search w) idx metadata _ 25)
    as [top|e] eqn:Eq; [| discriminate H].
  destruct (assemble (num_results a) top) as [es sa] eqn:Ea.
  destruct (can_write w (output_json a)); [| discriminate H].
  cbn [run_written] in H. injection H as <-.
  exists data, persona, job, names, st, top.
  cbn [extracted_sections subsection_analysis]. rewrite Ea.
  split; [reflexivity|]. split; [exact El|]. split; [exact Eloop|].
  split; [| split; reflexivity].
  intros x Hx. apply (build_metadata_subset (encode w)). rewrite Eb. cbn [snd].
  exact (query_results_In _ _ _ _ _ _ _ Eq x Hx).
Qed.

(** C6: every entry of [extracted_sections] and of [subsection_analysis]
    in the output of a run is made from a section of the documents of
    that run whose reflowed content is longer than 10 characters. *)
Theorem output_sections_have_body (w : world) (a : args) (out : output) :
  run_written (main w a) = Some out ->
  exists data persona job names st,
    read_json w (input_json a) = Some data
    /\ load_input_config data = Ok (persona, job, names)
    /\ main_loop w (pdf_folder a) names initial_state = Completed st
    /\ (forall e, In e (extracted_sections out) ->
          exists s, In s (all_sections st)
            /\ (10 < length (combine_lines (content s)))%nat
            /\ e_document e = document s
            /\ e_section_title e = title s
            /\ e_page_number e = (page s + 1)%nat)
    /\ (forall r, In r (subsection_analysis out) ->
          exists s, In s (all_sections st)
            /\ (10 < length (combine_lines (content s)))%nat
            /\ a_document r = document s
            /\ a_refined_text r
               = title s ++ lit " - " ++ combine_lines (content s)
            /\ a_page_number r = (page s + 1)%nat).
Proof.
  intros H.
  destruct (main_written w a out H)
    as [data [persona [job [names [st [top [Hd [Hl [Hloop [Htop [He Hr]]]]]]]]]]].
  exists data, persona, job, names, st.
  split; [exact Hd|]. split; [exact Hl|]. split; [exact Hloop|]. split.
  - intros e Hin. rewrite He in Hin.
    destruct (assemble_extracted _ _ _ Hin) as [i [x [Hx [Hb ->]]]].
    exists (snd x). split; [exact (Htop x Hx)|].
    split; [apply Nat.ltb_lt; exact Hb|]. repeat split.
  - intros r Hin. rewrite Hr in Hin.
    destruct (assemble_refined _ _ _ Hin) as [x [Hx [Hb ->]]].
    exists (snd x). split; [exact (Htop x Hx)|].
    split; [apply Nat.ltb_lt; exact Hb|]. repeat split.
Qed.

Lemma output_sections_have_body_witness :
  exists data persona job names st,
    read_json Demo.world (input_json Demo.arguments) = Some data
    /\ load_input_config data = Ok (persona, job, names)
    /\ main_loop Demo.world (pdf_folder Demo.arguments) names initial_state
       = Completed st
    /\ (forall e, In e (extracted_sections Demo.written) ->
          exists s, In s (all_sections st)
            /\ (10 < length (combine_lines (content s)))%nat
            /\ e_document e = document s
            /\ e_section_title e = title s
            /\ e_page_number e = (page s + 1)%nat)
    /\ (forall r, In r (subsection_analysis Demo.written) ->
          exists s, In s (all_sections st)
            /\ (10 < length (combine_lines (content s)))%nat
            /\ a_document r = document s
            /\ a_refined_text r
               = title s ++ lit " - " ++ combine_lines (content s)
            /\ a_page_number r = (page s + 1)%nat).
Proof.
  apply (output_sections_have_body Demo.world Demo.arguments Demo.written).
  vm_compute. reflexivity.
Defined.

(** *** Documents that stop the run *)

Lemma main_loop_passes (w : world) (folder g : list N) :
  passes w folder g ->
  forall rest st, exists st',
    main_loop w folder (JStr g :: rest) st = main_loop w folder rest st'.
Proof.
  intros Hp rest st. cbn [main_loop].
  destruct (path_exists w (path_join folder g)) eqn:Ex; cbn [negb];
    [| eexists; reflexivity].
  destruct Hp as [Hp | [Hne [r Hr]]]; [congruence|].
  unfold ProcessPdfs.main_process_pdf. rewrite Hr.
  destruct (path_join folder g) as [|c p] eqn:Ep; [congruence|].
  cbn [truthy negb].
  destruct (extract_sections_from_pdf _ _ _); eexists; reflexivity.
Qed.

Lemma main_loop_aborts (w : world) (folder f : list N) (after : list (list N))
    (e : exn) :
  path_exists w (path_join folder f) = true ->
  path_join folder f <> [] ->
  ProcessPdfs.process_pdf (fitz_open w) (path_join folder f) = Raise e ->
  forall before st, Forall (passes w folder) before ->
    exists events,
      main_loop w folder (List.map JStr (before ++ f :: after)) st
      = Stopped (events ++ [StderrError (path_join folder f)]) Finished.
Proof.
  intros Hx Hne Hr. induction before as [|g before IH]; intros st Hb.
  - cbn [app List.map main_loop]. rewrite Hx. cbn [negb].
    unfold ProcessPdfs.main_process_pdf. rewrite Hr.
    destruct (path_join folder f) as [|c p] eqn:Ep; [congruence|].
    cbn [truthy negb]. exists (log st). reflexivity.
  - inversion Hb as [|? ? Hg Hb']; subst.
    cbn [app List.map].
    destruct (main_loop_passes w folder g Hg
                (List.map JStr (before ++ f :: after)) st) as [st' ->].
    apply IH. exact Hb'.
Qed.

(** C2 as stated fails: the first document of the run below has text but
    no heading, and the run goes on to the second document and writes its
    output. *)
Lemma empty_outline_does_not_abort :
  ~ aborts_on_empty_outline Demo.world Demo.arguments.
Proof.
  intros H.
  destruct (H Demo.config (JStr (lit "Analyst")) (JStr (lit "Summarise"))
              [JStr (lit "notes.pdf"); JStr (lit "guide.pdf")]
              (lit "notes.pdf")
              {| ProcessPdfs.r_title := lit "hello world ";
                 ProcessPdfs.r_outline := [];
                 ProcessPdfs.r_filename := lit "notes.pdf" |}) as [_ Hw];
    try (vm_compute; reflexivity).
  - left. reflexivity.
  - vm_compute in Hw. discriminate Hw.
Qed.

End Run.

(** ** The concrete run, continued *)

Section Concrete.
Import Main.

Lemma segmenter_last_page_wins_witness :
  heading_page_map [ (lit "Overview", 0%nat); (lit "Overview", 1%nat) ]
    !! strip (lit "Overview") = Some 1%nat
  /\ seg_page {| seg_title := lit "Overview";
                 seg_content :=
                   lit "This guide explains the retrieval pipeline in detail."
                   ++ [LF; LF];
                 seg_page := 1 |} = 1%nat.
Proof.
  apply (segmenter_last_page_wins Demo.open_demo (lit "pdfs/guide.pdf")
           {[ lit "guide.pdf" := [ (lit "Overview", 0%nat); (lit "Overview", 1%nat) ] ]}
           [ (lit "Overview", 0%nat) ] [] (lit "Overview") 1%nat
           Demo.guide_segments).
  - vm_compute. reflexivity.
  - intros h [].
  - vm_compute. reflexivity.
  - left. reflexivity.
  - vm_compute. reflexivity.
Defined.

Lemma query_faiss_index_sorted_descending_witness :
  exists results,
    query_faiss_index (encode Demo.world) Demo.flat_ip_search
      [[1%Q]; [1%Q]] Demo.guide_sections (lit "Analyst Summarise") 25
    = Ok results
    /\ (forall i x y, results !! i = Some x -> results !! S i = Some y ->
          (fst y <= fst x)%Q)
    /\ exists found,
         hits_sections Demo.guide_sections
           (Demo.flat_ip_search [[1%Q]; [1%Q]]
              (encode Demo.world (lit "Analyst Summarise")) 25) = Ok found
         /\ List.map fst found
            = List.map fst (Demo.flat_ip_search [[1%Q]; [1%Q]]
                              (encode Demo.world (lit "Analyst Summarise")) 25)
         /\ Permutation results found
         /\ forall q, List.filter (has_score q) results
                      = List.filter (has_score q) found.
Proof.
  destruct (query_faiss_index_sorted_descending
              (encode Demo.world) Demo.flat_ip_search [[1%Q]; [1%Q]]
              Demo.guide_sections (lit "Analyst Summarise") 25) as [Hret Hsorted].
  destruct Hret as [results Hr].
  - assert (Hall : forallb (fun h => (-2 <=? snd h)%Z && (snd h <? 2)%Z)
                     (Demo.flat_ip_search [[1%Q]; [1%Q]]
                        (encode Demo.world (lit "Analyst Summarise")) 25) = true)
      by (vm_compute; reflexivity).
    intros h Hh. rewrite forallb_forall in Hall. specialize (Hall h Hh).
    apply andb_true_iff in Hall. destruct Hall as [H1 H2].
    apply Z.leb_le in H1. apply Z.ltb_lt in H2.
    change (Z.of_nat (length Demo.guide_sections)) with 2%Z. lia.
  - exists results. split; [exact Hr|]. exact (Hsorted results Hr).
Defined.

(** C8 as stated fails: the two sections below score the same, the
    search returns the one added second first, and the stable sort keeps
    it first. *)
Lemma equal_scores_not_in_insertion_order :
  exists results,
    query_faiss_index (encode Demo.world) Demo.flat_ip_search
      [[1%Q]; [1%Q]] Demo.guide_sections (lit "Analyst Summarise") 25
    = Ok results
    /\ ~ ties_in_insertion_order Demo.guide_sections results.
Proof.
  eexists. split; [vm_compute; reflexivity|].
  intros H.
  destruct (H 0%nat 1%nat _ _ ltac:(lia) eq_refl eq_refl ltac:(reflexivity))
    as [m [n [Hmn [Hm Hn]]]].
  cbn [snd] in Hm, Hn.
  destruct m as [|[|m]]; [discriminate Hm | | discriminate Hm].
  destruct n as [|[|n]]; [lia | discriminate Hn | discriminate Hn].
Qed.

End Concrete.

(** * Further properties of the code *)

(** ** [process_pdfs.clean_text] *)

Section OutlineText.
Import ProcessPdfs.

Lemma md_marks_removed (s : list N) :
  forall bol k,
    Forall (fun c => (c =? 42) || (c =? 95) || (c =? 96) = false)
      (re_sub_go m_md_mark [] bol k s).
Proof.
  induction s as [|c s IH]; intros bol k; simpl; [constructor|].
  destruct k as [|k]; [| apply IH].
  destruct ((c =? 42) || (c =? 95) || (c =? 96)) eqn:E; simpl; [apply IH|].
  constructor; [exact E | apply IH].
Qed.

Lemma md_marks_id (s : list N) :
  Forall (fun c => (c =? 42) || (c =? 95) || (c =? 96) = false) s ->
  forall bol, re_sub_go m_md_mark [] bol 0 s = s.
Proof.
  induction 1 as [|c s Hc _ IH]; intros bol; simpl; [reflexivity|].
  rewrite Hc. f_equal. apply IH.
Qed.

Lemma replace_char_id (a b : N) (s : list N) :
  Forall (fun c => (c =? a) = false) s -> replace_char a b s = s.
Proof.
  induction 1 as [|c s Hc _ IH]; simpl; [reflexivity|].
  rewrite Hc. f_equal. exact IH.
Qed.

Lemma plain_char_split (c : N) :
  plain_char c = true <->
  ((c =? 42) || (c =? 95) || (c =? 96) = false)
  /\ (c =? 8211) = false /\ (c =? 8220) = false /\ (c =? 8221) = false.
Proof.
  unfold plain_char.
  destruct (c =? 42), (c =? 95), (c =? 96), (c =? 8211), (c =? 8220), (c =? 8221);
    simpl; intuition congruence.
Qed.

(** After the three replacements nothing but plain characters is left. *)
Lemma replacements_plain (s : list N) :
  Forall (fun c => (c =? 42) || (c =? 95) || (c =? 96) = false) s ->
  Forall (fun c => plain_char c = true)
    (replace_char 8221 34 (replace_char 8220 34 (replace_char 8211 45 s))).
Proof.
  induction 1 as [|c s Hc _ IH]; simpl; constructor; [| exact IH].
  apply plain_char_split.
  destruct (c =? 8211) eqn:E1; [vm_compute; auto|].
  destruct (c =? 8220) eqn:E2; [vm_compute; auto|].
  destruct (c =? 8221) eqn:E3; [vm_compute; auto|].
  auto.
Qed.

Lemma outline_clean_text_normal (x : list N) :
  Forall (fun c => plain_char c = true) (clean_text x)
  /\ spaced (clean_text x) /\ trimmed (clean_text x).
Proof.
  unfold clean_text. destruct (truthy x).
  2:{ split; [constructor | split; [exact I | split; exact I]]. }
  set (t := re_sub m_spaces [SP] _).
  assert (Hp : Forall (fun c => plain_char c = true) t).
  { unfold t, re_sub. apply re_sub_go_Forall; [repeat constructor|].
    apply replacements_plain, md_marks_removed. }
  assert (Hs : spaced t) by apply spaces_collapsed.
  destruct (strip_infix t) as [p [q Hpq]].
  split; [| split].
  - rewrite Hpq in Hp. apply Forall_app in Hp. destruct Hp as [_ Hp].
    apply Forall_app in Hp. tauto.
  - rewrite Hpq in Hs. apply spaced_app_r in Hs. apply spaced_app_l in Hs. exact Hs.
  - apply strip_trimmed.
Qed.

(** X1: [process_pdfs.clean_text] returns a text in normal form -- no
    markdown mark, en dash or curly quote, single spaces as its only white
    space, none at either end -- and leaves such a text unchanged, so it
    is idempotent. *)
Theorem outline_clean_text_idempotent (x : list N) :
  (Forall (fun c => plain_char c = true) (clean_text x)
   /\ spaced (clean_text x) /\ trimmed (clean_text x))
  /\ clean_text (clean_text x) = clean_text x.
Proof.
  pose proof (outline_clean_text_normal x) as Hn. split; [exact Hn|].
  destruct Hn as [Hp [Hs Ht]]. set (y := clean_text x) in *.
  unfold clean_text at 1. destruct (truthy y) eqn:Ey.
  2:{ destruct y; [reflexivity | discriminate]. }
  assert (H4 : Forall (fun c => (c =? 42) || (c =? 95) || (c =? 96) = false) y
               /\ Forall (fun c => (c =? 8211) = false) y
               /\ Forall (fun c => (c =? 8220) = false) y
               /\ Forall (fun c => (c =? 8221) = false) y).
  { repeat split; eapply Forall_impl; try exact Hp;
      intros c Hc; apply plain_char_split in Hc; tauto. }
  destruct H4 as [H1 [H2 [H3 H4]]].
  unfold re_sub. rewrite (md_marks_id y H1).
  rewrite (replace_char_id 8211 45 y H2), (replace_char_id 8220 34 y H3),
    (replace_char_id 8221 34 y H4), (spaced_id y Hs).
  apply strip_id, Ht.
Qed.

End OutlineText.

(** ** Heading candidates *)

Section Candidates.
Import ProcessPdfs.

Lemma markdown_heading_inv (line : list N) (n : nat) (h : heading) :
  In h (markdown_heading line n) ->
  (1 <= h_level h <= 6)%nat
  /\ h_page h = n
  /\ (4 <= length (h_text h))%nat
  /\ contains (lit "---") (h_text h) = false
  /\ trimmed (h_text h).
Proof.
  unfold markdown_heading.
  destruct ((0 <? run (N.eqb 35) (strip line))%nat && _) eqn:El; [| intros []].
  apply andb_true_iff in El. destruct El as [El _]. apply Nat.ltb_lt in El.
  match goal with |- context [ (length (clean_text ?x) <? 4)%nat ] => set (y := x) end.
  destruct (length (clean_text y) <? 4)%nat eqn:E4; [intros []|].
  cbn [orb]. destruct (contains (lit "---") (clean_text y)) eqn:Ec; [intros []|].
  intros [<- | []]. cbn [h_level h_page h_text].
  apply Nat.ltb_ge in E4.
  split; [lia|]. split; [reflexivity|]. split; [exact E4|].
  split; [exact Ec | apply clean_text_trimmed].
Qed.

Lemma span_heading_inv (n : nat) (sp : span) (h : heading) :
  In h (span_heading n sp) ->
  h_level h = 2%nat /\ h_page h = n
  /\ h_text h <> [] /\ (word_count (h_text h) < 15)%nat
  /\ h_text h = clean_text (span_text sp) /\ (12 < span_size sp)%Q.
Proof.
  unfold span_heading.
  destruct (truthy (clean_text (span_text sp))) eqn:Et; [| intros []].
  destruct (word_count (clean_text (span_text sp)) <? 15)%nat eqn:Ew; [| intros []].
  destruct (Qgt_bool (span_size sp) 12) eqn:Es; [| intros []].
  intros [<- | []]. cbn [h_level h_page h_text].
  split; [reflexivity|]. split; [reflexivity|]. split.
  { intros E. rewrite E in Et. discriminate. }
  split; [apply Nat.ltb_lt; exact Ew|]. split; [reflexivity|].
  unfold Qgt_bool in Es. apply negb_true_iff in Es.
  apply Qnot_le_lt. intros Hle. apply Qle_bool_iff in Hle. congruence.
Qed.

(** X2: every heading [extract_headings_from_markdown] returns has a
    level from 1 to 6, the page number it was given, and a cleaned text
    of at least 4 characters without a run of three hyphens. *)
Theorem markdown_headings_wellformed (md : list N) (n : nat) (h : heading) :
  In h (extract_headings_from_markdown md n) ->
  (1 <= h_level h <= 6)%nat
  /\ h_page h = n
  /\ (4 <= length (h_text h))%nat
  /\ contains (lit "---") (h_text h) = false
  /\ trimmed (h_text h).
Proof.
  unfold extract_headings_from_markdown. intros H.
  apply in_flat_map in H. destruct H as [line [_ H]].
  exact (markdown_heading_inv line n h H).
Qed.

Lemma markdown_headings_wellformed_witness :
  (1 <= 2 <= 6)%nat /\ 0%nat = 0%nat /\ (4 <= length (lit "Overview"))%nat
  /\ contains (lit "---") (lit "Overview") = false /\ trimmed (lit "Overview").
Proof.
  apply (markdown_headings_wellformed
           (lit "## Overview" ++ [LF] ++ lit "Body text." ++ [LF]) 0
           {| h_level := 2; h_text := lit "Overview"; h_page := 0 |}).
  vm_compute. left. reflexivity.
Defined.

(** X3: every heading [extract_headings_from_font_sizes] returns is a
    level-2 heading on the page number it was given, made from a span of
    that page of size above 12 whose cleaned text is not empty and has
    fewer than 15 words. *)
Theorem font_headings_wellformed (p : page) (n : nat) (h : heading) :
  In h (extract_headings_from_font_sizes p n) ->
  h_level h = 2%nat /\ h_page h = n
  /\ h_text h <> [] /\ (word_count (h_text h) < 15)%nat
  /\ exists b ln sp,
       In b (page_blocks p) /\ In ln (block_lines b) /\ In sp (line_spans ln)
       /\ h_text h = clean_text (span_text sp) /\ (12 < span_size sp)%Q.
Proof.
  unfold extract_headings_from_font_sizes. intros H.
  apply in_flat_map in H. destruct H as [b [Hb H]].
  apply in_flat_map in H. destruct H as [ln [Hln H]].
  apply in_flat_map in H. destruct H as [sp [Hsp H]].
  destruct (span_heading_inv n sp h H) as [H1 [H2 [H3 [H4 [H5 H6]]]]].
  repeat (split; [assumption|]). exists b, ln, sp. repeat (split; [assumption|]).
  exact H6.
Qed.

Lemma font_headings_wellformed_witness :
  2%nat = 2%nat /\ 0%nat = 0%nat
  /\ lit "Overview" <> [] /\ (word_count (lit "Overview") < 15)%nat
  /\ exists b ln sp,
       In b (page_blocks (Demo.guide_page "Ranking uses cosine similarity."))
       /\ In ln (block_lines b) /\ In sp (line_spans ln)
       /\ lit "Overview" = clean_text (span_text sp) /\ (12 < span_size sp)%Q.
Proof.
  apply (font_headings_wellformed
           (Demo.guide_page "Ranking uses cosine similarity.") 0
           {| h_level := 2; h_text := lit "Overview"; h_page := 0 |}).
  vm_compute. left. reflexivity.
Defined.

End Candidates.

(** ** Deduplication of headings *)

Section Dedup.
Import ProcessPdfs.

Lemma dedup_fresh (hs : list heading) :
  forall seen h, In h (dedup seen hs) -> heading_key h ∉ seen.
Proof.
  induction hs as [|x hs IH]; intros seen h H; [destruct H|].
  cbn [dedup] in H. fold (heading_key x) in H.
  destruct (bool_decide (heading_key x ∈ seen)) eqn:E.
  - exact (IH _ _ H).
  - apply bool_decide_eq_false in E. destruct H as [<- | H]; [exact E|].
    apply IH in H. intros Hc. apply H, elem_of_union. right. exact Hc.
Qed.

Lemma dedup_keys_NoDup (hs : list heading) :
  forall seen, NoDup (List.map heading_key (dedup seen hs)).
Proof.
  induction hs as [|x hs IH]; intros seen; [constructor|].
  cbn [dedup]. fold (heading_key x).
  destruct (bool_decide (heading_key x ∈ seen)); [apply IH|].
  cbn [List.map]. constructor; [| apply IH].
  intros Hin. apply list_elem_of_In, in_map_iff in Hin. destruct Hin as [h [Hk Hh]].
  apply dedup_fresh in Hh. rewrite Hk in Hh. set_solver.
Qed.

Lemma dedup_complete (hs : list heading) :
  forall seen h, In h hs -> heading_key h ∉ seen ->
    In (heading_key h) (List.map heading_key (dedup seen hs)).
Proof.
  induction hs as [|x hs IH]; intros seen h Hin Hf; [destruct Hin|].
  cbn [dedup]. fold (heading_key x).
  destruct (bool_decide (heading_key x ∈ seen)) eqn:E.
  - apply bool_decide_eq_true in E. destruct Hin as [-> | Hin]; [contradiction|].
    exact (IH _ _ Hin Hf).
  - cbn [List.map]. destruct Hin as [-> | Hin]; [left; reflexivity|].
    destruct (decide (heading_key x = heading_key h)) as [Ek|Ek]; [left; exact Ek|].
    right. apply IH; [exact Hin|]. intros Hc. apply elem_of_union in Hc.
    destruct Hc as [Hc | Hc]; [| contradiction].
    apply elem_of_singleton in Hc. congruence.
Qed.

Lemma dedup_sublist (hs : list heading) :
  forall seen, sublist (dedup seen hs) hs.
Proof.
  induction hs as [|x hs IH]; intros seen; [constructor|].
  cbn [dedup]. destruct (bool_decide _); [apply sublist_cons | apply sublist_skip];
    apply IH.
Qed.

Lemma dedup_first (hs : list heading) :
  forall seen h, In h (dedup seen hs) ->
    exists pre post, hs = pre ++ h :: post
                     /\ ~ In (heading_key h) (List.map heading_key pre).
Proof.
  induction hs as [|x hs IH]; intros seen h H; [destruct H|].
  cbn [dedup] in H. fold (heading_key x) in H.
  destruct (bool_decide (heading_key x ∈ seen)) eqn:E.
  - apply bool_decide_eq_true in E. pose proof (dedup_fresh _ _ _ H) as Hf.
    destruct (IH _ _ H) as [pre [post [-> Hn]]].
    exists (x :: pre), post. split; [reflexivity|].
    cbn [List.map]. intros [Ek | Hin]; [| exact (Hn Hin)].
    rewrite Ek in E. contradiction.
  - destruct H as [<- | H].
    + exists [], hs. split; [reflexivity | intros []].
    + pose proof (dedup_fresh _ _ _ H) as Hf.
      destruct (IH _ _ H) as [pre [post [-> Hn]]].
      exists (x :: pre), post. split; [reflexivity|].
      cbn [List.map]. intros [Ek | Hin]; [| exact (Hn Hin)].
      rewrite Ek in Hf. set_solver.
Qed.

Lemma dedup_id (l : list heading) :
  forall seen,
    NoDup (List.map heading_key l) ->
    (forall h, In h l -> heading_key h ∉ seen) ->
    dedup seen l = l.
Proof.
  induction l as [|x l IH]; intros seen Hnd Hf; [reflexivity|].
  cbn [dedup]. fold (heading_key x).
  rewrite bool_decide_eq_false_2 by (apply Hf; left; reflexivity).
  f_equal. cbn [List.map] in Hnd. apply NoDup_cons in Hnd. destruct Hnd as [Hx Hnd].
  apply IH; [exact Hnd|]. intros h Hh.
  assert (Hk : heading_key h <> heading_key x).
  { intros Ek. apply Hx. rewrite <- Ek. apply list_elem_of_In, in_map. exact Hh. }
  specialize (Hf h (or_intror Hh)). intros Hc. apply elem_of_union in Hc.
  destruct Hc as [Hc | Hc]; [| contradiction].
  apply elem_of_singleton in Hc. contradiction.
Qed.

(** X4: the [seen] loop of [process_pdf] keeps a sub-sequence of the
    candidates in which no [(text, page)] pair occurs twice and every pair
    of the candidates occurs; what it keeps for a pair is the first
    candidate with that pair (so its level wins); and running the loop
    again on its result changes nothing. *)
Theorem dedup_keeps_first_occurrences (hs : list heading) :
  sublist (dedup ∅ hs) hs
  /\ NoDup (List.map heading_key (dedup ∅ hs))
  /\ (forall h, In h hs ->
        In (heading_key h) (List.map heading_key (dedup ∅ hs)))
  /\ (forall h, In h (dedup ∅ hs) ->
        exists pre post, hs = pre ++ h :: post
                         /\ ~ In (heading_key h) (List.map heading_key pre))
  /\ dedup ∅ (dedup ∅ hs) = dedup ∅ hs.
Proof.
  split; [apply dedup_sublist|]. split; [apply dedup_keys_NoDup|].
  split; [intros h Hh; apply dedup_complete; [exact Hh | set_solver]|].
  split; [intros h Hh; exact (dedup_first _ _ _ Hh)|].
  apply dedup_id; [apply dedup_keys_NoDup | intros h _; set_solver].
Qed.

End Dedup.

(** ** Bold lines promoted to headings *)

Section BoldPromotion.
Import ProcessPdfs.

Lemma split_lf_go_app (l : list N) :
  no_lf l -> forall cur s, split_lf_go cur (l ++ s) = split_lf_go (rev l ++ cur) s.
Proof.
  induction 1 as [|c l Hc _ IH]; intros cur s; [reflexivity|].
  cbn [app split_lf_go]. rewrite Hc, IH. cbn [rev]. rewrite <- app_assoc. reflexivity.
Qed.

Lemma split_lf_go_no_lf (s : list N) :
  forall cur, no_lf cur -> Forall no_lf (split_lf_go cur s).
Proof.
  induction s as [|c s IH]; intros cur Hcur; cbn [split_lf_go].
  - constructor; [| constructor]. apply Forall_rev. exact Hcur.
  - destruct (c =? LF) eqn:E.
    + constructor; [apply Forall_rev; exact Hcur | apply IH; constructor].
    + apply IH. constructor; assumption.
Qed.

Lemma split_lf_go_nonempty (s : list N) : forall cur, split_lf_go cur s <> [].
Proof.
  induction s as [|c s IH]; intros cur; cbn [split_lf_go]; [discriminate|].
  destruct (c =? LF); [discriminate | apply IH].
Qed.

(** Splitting at line feeds undoes joining with line feeds. *)
Lemma split_lf_join (ls : list (list N)) :
  ls <> [] -> Forall no_lf ls -> split_lf (join [LF] ls) = ls.
Proof.
  intros Hne Hl. unfold split_lf.
  induction ls as [|l ls IH]; [congruence|].
  inversion Hl as [|? ? Hl0 Hls]; subst.
  destruct ls as [|l' ls].
  - cbn [join]. rewrite <- (app_nil_r l) at 1. rewrite split_lf_go_app by exact Hl0.
    cbn [split_lf_go]. rewrite app_nil_r, rev_involutive. reflexivity.
  - change (join [LF] (l :: l' :: ls)) with (l ++ [LF] ++ join [LF] (l' :: ls)).
    rewrite split_lf_go_app by exact Hl0. cbn [app split_lf_go].
    change (LF =? LF) with true. cbv iota.
    rewrite app_nil_r, rev_involutive. f_equal. apply IH; [discriminate | exact Hls].
Qed.

Lemma no_lf_strip (s : list N) : no_lf s -> no_lf (strip s).
Proof.
  intros H. destruct (strip_infix s) as [p [q Hpq]]. unfold no_lf in *.
  rewrite Hpq in H. apply Forall_app in H. destruct H as [_ H].
  apply Forall_app in H. tauto.
Qed.

Lemma existsb_no_lf (s : list N) : existsb (N.eqb LF) s = false -> no_lf s.
Proof.
  induction s as [|c s IH]; cbn [existsb]; intros H; [constructor|].
  apply orb_false_iff in H. destruct H as [Hc Hs].
  constructor; [rewrite N.eqb_sym; exact Hc | exact (IH Hs)].
Qed.

Lemma bold_line_no_lf (line : list N) : no_lf line -> no_lf (bold_line line).
Proof.
  intros Hl. unfold bold_line.
  destruct (_ && negb (existsb (N.eqb LF) (strip line))) eqn:E; [| exact Hl].
  apply andb_true_iff in E. destruct E as [_ E]. apply negb_true_iff in E.
  apply existsb_no_lf in E.
  assert (Hc : no_lf (strip (take (length (strip line) - 4) (drop 2 (strip line))))).
  { apply no_lf_strip. unfold no_lf. apply Forall_take, Forall_drop. exact E. }
  destruct (endswith _ _).
  - apply Forall_app. split; [repeat constructor|].
    apply no_lf_strip. unfold no_lf. apply Forall_take. exact Hc.
  - apply Forall_app. split; [repeat constructor | exact Hc].
Qed.

(** X5: [convert_bold_to_markdown_headings] works line by line: the lines
    of its result are the lines of the input, each rewritten on its own,
    so their number is unchanged; and a line whose stripped text does not
    both start and end with two asterisks is left as it is. *)
Theorem convert_bold_line_by_line (md : list N) :
  split_lf (convert_bold_to_markdown_headings md) = List.map bold_line (split_lf md)
  /\ length (split_lf (convert_bold_to_markdown_headings md)) = length (split_lf md)
  /\ forall line,
       startswith (lit "**") (strip line) && endswith (lit "**") (strip line) = false ->
       bold_line line = line.
Proof.
  assert (H : split_lf (convert_bold_to_markdown_headings md)
              = List.map bold_line (split_lf md)).
  { unfold convert_bold_to_markdown_headings. apply split_lf_join.
    - intros E. apply map_eq_nil in E. exact (split_lf_go_nonempty md [] E).
    - apply List.Forall_forall. intros l Hl. apply in_map_iff in Hl.
      destruct Hl as [x [<- Hx]]. apply bold_line_no_lf.
      pose proof (split_lf_go_no_lf md [] ltac:(constructor)) as Hn.
      rewrite List.Forall_forall in Hn. exact (Hn x Hx). }
  split; [exact H|]. split; [rewrite H; apply length_map|].
  intros line Hb. unfold bold_line.
  destruct (5 <=? length (strip line))%nat; cbn [andb]; [| reflexivity].
  destruct (startswith (lit "**") (strip line)); cbn [andb] in Hb |- *; [| reflexivity].
  rewrite Hb. reflexivity.
Qed.

Lemma run_all p (s : list N) : forallb p s = true -> run p s = length s.
Proof.
  intros H. rewrite <- (app_nil_r s) at 1. rewrite run_app_all by exact H.
  simpl. lia.
Qed.

Lemma run_head_false p (s : list N) :
  match s with [] => True | c :: _ => p c = false end -> run p s = 0%nat.
Proof. destruct s as [|c s]; [reflexivity|]. simpl. intros ->. reflexivity. Qed.

Lemma no_lf_dot_star (t : list N) : no_lf t -> dot_star t = t.
Proof.
  intros H. unfold dot_star. rewrite run_all; [apply firstn_all|].
  apply forallb_forall. intros c Hc. unfold no_lf in H.
  rewrite List.Forall_forall in H. rewrite (H c Hc). reflexivity.
Qed.

(** A text wrapped between two characters that are not white space. *)
Lemma strip_wrapped (a b : list N) (t : list N) :
  trimmed a -> a <> [] -> trimmed b -> b <> [] -> strip (a ++ t ++ b) = a ++ t ++ b.
Proof. intros Ha Na Hb Nb. apply strip_id, trimmed_app; assumption. Qed.

(** A markdown heading line: [k] hashes, a space and a text. *)
Lemma markdown_heading_hashes (k : nat) (t : list N) (n : nat) :
  (1 <= k)%nat -> t <> [] -> trimmed t -> no_lf t ->
  markdown_heading (replicate k 35 ++ [SP] ++ t) n
  = if (length (clean_text t) <? 4)%nat || contains (lit "---") (clean_text t)
    then []
    else [ {| h_level := Nat.min k 6; h_text := clean_text t; h_page := n |} ].
Proof.
  intros Hk Hne Ht Hlf. unfold markdown_heading.
  assert (Hh : trimmed (replicate k 35) /\ replicate k 35 <> []).
  { destruct k as [|k]; [lia|]. split; [| discriminate]. split; [reflexivity|].
    replace (rev (replicate (S k) 35)) with (replicate (S k) 35); [reflexivity|].
    clear. generalize (S k). intros m. induction m as [|m IH]; [reflexivity|].
    cbn [replicate rev]. rewrite <- IH. clear.
    induction m as [|m IH]; [reflexivity|]. cbn [replicate app]. rewrite <- IH.
    reflexivity. }
  destruct Hh as [Hh Hhn].
  rewrite (strip_wrapped (replicate k 35) t [SP] Hh Hhn Ht Hne).
  assert (Hrun : run (N.eqb 35) (replicate k 35 ++ [SP] ++ t) = k).
  { rewrite run_app_all.
    - rewrite length_replicate. cbn. lia.
    - apply forallb_forall. intros c Hc. apply list_elem_of_In, elem_of_replicate in Hc.
      destruct Hc as [-> _]. reflexivity. }
  rewrite Hrun.
  assert (Hdrop : drop k (replicate k 35 ++ [SP] ++ t) = SP :: t).
  { rewrite <- (length_replicate k (35 : N)) at 1. apply drop_app_length. }
  rewrite Hdrop.
  assert (Hgap : run isspace (SP :: t) = 1%nat).
  { cbn [run]. change (isspace SP) with true. cbv iota.
    rewrite run_head_false; [reflexivity|].
    destruct Ht as [Ht _]. destruct t; [exact I | exact Ht]. }
  rewrite Hgap. change (drop 1 (SP :: t)) with t.
  assert (Hpos : (0 <? k)%nat = true) by (apply Nat.ltb_lt; lia).
  rewrite Hpos. cbn [Nat.ltb Nat.leb andb].
  rewrite (no_lf_dot_star t Hlf). reflexivity.
Qed.

Lemma trimmed_snoc (t : list N) (c : N) :
  trimmed t -> t <> [] -> isspace c = false -> trimmed (t ++ [c]).
Proof.
  intros [Ht _] Hne Hc. split.
  - destruct t; [congruence | exact Ht].
  - rewrite rev_app_distr. exact Hc.
Qed.

Lemma bold_line_wrapped (content : list N) :
  content <> [] -> trimmed content -> no_lf content ->
  bold_line (lit "**" ++ content ++ lit "**")
  = if endswith (lit ":") content
    then lit "### " ++ strip (take (length content - 1) content)
    else lit "## " ++ content.
Proof.
  intros Hne Ht Hlf. unfold bold_line.
  assert (Hs : trimmed (lit "**") /\ lit "**" <> []) by (split; [split; reflexivity | discriminate]).
  destruct Hs as [Hs Hsn].
  rewrite (strip_wrapped (lit "**") (lit "**") content Hs Hsn Hs Hsn).
  assert (Hlen : length (lit "**" ++ content ++ lit "**") = (length content + 4)%nat).
  { rewrite !length_app. change (length (lit "**")) with 2%nat. lia. }
  rewrite Hlen.
  assert (H5 : (5 <=? length content + 4)%nat = true).
  { apply Nat.leb_le. destruct content; [congruence | simpl; lia]. }
  rewrite H5.
  assert (Hst : startswith (lit "**") (lit "**" ++ content ++ lit "**") = true)
    by reflexivity.
  rewrite Hst.
  assert (Hen : endswith (lit "**") (lit "**" ++ content ++ lit "**") = true).
  { unfold endswith. rewrite !rev_app_distr. reflexivity. }
  rewrite Hen.
  assert (Hex : existsb (N.eqb LF) (lit "**" ++ content ++ lit "**") = false).
  { rewrite !existsb_app. change (existsb (N.eqb LF) (lit "**")) with false.
    rewrite orb_false_r. cbn [orb].
    clear -Hlf. induction Hlf as [|c l Hc _ IH]; [reflexivity|].
    cbn [existsb]. rewrite N.eqb_sym, Hc. exact IH. }
  rewrite Hex. cbn [andb negb].
  assert (Hmid : take (length content + 4 - 4) (drop 2 (lit "**" ++ content ++ lit "**"))
                 = content).
  { change (drop 2 (lit "**" ++ content ++ lit "**")) with (content ++ lit "**").
    replace (length content + 4 - 4)%nat with (length content) by lia.
    apply take_app_length. }
  rewrite Hmid, (strip_id content Ht). reflexivity.
Qed.

(** X6: a line that is one bold run is promoted and then read as a
    heading.  When the bold text ends with a colon the line becomes a
    level-3 markdown heading without the colon, else a level-2 heading; in
    both cases [extract_headings_from_markdown] makes a heading of that
    level from it, with the cleaned text, unless that text is shorter than
    4 characters or holds three hyphens in a row. *)
Theorem bold_line_becomes_heading (t : list N) (n : nat) :
  t <> [] -> trimmed t -> no_lf t ->
  (bold_line (lit "**" ++ (t ++ lit ":") ++ lit "**") = lit "### " ++ t
   /\ markdown_heading (bold_line (lit "**" ++ (t ++ lit ":") ++ lit "**")) n
      = if (length (clean_text t) <? 4)%nat || contains (lit "---") (clean_text t)
        then []
        else [ {| h_level := 3; h_text := clean_text t; h_page := n |} ])
  /\ (endswith (lit ":") t = false ->
      bold_line (lit "**" ++ t ++ lit "**") = lit "## " ++ t
      /\ markdown_heading (bold_line (lit "**" ++ t ++ lit "**")) n
         = if (length (clean_text t) <? 4)%nat || contains (lit "---") (clean_text t)
           then []
           else [ {| h_level := 2; h_text := clean_text t; h_page := n |} ]).
Proof.
  intros Hne Ht Hlf. split.
  - assert (Hb : bold_line (lit "**" ++ (t ++ lit ":") ++ lit "**") = lit "### " ++ t).
    { rewrite bold_line_wrapped.
      - assert (He : endswith (lit ":") (t ++ lit ":") = true).
        { unfold endswith. rewrite rev_app_distr. reflexivity. }
        rewrite He, length_app. change (length (lit ":")) with 1%nat.
        replace (length t + 1 - 1)%nat with (length t) by lia.
        rewrite take_app_length, (strip_id t Ht). reflexivity.
      - destruct t; discriminate.
      - apply trimmed_snoc; [exact Ht | exact Hne | reflexivity].
      - apply Forall_app. split; [exact Hlf | repeat constructor]. }
    split; [exact Hb|]. rewrite Hb.
    exact (markdown_heading_hashes 3 t n ltac:(lia) Hne Ht Hlf).
  - intros He.
    assert (Hb : bold_line (lit "**" ++ t ++ lit "**") = lit "## " ++ t).
    { rewrite bold_line_wrapped by assumption. rewrite He. reflexivity. }
    split; [exact Hb|]. rewrite Hb.
    exact (markdown_heading_hashes 2 t n ltac:(lia) Hne Ht Hlf).
Qed.

Lemma bold_line_becomes_heading_witness :
  bold_line (lit "**" ++ (lit "Summary" ++ lit ":") ++ lit "**") = lit "### Summary"
  /\ markdown_heading (bold_line (lit "**" ++ (lit "Summary" ++ lit ":") ++ lit "**")) 0
     = [ {| h_level := 3; h_text := lit "Summary"; h_page := 0 |} ].
Proof.
  refine (proj1 (bold_line_becomes_heading (lit "Summary") 0 _ _ _)).
  - discriminate.
  - split; reflexivity.
  - repeat constructor.
Defined.

End BoldPromotion.

(** ** The outline of a document *)

Section Outline.
Import ProcessPdfs.

Lemma page_headings_inv (i : nat) (p : page) (h : heading) :
  In h (page_headings i p) -> (1 <= h_level h <= 6)%nat /\ h_page h = i.
Proof.
  unfold page_headings. rewrite in_app_iff. intros [H | H].
  - destruct (page_markdown p) as [md|]; [| destruct H].
    unfold extract_headings_from_markdown in H.
    apply in_flat_map in H. destruct H as [line [_ H]].
    destruct (markdown_heading_inv _ _ _ H) as [H1 [H2 _]]. tauto.
  - unfold extract_headings_from_font_sizes in H.
    apply in_flat_map in H. destruct H as [b [_ H]].
    apply in_flat_map in H. destruct H as [ln [_ H]].
    apply in_flat_map in H. destruct H as [sp [_ H]].
    destruct (span_heading_inv _ _ _ H) as [H1 [H2 _]]. rewrite H1. split; [lia | exact H2].
Qed.

(** X7: when [process_pdf] returns, the file name of the result is the
    base name of the path and the outline is well formed: no two headings
    share text and page, and every heading has a level from 1 to 6, a
    page index below the page count, and a non-empty text without white
    space at either end. *)
Theorem process_pdf_outline_wellformed
    (fitz_open : list N -> option document) (pdf_path : list N) (r : pdf_result) :
  process_pdf fitz_open pdf_path = Ok r ->
  exists doc,
    fitz_open pdf_path = Some doc
    /\ r_filename r = basename pdf_path
    /\ NoDup (List.map heading_key (r_outline r))
    /\ forall h, In h (r_outline r) ->
         (1 <= h_level h <= 6)%nat
         /\ (h_page h < length (doc_pages doc))%nat
         /\ h_text h <> [] /\ trimmed (h_text h).
Proof.
  unfold process_pdf. destruct (fitz_open pdf_path) as [doc|]; [| discriminate].
  unfold process_pdf_doc. destruct (get_best_title doc); [| discriminate].
  intros [= <-]. exists doc. cbn [r_filename r_outline].
  split; [reflexivity|]. split; [reflexivity|]. split; [apply dedup_keys_NoDup|].
  intros h Hh. destruct (outline_solid doc h Hh) as [Hne Ht].
  apply dedup_subset, in_concat in Hh. destruct Hh as [hs [Hhs Hh]].
  apply list_elem_of_In, elem_of_lookup_imap in Hhs. destruct Hhs as [i [p [-> Hp]]].
  destruct (page_headings_inv i p h Hh) as [Hl Hpg].
  split; [exact Hl|]. split; [| split; assumption].
  rewrite Hpg. exact (lookup_lt_Some _ _ _ Hp).
Qed.

Lemma process_pdf_outline_wellformed_witness :
  exists doc,
    Demo.open_demo (lit "pdfs/guide.pdf") = Some doc
    /\ r_filename Demo.guide_result = basename (lit "pdfs/guide.pdf")
    /\ NoDup (List.map heading_key (r_outline Demo.guide_result))
    /\ forall h, In h (r_outline Demo.guide_result) ->
         (1 <= h_level h <= 6)%nat
         /\ (h_page h < length (doc_pages doc))%nat
         /\ h_text h <> [] /\ trimmed (h_text h).
Proof.
  apply (process_pdf_outline_wellformed Demo.open_demo (lit "pdfs/guide.pdf")).
  vm_compute. reflexivity.
Defined.

Lemma get_best_title_raises (doc : document) (e : exn) :
  get_best_title doc = Raise e <->
  has_usable_title doc = false /\ doc_pages doc = [] /\ e = IndexError.
Proof.
  unfold get_best_title, has_usable_title.
  destruct (meta_title doc) as [t|].
  - destruct (truthy t); cbn [andb].
    + destruct (5 <? length (clean_text t))%nat.
      * split; [discriminate | intros [H _]; discriminate H].
      * destruct (doc_pages doc) as [|p0 ps].
        -- split; [intros [= <-]; auto | intros [_ [_ ->]]; reflexivity].
        -- destruct (List.find _ _); [split; [discriminate | intros [_ [H _]]; discriminate H]|].
           destruct (List.find _ _); split; try discriminate;
             intros [_ [H _]]; discriminate H.
    + destruct (doc_pages doc) as [|p0 ps].
      * split; [intros [= <-]; auto | intros [_ [_ ->]]; reflexivity].
      * destruct (List.find _ _); [split; [discriminate | intros [_ [H _]]; discriminate H]|].
        destruct (List.find _ _); split; try discriminate;
          intros [_ [H _]]; discriminate H.
  - destruct (doc_pages doc) as [|p0 ps].
    + split; [intros [= <-]; auto | intros [_ [_ ->]]; reflexivity].
    + destruct (List.find _ _); [split; [discriminate | intros [_ [H _]]; discriminate H]|].
      destruct (List.find _ _); split; try discriminate;
        intros [_ [H _]]; discriminate H.
Qed.

(** X8: how [main_process_pdf] ends.  It exits the program exactly
    when the path is empty.  For a non-empty path it returns nothing
    (after the message on standard error) when the file cannot be opened,
    and when the document has no page and its metadata has no title that
    cleans to more than 5 characters, since [get_best_title] then reads
    the first page of a document that has none.  So a result is returned
    only for a file that opens as a document with a page or such a title,
    and it is the result of [process_pdf]. *)
Theorem main_process_pdf_failures
    (fitz_open : list N -> option document) (pdf_path : list N) :
  (main_process_pdf fitz_open pdf_path = SysExit0 <-> pdf_path = [])
  /\ (pdf_path <> [] -> fitz_open pdf_path = None ->
      main_process_pdf fitz_open pdf_path = Returned None)
  /\ (forall doc,
        pdf_path <> [] -> fitz_open pdf_path = Some doc ->
        doc_pages doc = [] -> has_usable_title doc = false ->
        process_pdf fitz_open pdf_path = Raise IndexError
        /\ main_process_pdf fitz_open pdf_path = Returned None)
  /\ (forall r,
        main_process_pdf fitz_open pdf_path = Returned (Some r) ->
        process_pdf fitz_open pdf_path = Ok r
        /\ exists doc,
             fitz_open pdf_path = Some doc
             /\ (doc_pages doc <> [] \/ has_usable_title doc = true)).
Proof.
  unfold main_process_pdf. split; [| split; [| split]].
  - destruct pdf_path as [|c path]; cbn [truthy negb].
    + split; reflexivity.
    + split; [| discriminate]. destruct (process_pdf _ _); discriminate.
  - intros Hne Ho. destruct pdf_path as [|c path]; [congruence|].
    cbn [truthy negb]. unfold process_pdf. rewrite Ho. reflexivity.
  - intros doc Hne Ho Hp Hu. destruct pdf_path as [|c path]; [congruence|].
    cbn [truthy negb]. unfold process_pdf. rewrite Ho. unfold process_pdf_doc.
    assert (Hr : get_best_title doc = Raise IndexError)
      by (apply get_best_title_raises; auto).
    rewrite Hr. split; reflexivity.
  - intros r. destruct pdf_path as [|c path]; cbn [truthy negb]; [discriminate|].
    destruct (process_pdf fitz_open (c :: path)) as [r'|e] eqn:Er; [| discriminate].
    intros [= <-]. split; [reflexivity|].
    unfold process_pdf in Er. destruct (fitz_open (c :: path)) as [doc|];
      [| discriminate Er].
    exists doc. split; [reflexivity|].
    unfold process_pdf_doc in Er.
    destruct (get_best_title doc) as [t|e] eqn:Et; [| discriminate Er].
    destruct (doc_pages doc) as [|p0 ps] eqn:Ep; [| left; discriminate].
    right. destruct (has_usable_title doc) eqn:Eu; [reflexivity|].
    assert (Hr : get_best_title doc = Raise IndexError)
      by (apply get_best_title_raises; auto).
    congruence.
Qed.

Lemma main_process_pdf_failures_witness :
  main_process_pdf Demo.open_demo (lit "pdfs/broken.pdf") = Returned None
  /\ (process_pdf (fun _ => Some {| meta_title := Some (lit "Draft");
                                    doc_pages := [] |}) (lit "empty.pdf")
      = Raise IndexError
      /\ main_process_pdf (fun _ => Some {| meta_title := Some (lit "Draft");
                                            doc_pages := [] |}) (lit "empty.pdf")
         = Returned None).
Proof.
  split.
  - apply (proj1 (proj2 (main_process_pdf_failures Demo.open_demo
                           (lit "pdfs/broken.pdf")))).
    + discriminate.
    + vm_compute. reflexivity.
  - apply (proj1 (proj2 (proj2 (main_process_pdf_failures
                                  (fun _ => Some {| meta_title := Some (lit "Draft");
                                                    doc_pages := [] |})
                                  (lit "empty.pdf"))))
             {| meta_title := Some (lit "Draft"); doc_pages := [] |}).
    + discriminate.
    + reflexivity.
    + reflexivity.
    + vm_compute. reflexivity.
Defined.

End Outline.

(** ** Choice of the title *)

Section TitleChoice.
Import ProcessPdfs.

Lemma insert_by_strongly_sorted {A} (le : A -> A -> bool) :
  (forall x y, le x y = false -> le y x = true) ->
  (forall x y z, le x y = true -> le y z = true -> le x z = true) ->
  forall x l,
    StronglySorted (fun a b => le a b = true) l ->
    StronglySorted (fun a b => le a b = true) (insert_by le x l).
Proof.
  intros Htot Htr x l Hs. induction Hs as [|y l Hs IH Hy]; cbn [insert_by].
  - constructor; constructor.
  - destruct (le x y) eqn:E.
    + constructor; [constructor; assumption|].
      constructor; [exact E|].
      eapply Forall_impl; [exact Hy|]. intros z Hz. exact (Htr _ _ _ E Hz).
    + constructor; [exact IH|].
      apply List.Forall_forall. intros z Hz.
      apply (Permutation_in _ (insert_by_perm le x l)) in Hz.
      destruct Hz as [<- | Hz]; [apply Htot; exact E|].
      rewrite List.Forall_forall in Hy. exact (Hy z Hz).
Qed.

Lemma sort_by_strongly_sorted {A} (le : A -> A -> bool) :
  (forall x y, le x y = false -> le y x = true) ->
  (forall x y z, le x y = true -> le y z = true -> le x z = true) ->
  forall l, StronglySorted (fun a b => le a b = true) (sort_by le l).
Proof.
  intros Htot Htr l. induction l as [|x l IH]; [constructor|].
  exact (insert_by_strongly_sorted le Htot Htr x _ IH).
Qed.

Lemma strongly_sorted_after {A} (R : A -> A -> Prop) (pre post : list A) (x : A) :
  StronglySorted R (pre ++ x :: post) -> Forall (R x) post.
Proof.
  induction pre as [|a pre IH]; cbn [app]; intros H; inversion H; subst; auto.
Qed.

Lemma find_map_first {A B} (P : B -> bool) (f : A -> B) (l : list A) (t : B) :
  List.find P (List.map f l) = Some t ->
  exists pre x post,
    l = pre ++ x :: post /\ f x = t /\ P (f x) = true
    /\ forall z, In z pre -> P (f z) = false.
Proof.
  induction l as [|a l IH]; cbn [List.map List.find]; [discriminate|].
  destruct (P (f a)) eqn:E.
  - intros [= <-]. exists [], a, l. repeat split; [exact E | intros z []].
  - intros H. destruct (IH H) as [pre [x [post [-> [Hf [Hp Hpre]]]]]].
    exists (a :: pre), x, post. repeat split; try assumption.
    intros z [<- | Hz]; [exact E | exact (Hpre z Hz)].
Qed.

Lemma title_key_le_spec (x y : list N * Q * Q) :
  title_key_le x y = true <->
  (snd (fst y) < snd (fst x))%Q
  \/ ((snd (fst x) == snd (fst y))%Q /\ (snd x <= snd y)%Q).
Proof.
  destruct x as [[tx sx] px], y as [[ty sy] py]. cbn [title_key_le fst snd].
  unfold Qgt_bool. rewrite orb_true_iff, andb_true_iff, negb_true_iff.
  rewrite Qeq_bool_iff, Qle_bool_iff. split.
  - intros [H | [H1 H2]].
    + left. apply Qnot_le_lt. intros Hle.
      assert (Hb : Qle_bool (- sy) (- sx) = true) by (apply Qle_bool_iff; lra).
      congruence.
    + right. split; [lra | exact H2].
  - intros [H | [H1 H2]].
    + left. destruct (Qle_bool (- sy) (- sx)) eqn:E; [| reflexivity].
      apply Qle_bool_iff in E. lra.
    + right. split; [lra | exact H2].
Qed.

Lemma title_key_le_total (x y : list N * Q * Q) :
  title_key_le x y = false -> title_key_le y x = true.
Proof.
  intros H. apply title_key_le_spec.
  assert (Hn : ~ ((snd (fst y) < snd (fst x))%Q
                  \/ ((snd (fst x) == snd (fst y))%Q /\ (snd x <= snd y)%Q))).
  { intros Hc. apply title_key_le_spec in Hc. congruence. }
  destruct (Qlt_le_dec (snd (fst x)) (snd (fst y))) as [Hlt|Hle]; [left; exact Hlt|].
  assert (H1 : (snd (fst x) <= snd (fst y))%Q).
  { apply Qnot_lt_le. intros Hlt. apply Hn. left. exact Hlt. }
  assert (E : (snd (fst x) == snd (fst y))%Q) by (apply Qle_antisym; assumption).
  assert (H2 : (snd y < snd x)%Q).
  { apply Qnot_le_lt. intros Hle'. apply Hn. right. split; assumption. }
  right. split; [symmetry; exact E | lra].
Qed.

Lemma title_key_le_trans (x y z : list N * Q * Q) :
  title_key_le x y = true -> title_key_le y z = true -> title_key_le x z = true.
Proof.
  rewrite !title_key_le_spec. intros [H1 | [H1 H1']] [H2 | [H2 H2']].
  - left. lra.
  - left. lra.
  - left. lra.
  - right. split; lra.
Qed.

(** X9: the title [get_best_title] resolves.  A metadata title that
    cleans to more than 5 characters wins, whatever the pages hold.
    Otherwise, when some span text of the first page has more than 4 and
    fewer than 80 characters, the title is such a text of the largest
    font size, and among those of that size of the topmost line. *)
Theorem get_best_title_choice (doc : document) :
  (has_usable_title doc = true ->
   exists t, meta_title doc = Some t /\ get_best_title doc = Ok (clean_text t))
  /\ (has_usable_title doc = false ->
      forall p0 ps x,
        doc_pages doc = p0 :: ps ->
        In x (first_page_lines p0) -> title_candidate x = true ->
        exists best,
          In best (first_page_lines p0) /\ title_candidate best = true
          /\ get_best_title doc = Ok (fst (fst best))
          /\ forall y, In y (first_page_lines p0) -> title_candidate y = true ->
               (snd (fst y) <= snd (fst best))%Q
               /\ ((snd (fst y) == snd (fst best))%Q -> (snd best <= snd y)%Q)).
Proof.
  unfold has_usable_title, get_best_title. split.
  - destruct (meta_title doc) as [t|]; [| discriminate].
    destruct (truthy t); [| discriminate]. cbn [andb].
    destruct (5 <? length (clean_text t))%nat; [| discriminate].
    intros _. exists t. split; reflexivity.
  - intros Hu p0 ps x Hp Hx Hc.
    assert (Hm : match meta_title doc with
                 | Some t => if truthy t
                             then if (5 <? length (clean_text t))%nat
                                  then Some (clean_text t) else None
                             else None
                 | None => None
                 end = None).
    { destruct (meta_title doc) as [t|]; [| reflexivity].
      destruct (truthy t); [| reflexivity]. cbn [andb] in Hu. rewrite Hu. reflexivity. }
    rewrite Hm, Hp.
    set (L := sort_by title_key_le (first_page_lines p0)).
    assert (Hperm : Permutation L (first_page_lines p0)) by apply sort_by_perm.
    destruct (List.find _ (List.map _ L)) as [t|] eqn:Ef.
    + apply find_map_first in Ef.
      destruct Ef as [pre [best [post [HL [Ht [Hb Hpre]]]]]].
      assert (Hs : StronglySorted (fun a b => title_key_le a b = true) L)
        by exact (sort_by_strongly_sorted title_key_le
                    title_key_le_total title_key_le_trans _).
      rewrite HL in Hs. apply strongly_sorted_after in Hs.
      exists best. split.
      { apply (Permutation_in _ Hperm). rewrite HL. apply in_or_app. right. left.
        reflexivity. }
      split; [exact Hb|]. split; [rewrite Ht; reflexivity|].
      intros y Hy Hcy.
      apply (Permutation_in _ (Permutation_sym Hperm)) in Hy. rewrite HL in Hy.
      apply in_app_or in Hy. destruct Hy as [Hy | [<- | Hy]].
      * specialize (Hpre y Hy). unfold title_candidate in Hcy. congruence.
      * split; [lra | intros _; lra].
      * rewrite List.Forall_forall in Hs. specialize (Hs y Hy).
        apply title_key_le_spec in Hs. destruct Hs as [Hs | [Hs1 Hs2]].
        -- split; [lra | intros E; lra].
        -- split; [lra | intros _; exact Hs2].
    + exfalso.
      apply (Permutation_in _ (Permutation_sym Hperm)) in Hx.
      pose proof (find_none _ _ Ef (fst (fst x))
                    (in_map (fun x => fst (fst x)) L x Hx)) as Hn.
      unfold title_candidate in Hc. cbv beta in Hn. congruence.
Qed.

Lemma get_best_title_choice_witness :
  exists best,
    In best (first_page_lines
               (Demo.guide_page "This guide explains the retrieval pipeline in detail."))
    /\ title_candidate best = true
    /\ get_best_title Demo.guide_pdf = Ok (fst (fst best))
    /\ forall y,
         In y (first_page_lines
                 (Demo.guide_page "This guide explains the retrieval pipeline in detail.")) ->
         title_candidate y = true ->
         (snd (fst y) <= snd (fst best))%Q
         /\ ((snd (fst y) == snd (fst best))%Q -> (snd best <= snd y)%Q).
Proof.
  refine (proj2 (get_best_title_choice Demo.guide_pdf) _
            (Demo.guide_page "This guide explains the retrieval pipeline in detail.")
            [Demo.guide_page "Ranking uses cosine similarity between embeddings."]
            (lit "Overview", 16%Q, 72%Q) _ _ _).
  - reflexivity.
  - reflexivity.
  - vm_compute. left. reflexivity.
  - reflexivity.
Defined.

End TitleChoice.

(** ** Loading the configuration *)

Section ConfigurationEdges.
Import Main.

(** The configuration with nested persona and job, whatever the value of
    the documents key. *)
Lemma load_input_config_nested_docs (role task : list N) (docs : json) :
  role <> [] -> task <> [] ->
  load_input_config
    (JDict [ (lit "persona", JDict [ (lit "role", JStr role) ]);
             (lit "job_to_be_done", JDict [ (lit "task", JStr task) ]);
             (lit "documents", docs) ])
  = (items <- py_iter docs;;
     filenames <- filenames_of items;;
     Ok (JStr role, JStr task, filenames)).
Proof.
  intros Hr Ht.
  destruct role as [|r role]; [congruence|].
  destruct task as [|t task]; [congruence|].
  unfold load_input_config, nested_or_bare, py_get.
  rewrite !assoc_here.
  rewrite (assoc_skip (lit "job_to_be_done")) by (vm_compute; reflexivity).
  rewrite !assoc_here.
  rewrite !(assoc_skip (lit "documents")) by (vm_compute; reflexivity).
  rewrite !assoc_here.
  cbn [default from_option bind]. unfold id. rewrite !assoc_here.
  cbn [default from_option bind json_truthy truthy]. unfold id. reflexivity.
Qed.

Lemma filenames_of_app_raise (before : list (list N)) (bad : json)
    (after : list json) (e : exn) :
  py_item bad (lit "filename") = Raise e ->
  filenames_of
    (List.map (fun n => JDict [ (lit "filename", JStr n) ]) before ++ bad :: after)
  = Raise e.
Proof.
  intros Hb. induction before as [|n before IH].
  - cbn [List.map app filenames_of]. rewrite Hb. reflexivity.
  - cbn [List.map app filenames_of]. unfold py_item at 1. rewrite assoc_here.
    cbn [bind]. rewrite IH. reflexivity.
Qed.

(** X10: a configuration object without the keys [persona],
    [job_to_be_done] and [documents] loads: the persona and the job are
    the empty string and there is no file name. *)
Theorem load_input_config_missing_keys (d : list (list N * json)) :
  assoc (lit "persona") d = None ->
  assoc (lit "job_to_be_done") d = None ->
  assoc (lit "documents") d = None ->
  load_input_config (JDict d) = Ok (JStr [], JStr [], []).
Proof.
  intros Hp Hj Hd. unfold load_input_config, nested_or_bare, py_get.
  rewrite Hp, Hj, Hd. reflexivity.
Qed.

Lemma load_input_config_missing_keys_witness :
  load_input_config (JDict [ (lit "comment", JStr (lit "draft")) ])
  = Ok (JStr [], JStr [], []).
Proof.
  apply (load_input_config_missing_keys [ (lit "comment", JStr (lit "draft")) ]);
    vm_compute; reflexivity.
Defined.

(** X11: what [load_input_config] raises on a malformed list of
    documents, the persona and the job being well formed: [KeyError] at
    the first entry that is an object without a [filename] key, and
    [TypeError] at the first entry that is not an object (a bare file
    name, say); a value that is not an object at the top level raises
    [AttributeError]. *)
Theorem load_input_config_document_errors
    (role task : list N) (before : list (list N)) (bad : json) (after : list json) :
  role <> [] -> task <> [] ->
  let config :=
    JDict [ (lit "persona", JDict [ (lit "role", JStr role) ]);
            (lit "job_to_be_done", JDict [ (lit "task", JStr task) ]);
            (lit "documents",
             JList (List.map (fun n => JDict [ (lit "filename", JStr n) ]) before
                    ++ bad :: after)) ] in
  (forall d, bad = JDict d -> assoc (lit "filename") d = None ->
     load_input_config config = Raise KeyError)
  /\ ((forall d, bad <> JDict d) -> load_input_config config = Raise TypeError)
  /\ (forall v, (forall d, v <> JDict d) -> load_input_config v = Raise AttributeError).
Proof.
  intros Hr Ht config. split; [| split].
  - intros d -> Hd. unfold config.
    rewrite (load_input_config_nested_docs role task _ Hr Ht). cbn [py_iter bind].
    rewrite (filenames_of_app_raise before (JDict d) after KeyError); [reflexivity|].
    unfold py_item. rewrite Hd. reflexivity.
  - intros Hb. unfold config.
    rewrite (load_input_config_nested_docs role task _ Hr Ht). cbn [py_iter bind].
    rewrite (filenames_of_app_raise before bad after TypeError); [reflexivity|].
    destruct bad; try reflexivity. exfalso. exact (Hb d eq_refl).
  - intros v Hv. destruct v; try reflexivity. exfalso. exact (Hv d eq_refl).
Qed.

Lemma load_input_config_document_errors_witness :
  load_input_config
    (JDict [ (lit "persona", JDict [ (lit "role", JStr (lit "Analyst")) ]);
             (lit "job_to_be_done", JDict [ (lit "task", JStr (lit "Summarise")) ]);
             (lit "documents",
              JList [ JDict [ (lit "filename", JStr (lit "guide.pdf")) ];
                      JStr (lit "notes.pdf") ]) ])
  = Raise TypeError.
Proof.
  refine (proj1 (proj2 (load_input_config_document_errors
                          (lit "Analyst") (lit "Summarise") [lit "guide.pdf"]
                          (JStr (lit "notes.pdf")) [] _ _)) _).
  - discriminate.
  - discriminate.
  - intros d. discriminate.
Defined.

End ConfigurationEdges.

(** ** One document in the loop of [main] *)

Section LoopStep.
Import Main.

Lemma basename_after_slash (a b : list N) :
  no_slash b -> ProcessPdfs.basename (a ++ [47] ++ b) = b.
Proof.
  intros Hb. unfold ProcessPdfs.basename. rewrite !rev_app_distr, <- !app_assoc.
  assert (Hr : run (fun c => negb (c =? 47)) (rev b ++ rev [47] ++ rev a)
               = length (rev b)).
  { rewrite run_app_all.
    - cbn. lia.
    - apply forallb_forall. intros c Hc. apply in_rev in Hc.
      unfold no_slash in Hb. rewrite List.Forall_forall in Hb.
      rewrite (Hb c Hc). reflexivity. }
  rewrite Hr, take_app_length. apply rev_involutive.
Qed.

Lemma basename_plain (b : list N) : no_slash b -> ProcessPdfs.basename b = b.
Proof.
  intros Hb. unfold ProcessPdfs.basename.
  rewrite run_all.
  - rewrite firstn_all. apply rev_involutive.
  - apply forallb_forall. intros c Hc. apply in_rev in Hc.
    unfold no_slash in Hb. rewrite List.Forall_forall in Hb.
    rewrite (Hb c Hc). reflexivity.
Qed.

Lemma basename_no_slash (p : list N) : no_slash (ProcessPdfs.basename p).
Proof.
  unfold ProcessPdfs.basename, no_slash. apply Forall_rev.
  generalize (rev p). intros l. induction l as [|c l IH]; cbn [run].
  - constructor.
  - destruct (c =? 47) eqn:E; cbn [negb firstn]; constructor; assumption.
Qed.

Lemma endswith_slash (a : list N) :
  endswith (lit "/") a = true -> exists a', a = a' ++ [47].
Proof.
  unfold endswith. change (rev (lit "/")) with [47].
  destruct (rev a) as [|c r] eqn:E; cbn [startswith]; [discriminate|].
  rewrite andb_true_r. intros Hc. apply N.eqb_eq in Hc. subst c.
  exists (rev r). apply (f_equal (@rev N)) in E. rewrite rev_involutive in E.
  exact E.
Qed.

(** Joining a folder and a plain file name, then taking the base name,
    gives the file name back. *)
Lemma basename_path_join (folder f : list N) :
  no_slash f -> ProcessPdfs.basename (path_join folder f) = f.
Proof.
  intros Hf. unfold path_join.
  assert (Hs : startswith (lit "/") f = false).
  { destruct f as [|c f]; [reflexivity|]. inversion Hf as [|? ? Hc _]; subst.
    cbn [startswith]. change (lit "/") with [47]. cbn [startswith].
    rewrite N.eqb_sym, Hc. reflexivity. }
  rewrite Hs. destruct folder as [|c folder]; cbn [truthy negb orb].
  - apply basename_plain. exact Hf.
  - destruct (endswith (lit "/") (c :: folder)) eqn:E.
    + destruct (endswith_slash _ E) as [a' ->]. rewrite <- app_assoc.
      apply basename_after_slash. exact Hf.
    + apply basename_after_slash. exact Hf.
Qed.

Lemma segment_lines_nil (lines : list (list N)) : segment_lines [] lines = [].
Proof.
  unfold segment_lines. change (heading_page_map []) with (∅ : gmap (list N) nat).
  assert (H : foldl (segment_step ∅) ([], None) lines = ([], None)).
  { induction lines as [|l lines IH]; [reflexivity|].
    cbn [foldl]. unfold segment_step at 2. rewrite lookup_empty. exact IH. }
  rewrite H. reflexivity.
Qed.

(** X12: one turn of the loop of [main] for a plain file name (no
    slash) that exists and is processed: the path is the folder joined
    with the name, its base name is the name again, so the segmenter
    finds the headings just stored for it, and the state gains exactly
    the sections cut at this document's own level-1 and level-2 headings,
    each tagged with the file name. *)
Theorem main_loop_plain_file
    (w : world) (folder f : list N) (rest : list json) (st : loop_state)
    (doc : ProcessPdfs.document) (r : ProcessPdfs.pdf_result) :
  no_slash f ->
  path_exists w (path_join folder f) = true ->
  fitz_open w (path_join folder f) = Some doc ->
  ProcessPdfs.main_process_pdf (fitz_open w) (path_join folder f)
  = ProcessPdfs.Returned (Some r) ->
  ProcessPdfs.basename (path_join folder f) = f
  /\ main_loop w folder (JStr f :: rest) st
     = main_loop w folder rest
         (processed st f (top_level_headings (ProcessPdfs.r_outline r))
            (segment_lines (top_level_headings (ProcessPdfs.r_outline r))
               (document_lines doc))).
Proof.
  intros Hf Hx Ho Hr. pose proof (basename_path_join folder f Hf) as Hb.
  split; [exact Hb|].
  cbn [main_loop]. rewrite Hx, Hr. cbn [negb].
  unfold extract_sections_from_pdf. rewrite Hb, lookup_insert_eq. cbn [default from_option].
  unfold id. rewrite Ho.
  destruct (top_level_headings (ProcessPdfs.r_outline r)) as [|h hs] eqn:Eh.
  - rewrite segment_lines_nil. reflexivity.
  - reflexivity.
Qed.

Lemma main_loop_plain_file_witness :
  ProcessPdfs.basename (path_join (lit "pdfs") (lit "guide.pdf")) = lit "guide.pdf"
  /\ main_loop Demo.world (lit "pdfs") [JStr (lit "guide.pdf")] initial_state
     = main_loop Demo.world (lit "pdfs") []
         (processed initial_state (lit "guide.pdf")
            (top_level_headings (ProcessPdfs.r_outline Demo.guide_result))
            (segment_lines (top_level_headings (ProcessPdfs.r_outline Demo.guide_result))
               (document_lines Demo.guide_pdf))).
Proof.
  apply (main_loop_plain_file Demo.world (lit "pdfs") (lit "guide.pdf") []
           initial_state Demo.guide_pdf Demo.guide_result).
  - repeat constructor.
  - vm_compute. reflexivity.
  - vm_compute. reflexivity.
  - vm_compute. reflexivity.
Defined.

(** X13: a file name with a slash (a file in a sub-folder) is stored in
    the headings map under the whole name but looked up under its base
    name.  When the base name is no key of the map, the document is
    processed and listed as input, yet it contributes no section. *)
Theorem main_loop_nested_file
    (w : world) (folder f : list N) (rest : list json) (st : loop_state)
    (r : ProcessPdfs.pdf_result) :
  ~ no_slash f ->
  path_exists w (path_join folder f) = true ->
  ProcessPdfs.main_process_pdf (fitz_open w) (path_join folder f)
  = ProcessPdfs.Returned (Some r) ->
  all_headings st !! ProcessPdfs.basename (path_join folder f) = None ->
  ProcessPdfs.basename (path_join folder f) <> f
  /\ main_loop w folder (JStr f :: rest) st
     = main_loop w folder rest
         (processed st f (top_level_headings (ProcessPdfs.r_outline r)) []).
Proof.
  intros Hf Hx Hr Hn.
  assert (Hb : ProcessPdfs.basename (path_join folder f) <> f).
  { intros E. apply Hf. rewrite <- E. apply basename_no_slash. }
  split; [exact Hb|].
  cbn [main_loop]. rewrite Hx, Hr. cbn [negb].
  unfold extract_sections_from_pdf.
  rewrite lookup_insert_ne by (intros E; apply Hb; symmetry; exact E).
  rewrite Hn. reflexivity.
Qed.

Lemma main_loop_nested_file_witness :
  ProcessPdfs.basename (path_join (lit "pdfs") (lit "sub/guide.pdf"))
  <> lit "sub/guide.pdf"
  /\ main_loop Demo.world_everywhere (lit "pdfs") [JStr (lit "sub/guide.pdf")]
       initial_state
     = main_loop Demo.world_everywhere (lit "pdfs") []
         (processed initial_state (lit "sub/guide.pdf")
            (top_level_headings (ProcessPdfs.r_outline Demo.guide_result)) []).
Proof.
  apply (main_loop_nested_file Demo.world_everywhere (lit "pdfs")
           (lit "sub/guide.pdf") [] initial_state Demo.guide_result).
  - intros H. unfold no_slash in H. rewrite List.Forall_forall in H.
    specialize (H 47 ltac:(vm_compute; tauto)). discriminate H.
  - reflexivity.
  - vm_compute. reflexivity.
  - apply lookup_empty.
Defined.

End LoopStep.

(** ** Documents that stop the run, and documents without a heading *)

Section Stops.
Import Main.

Lemma main_loop_all_pass (w : world) (folder : list N) (names : list (list N)) :
  Forall (passes w folder) names ->
  forall st, exists st', main_loop w folder (List.map JStr names) st = Completed st'.
Proof.
  induction 1 as [|g names Hg _ IH]; intros st.
  - exists st. reflexivity.
  - cbn [List.map].
    destruct (main_loop_passes w folder g Hg (List.map JStr names) st) as [st1 ->].
    apply IH.
Qed.

(** C2, amended.  When processing a listed document that exists raises
    an exception, so that [main_process_pdf] reports it on standard error
    and returns nothing, the run -- the files listed before it being
    missing or processed -- returns early right after that message and
    writes no output.  A document that is processed never ends the run,
    whatever its outline: a list of files that are all missing or
    processed is looped through to its end; the level-1 and level-2
    headings of a processed document are stored under its name, the
    document is either segmented and listed or reported with an error
    message, and the loop goes on with the next file.  A processed
    document without a heading of level 1 or 2 -- one with an empty
    outline is such -- that is listed under a plain file name is recorded
    as processed with 0 sections and adds no section. *)
Theorem run_aborts_when_processing_fails (w : world) (a : args) :
  (forall (data persona job : json) (before after : list (list N)) (f : list N)
          (e : exn),
     read_json w (input_json a) = Some data ->
     load_input_config data
     = Ok (persona, job, List.map JStr (before ++ f :: after)) ->
     Forall (passes w (pdf_folder a)) before ->
     path_exists w (path_join (pdf_folder a) f) = true ->
     path_join (pdf_folder a) f <> [] ->
     ProcessPdfs.process_pdf (fitz_open w) (path_join (pdf_folder a) f) = Raise e ->
     ProcessPdfs.main_process_pdf (fitz_open w) (path_join (pdf_folder a) f)
     = ProcessPdfs.Returned None
     /\ run_status (main w a) = Finished
     /\ run_written (main w a) = None
     /\ last (run_log (main w a)) = Some (StderrError (path_join (pdf_folder a) f)))
  /\ (forall (names : list (list N)) (st : loop_state),
        Forall (passes w (pdf_folder a)) names ->
        exists st',
          main_loop w (pdf_folder a) (List.map JStr names) st = Completed st')
  /\ (forall (g : list N) (r : ProcessPdfs.pdf_result) (rest : list json)
             (st : loop_state),
        path_exists w (path_join (pdf_folder a) g) = true ->
        ProcessPdfs.main_process_pdf (fitz_open w) (path_join (pdf_folder a) g)
        = ProcessPdfs.Returned (Some r) ->
        (exists st',
           main_loop w (pdf_folder a) (JStr g :: rest) st
           = main_loop w (pdf_folder a) rest st'
           /\ ((exists sections,
                  st' = processed st g
                          (top_level_headings (ProcessPdfs.r_outline r)) sections)
               \/ st' = unsegmented st g
                          (top_level_headings (ProcessPdfs.r_outline r))))
        /\ (no_slash g ->
            top_level_headings (ProcessPdfs.r_outline r) = [] ->
            main_loop w (pdf_folder a) (JStr g :: rest) st
            = main_loop w (pdf_folder a) rest
                {| input_documents := input_documents st ++ [g];
                   all_sections := all_sections st;
                   all_headings := <[g := []]> (all_headings st);
                   log := log st ++ [PrintProcessed g 0] |})).
Proof.
  split; [| split].
  - intros data persona job before after f e Hd Hl Hb Hx Hne Hr.
    split.
    { unfold ProcessPdfs.main_process_pdf. rewrite Hr.
      destruct (path_join (pdf_folder a) f); [congruence | reflexivity]. }
    destruct (main_loop_aborts w (pdf_folder a) f after e Hx Hne Hr
                before initial_state Hb) as [events Hloop].
    unfold main. rewrite Hd, Hl, Hloop. cbn [stop run_status run_written run_log].
    split; [reflexivity|]. split; [reflexivity|]. apply last_snoc.
  - intros names st Hn. exact (main_loop_all_pass w (pdf_folder a) names Hn st).
  - intros g r rest st Hxg Hg. split.
    + cbn [main_loop]. rewrite Hxg, Hg. cbn [negb].
      destruct (extract_sections_from_pdf _ _ _) as [sections|e];
        eexists; (split; [reflexivity|]).
      * left. exists sections. reflexivity.
      * right. reflexivity.
    + intros Hns Hh. cbn [main_loop]. rewrite Hxg, Hg. cbn [negb].
      unfold extract_sections_from_pdf.
      rewrite (basename_path_join _ _ Hns), lookup_insert_eq, Hh.
      cbn [default from_option]. unfold id. cbn [List.map length].
      rewrite app_nil_r. reflexivity.
Qed.

Lemma run_aborts_when_processing_fails_witness :
  (ProcessPdfs.main_process_pdf (fitz_open Demo.world) (lit "pdfs/broken.pdf")
   = ProcessPdfs.Returned None
   /\ run_status (main Demo.world Demo.arguments_broken) = Finished
   /\ run_written (main Demo.world Demo.arguments_broken) = None
   /\ last (run_log (main Demo.world Demo.arguments_broken))
      = Some (StderrError (lit "pdfs/broken.pdf")))
  /\ main_loop Demo.world (lit "pdfs")
       [JStr (lit "notes.pdf"); JStr (lit "guide.pdf")] initial_state
     = main_loop Demo.world (lit "pdfs") [JStr (lit "guide.pdf")]
         {| input_documents := [lit "notes.pdf"];
            all_sections := [];
            all_headings := <[lit "notes.pdf" := []]> ∅;
            log := [PrintProcessed (lit "notes.pdf") 0] |}.
Proof.
  split.
  - refine (proj1 (run_aborts_when_processing_fails Demo.world Demo.arguments_broken)
              Demo.config_broken (JStr (lit "Analyst")) (JStr (lit "Summarise"))
              [lit "guide.pdf"] [lit "notes.pdf"] (lit "broken.pdf") OSError
              _ _ _ _ _ _).
    + vm_compute. reflexivity.
    + vm_compute. reflexivity.
    + constructor; [| constructor]. right. split; [discriminate|].
      exists Demo.guide_result. vm_compute. reflexivity.
    + vm_compute. reflexivity.
    + discriminate.
    + vm_compute. reflexivity.
  - refine (proj2 (proj2 (proj2 (run_aborts_when_processing_fails
                                   Demo.world Demo.arguments))
                     (lit "notes.pdf")
                     {| ProcessPdfs.r_title := lit "hello world ";
                        ProcessPdfs.r_outline := [];
                        ProcessPdfs.r_filename := lit "notes.pdf" |}
                     [JStr (lit "guide.pdf")] initial_state _ _) _ _).
    + vm_compute. reflexivity.
    + vm_compute. reflexivity.
    + repeat constructor.
    + reflexivity.
Defined.

End Stops.

(** ** What the segmenter keeps *)

Section SegmenterText.
Import Main.

Lemma segment_step_flush (m : gmap (list N) nat)
    (st : list segment * option segment) (l : list N) :
  List.map seg_title (flush (segment_step m st l))
  = List.map seg_title (flush st)
    ++ (if is_heading_line m l then [strip l] else [])
  /\ concat (List.map segment_text (flush (segment_step m st l)))
     = concat (List.map segment_text (flush st))
       ++ (if is_heading_line m l then line_text m l
           else match snd st with Some _ => line_text m l | None => [] end)
  /\ (is_Some (snd (segment_step m st l))
      <-> is_heading_line m l = true \/ is_Some (snd st)).
Proof.
  destruct st as [sections cur]. unfold segment_step, line_text, is_heading_line.
  destruct (m !! strip l) as [p|] eqn:E.
  - rewrite bool_decide_eq_true_2 by (eexists; reflexivity).
    unfold flush. cbn [fst snd].
    assert (Hf : (match cur with Some c => sections ++ [c] | None => sections end)
                 = sections ++ match cur with Some c => [c] | None => [] end).
    { destruct cur; [reflexivity | rewrite app_nil_r; reflexivity]. }
    rewrite Hf. rewrite !List.map_app, concat_app.
    cbn [List.map concat seg_title]. unfold segment_text at 3.
    cbn [seg_title seg_content]. rewrite !app_nil_r.
    split; [reflexivity|]. split; [reflexivity|].
    split; [intros _; left; reflexivity | intros _; eexists; reflexivity].
  - rewrite bool_decide_eq_false_2
      by (intros [x Hx]; discriminate Hx).
    destruct cur as [c|]; unfold flush; cbn [fst snd].
    + rewrite !List.map_app, !concat_app. cbn [List.map concat seg_title].
      unfold segment_text at 2 4. cbn [seg_title seg_content].
      rewrite !app_nil_r, <- !app_assoc.
      split; [reflexivity|]. split; [reflexivity|].
      split; [intros _; right; eexists; reflexivity | intros _; eexists; reflexivity].
    + rewrite !app_nil_r.
      split; [reflexivity|]. split; [reflexivity|].
      split; [intros [x Hx]; discriminate Hx|].
      intros [H | [x Hx]]; discriminate.
Qed.

Lemma segment_loop_flush (m : gmap (list N) nat) (lines : list (list N)) :
  forall st,
    List.map seg_title (flush (foldl (segment_step m) st lines))
    = List.map seg_title (flush st)
      ++ List.map strip (List.filter (is_heading_line m) lines)
    /\ concat (List.map segment_text (flush (foldl (segment_step m) st lines)))
       = concat (List.map segment_text (flush st))
         ++ concat (List.map (line_text m)
                      (match snd st with
                       | Some _ => lines
                       | None => after_first_heading m lines
                       end)).
Proof.
  induction lines as [|l lines IH]; intros st.
  - cbn [foldl List.filter List.map concat after_first_heading].
    destruct (snd st); rewrite !app_nil_r; split; reflexivity.
  - cbn [foldl]. destruct (IH (segment_step m st l)) as [IH1 IH2].
    destruct (segment_step_flush m st l) as [H1 [H2 H3]].
    rewrite IH1, IH2, H1, H2. cbn [List.filter after_first_heading].
    destruct (is_heading_line m l) eqn:Eh.
    + assert (Hs : is_Some (snd (segment_step m st l))) by (apply H3; left; reflexivity).
      destruct Hs as [c Hc]. rewrite Hc.
      cbn [List.map concat]. rewrite <- ?app_assoc. cbn [app].
      split; [reflexivity|]. destruct (snd st); reflexivity.
    + destruct (snd st) as [c|] eqn:Es.
      * assert (Hs : is_Some (snd (segment_step m st l)))
          by (apply H3; right; eexists; reflexivity).
        destruct Hs as [c' Hc']. rewrite Hc'.
        cbn [List.map concat]. rewrite <- ?app_assoc. cbn [app].
        split; reflexivity.
      * destruct (snd (segment_step m st l)) as [c'|] eqn:Es'.
        { destruct (proj1 H3 (ex_intro _ c' eq_refl)) as [Hs | [x Hx]]; discriminate. }
        rewrite <- ?app_assoc. cbn [app]. split; reflexivity.
Qed.

Lemma last_page_is_Some (t : list N) (hs : list (list N * nat)) :
  is_Some (last_page t hs) <-> exists h, In h hs /\ strip (fst h) = t.
Proof.
  induction hs as [|h hs IH]; cbn [last_page].
  - split; [intros [x Hx]; discriminate | intros [h [[] _]]].
  - destruct (last_page t hs) as [p|].
    + split; [intros _ | intros _; eexists; reflexivity].
      destruct (proj1 IH ltac:(eexists; reflexivity)) as [h' [Hin Ht]].
      exists h'. split; [right; exact Hin | exact Ht].
    + destruct (decide (strip (fst h) = t)) as [E|E].
      * rewrite (bool_decide_eq_true_2 _ E).
        split; [intros _; exists h; split; [left; reflexivity | exact E]|].
        intros _. eexists. reflexivity.
      * rewrite (bool_decide_eq_false_2 _ E). split.
        -- intros [x Hx]. discriminate.
        -- intros [h' [[<- | Hin] Ht]]; [contradiction|].
           apply IH. exists h'. split; assumption.
Qed.

(** X14: what the segmenter makes of the lines of a document.  A line
    opens a section exactly when its stripped text is the stripped text
    of a listed heading; the titles of the sections are these lines,
    stripped, in order (so there are as many sections as such lines); and
    writing every section out again -- title, line feed, content -- gives
    back the text from the first heading line on, line by line: the lines
    before the first heading are dropped, and nothing else is lost. *)
Theorem segment_lines_structure (hs : list (list N * nat)) (lines : list (list N)) :
  let m := heading_page_map hs in
  (forall l, is_heading_line m l = true
             <-> exists h, In h hs /\ strip (fst h) = strip l)
  /\ List.map seg_title (segment_lines hs lines)
     = List.map strip (List.filter (is_heading_line m) lines)
  /\ concat (List.map segment_text (segment_lines hs lines))
     = concat (List.map (line_text m) (after_first_heading m lines)).
Proof.
  intros m. split.
  - intros l. unfold is_heading_line, m. rewrite heading_page_map_last.
    rewrite bool_decide_eq_true. apply last_page_is_Some.
  - destruct (segment_loop_flush m lines ([], None)) as [H1 H2].
    assert (Hf : segment_lines hs lines
                 = flush (foldl (segment_step m) ([], None) lines)).
    { unfold segment_lines. fold m.
      destruct (foldl (segment_step m) ([], None) lines) as [sections cur].
      unfold flush. cbn [fst snd].
      destruct cur; [reflexivity | rewrite app_nil_r; reflexivity]. }
    rewrite Hf. split; [exact H1 | exact H2].
Qed.

End SegmenterText.

(** ** The result of [combine_lines] *)

Section ReflowResult.
Import Main.

Lemma splitlines_go_single (s : list N) :
  forall after_cr cur, single_line cur ->
    Forall single_line (splitlines_go after_cr cur s).
Proof.
  induction s as [|c s IH]; intros after_cr cur Hcur; cbn [splitlines_go].
  - destruct cur; constructor; [| constructor].
    apply Forall_rev. exact Hcur.
  - destruct ((c =? LF) && after_cr); [apply IH; exact Hcur|].
    destruct (islinebreak c) eqn:E.
    + constructor; [apply Forall_rev; exact Hcur | apply IH; constructor].
    + apply IH. constructor; assumption.
Qed.

Lemma single_line_strip (s : list N) : single_line s -> single_line (strip s).
Proof.
  intros H. destruct (strip_infix s) as [p [q Hpq]]. unfold single_line in *.
  rewrite Hpq in H. apply Forall_app in H. destruct H as [_ H].
  apply Forall_app in H. tauto.
Qed.

Lemma nonblank_lines_pieces (s : list N) : Forall piece (nonblank_lines s).
Proof.
  apply List.Forall_forall. intros l Hl.
  pose proof (nonblank_lines_trimmed s) as Ht. rewrite List.Forall_forall in Ht.
  destruct (Ht l Hl) as [H1 H2]. split; [split; assumption|].
  unfold nonblank_lines in Hl. apply List.filter_In in Hl. destruct Hl as [Hl _].
  apply in_map_iff in Hl. destruct Hl as [x [<- Hx]]. apply single_line_strip.
  pose proof (splitlines_go_single s false [] ltac:(constructor)) as Hs.
  rewrite List.Forall_forall in Hs. exact (Hs x Hx).
Qed.

Lemma piece_app (a b sep : list N) :
  piece a -> piece b -> single_line sep -> piece (a ++ sep ++ b).
Proof.
  intros [[Na Ta] Sa] [[Nb Tb] Sb] Ss. split; [split|].
  - destruct a; [congruence | discriminate].
  - apply trimmed_app; assumption.
  - unfold single_line in *. rewrite !Forall_app. tauto.
Qed.

Lemma combine_step_pieces (st : list (list N) * list N) (line : list N) :
  Forall piece (fst st) -> (snd st = [] \/ piece (snd st)) -> piece line ->
  Forall piece (fst (combine_step st line))
  /\ (snd (combine_step st line) = [] \/ piece (snd (combine_step st line)))
  /\ (fst (combine_step st line) <> [] \/ snd (combine_step st line) <> []).
Proof.
  destruct st as [result temp]. cbn [fst snd]. intros Hr Ht Hl.
  unfold combine_step.
  destruct (ends_terminal line); destruct temp as [|c temp]; cbn [truthy fst snd].
  - split; [| split; [left; reflexivity | left; destruct result; discriminate]].
    apply Forall_app. split; [exact Hr | constructor; [exact Hl | constructor]].
  - destruct Ht as [Ht | Ht]; [discriminate|].
    assert (Hp : piece ((c :: temp) ++ lit " " ++ line))
      by (apply piece_app; [exact Ht | exact Hl | repeat constructor]).
    rewrite (strip_id _ (proj2 (proj1 Hp))).
    split; [| split; [left; reflexivity | left; destruct result; discriminate]].
    apply Forall_app. split; [exact Hr | constructor; [exact Hp | constructor]].
  - split; [exact Hr|]. split; [right; exact Hl|]. right. exact (proj1 (proj1 Hl)).
  - destruct Ht as [Ht | Ht]; [discriminate|].
    split; [exact Hr|]. split; [| right; discriminate].
    right. apply piece_app; [exact Ht | exact Hl | repeat constructor].
Qed.

Lemma combine_loop_pieces (lines : list (list N)) :
  Forall piece lines ->
  forall st, Forall piece (fst st) -> (snd st = [] \/ piece (snd st)) ->
    let st' := foldl combine_step st lines in
    Forall piece (fst st') /\ (snd st' = [] \/ piece (snd st'))
    /\ (lines <> [] -> fst st' <> [] \/ snd st' <> []).
Proof.
  induction 1 as [|l lines Hl _ IH]; intros st Hr Ht; cbn [foldl].
  - split; [exact Hr|]. split; [exact Ht | congruence].
  - destruct (combine_step_pieces st l Hr Ht Hl) as [H1 [H2 H3]].
    destruct (IH _ H1 H2) as [I1 [I2 I3]].
    split; [exact I1|]. split; [exact I2|]. intros _.
    destruct lines as [|l' lines]; [exact H3 | apply I3; discriminate].
Qed.

Lemma join_pieces (ls : list (list N)) :
  Forall piece ls -> ls <> [] -> piece (join (lit " ") ls).
Proof.
  induction 1 as [|l ls Hl Hls IH]; intros Hne; [congruence|].
  destruct ls as [|l' ls]; [exact Hl|].
  change (join (lit " ") (l :: l' :: ls)) with (l ++ lit " " ++ join (lit " ") (l' :: ls)).
  apply piece_app; [exact Hl | apply IH; discriminate | repeat constructor].
Qed.

(** X15: [combine_lines] returns one line of text: it holds none of the
    characters at which [str.splitlines] breaks a line and has no white
    space at either end; and it is empty exactly when the text, once the
    markers are stripped, has no line with a character that is not white
    space. *)
Theorem combine_lines_single_line (s : list N) :
  single_line (combine_lines s)
  /\ trimmed (combine_lines s)
  /\ (combine_lines s = [] <-> nonblank_lines (strip_markers s) = []).
Proof.
  destruct (nonblank_lines (strip_markers s)) as [|l ls] eqn:El.
  { assert (E : combine_lines s = []) by (unfold combine_lines; rewrite El; reflexivity).
    rewrite E. split; [constructor|]. split; [split; exact I|]. tauto. }
  unfold combine_lines. rewrite El.
  pose proof (nonblank_lines_pieces (strip_markers s)) as Hp. rewrite El in Hp.
  destruct (combine_loop_pieces (l :: ls) Hp ([], []) ltac:(constructor)
              ltac:(left; reflexivity)) as [Hr [Ht Hn]].
  fold (combine_loop (l :: ls)) in Hr, Ht, Hn.
  destruct (combine_loop (l :: ls)) as [result temp].
  cbn [fst snd] in Hr, Ht, Hn. specialize (Hn ltac:(discriminate)).
  set (final := if truthy temp then result ++ [strip temp] else result).
  assert (Hf : Forall piece final).
  { unfold final. destruct temp as [|c temp]; [exact Hr|]. cbn [truthy].
    destruct Ht as [Ht | Ht]; [discriminate|].
    rewrite (strip_id _ (proj2 (proj1 Ht))).
    apply Forall_app. split; [exact Hr | constructor; [exact Ht | constructor]]. }
  assert (Hfn : final <> []).
  { unfold final. destruct temp as [|c temp]; cbn [truthy].
    - destruct Hn as [H | H]; [exact H | congruence].
    - destruct result; discriminate. }
  destruct (join_pieces final Hf Hfn) as [[Hne Htr] Hs].
  split; [exact Hs|]. split; [exact Htr|].
  split; [intros E; congruence | intros E; discriminate E].
Qed.

End ReflowResult.

(** ** Labels of the search *)

Section Labels.
Import Main.

Lemma index_Some_range {A} (l : list A) (i : Z) (x : A) :
  index l i = Some x ->
  (- Z.of_nat (length l) <= i < Z.of_nat (length l))%Z.
Proof.
  unfold index. destruct (Z.leb_spec 0 i) as [Hp|Hn].
  - intros H. apply lookup_lt_Some in H. lia.
  - destruct (Z.leb_spec 0 (Z.of_nat (length l) + i)) as [Hq|Hq]; [| discriminate].
    intros H. apply lookup_lt_Some in H. lia.
Qed.

Lemma hits_sections_ok_range (metadata : list section) (hits : list (Q * Z)) :
  forall results, hits_sections metadata hits = Ok results ->
    forall h, In h hits ->
      (- Z.of_nat (length metadata) <= snd h < Z.of_nat (length metadata))%Z.
Proof.
  induction hits as [|[score i] hits IH]; intros results H h Hh; [destruct Hh|].
  simpl in H. destruct (index metadata i) as [s|] eqn:Es; [| discriminate].
  destruct (hits_sections metadata hits) as [rest|e]; [| discriminate].
  destruct Hh as [<- | Hh]; [exact (index_Some_range _ _ _ Es)|].
  exact (IH rest eq_refl h Hh).
Qed.

Lemma hits_sections_raise (metadata : list section) (hits : list (Q * Z)) (e : exn) :
  hits_sections metadata hits = Raise e ->
  e = IndexError
  /\ exists h, In h hits
       /\ ~ (- Z.of_nat (length metadata) <= snd h < Z.of_nat (length metadata))%Z.
Proof.
  induction hits as [|[score i] hits IH]; simpl; [discriminate|].
  destruct (index metadata i) as [s|] eqn:Es.
  - destruct (hits_sections metadata hits) as [rest|e'] eqn:Eh; [discriminate|].
    simpl. intros [= <-]. destruct (IH eq_refl) as [He [h [Hin Hr]]].
    split; [exact He|]. exists h. split; [right; exact Hin | exact Hr].
  - intros [= <-]. split; [reflexivity|]. exists (score, i).
    split; [left; reflexivity|]. cbn [snd]. intros Hr.
    destruct (index_valid metadata i Hr) as [s Hs]. congruence.
Qed.

(** X16: [query_faiss_index] and the labels of the search.  When it
    returns, it returns as many results as the search gave hits, and
    every label denoted a position of the metadata list, counted from the
    start or, when negative, from the end.  It raises nothing but
    [IndexError], and only when a label is out of that range.  In
    particular the label [-1], with which a flat index pads a search that
    asks for more hits than it holds vectors, denotes the last section. *)
Theorem query_faiss_index_labels
    (encode : list N -> list Q)
    (search : list (list Q) -> list Q -> nat -> list (Q * Z))
    (idx : list (list Q)) (metadata : list section) (query_text : list N)
    (top_k : nat) :
  let hits := search idx (encode query_text) top_k in
  let answer := query_faiss_index encode search idx metadata query_text top_k in
  (forall results, answer = Ok results ->
     length results = length hits
     /\ forall h, In h hits ->
          (- Z.of_nat (length metadata) <= snd h < Z.of_nat (length metadata))%Z)
  /\ (forall e, answer = Raise e ->
        e = IndexError
        /\ exists h, In h hits
             /\ ~ (- Z.of_nat (length metadata) <= snd h
                   < Z.of_nat (length metadata))%Z)
  /\ (forall score, metadata <> [] ->
        exists s, last metadata = Some s
                  /\ hits_sections metadata [(score, (-1)%Z)] = Ok [(score, s)]).
Proof.
  intros hits answer. unfold answer, query_faiss_index. fold hits.
  split; [| split].
  - intros results H.
    destruct (hits_sections metadata hits) as [found|e] eqn:Hf; [| discriminate].
    simpl in H. injection H as <-. split.
    + rewrite (Permutation_length (sort_by_perm by_score_desc found)).
      rewrite <- (length_map fst found), (hits_sections_scores _ _ _ Hf).
      apply length_map.
    + exact (hits_sections_ok_range _ _ _ Hf).
  - intros e H.
    destruct (hits_sections metadata hits) as [found|e'] eqn:Hf; [discriminate|].
    simpl in H. injection H as <-. exact (hits_sections_raise _ _ _ Hf).
  - intros score Hne.
    destruct (last metadata) as [s|] eqn:El.
    2:{ apply last_None in El. contradiction. }
    exists s. split; [reflexivity|].
    cbn [hits_sections]. unfold index.
    assert (Hlen : (0 < length metadata)%nat)
      by (destruct metadata; [congruence | simpl; lia]).
    change (0 <=? -1)%Z with false. cbv iota.
    destruct (Z.leb_spec 0 (Z.of_nat (length metadata) + -1)) as [_|Hq]; [| lia].
    rewrite last_lookup in El.
    replace (Z.to_nat (Z.of_nat (length metadata) + -1))
      with (Init.Nat.pred (length metadata)) by lia.
    rewrite El. reflexivity.
Qed.

Lemma query_faiss_index_labels_witness :
  exists s, last Demo.guide_sections = Some s
            /\ hits_sections Demo.guide_sections [(0%Q, (-1)%Z)] = Ok [(0%Q, s)].
Proof.
  refine (proj2 (proj2 (query_faiss_index_labels
                          (encode Demo.world) Demo.flat_ip_search [[1%Q]; [1%Q]]
                          Demo.guide_sections (lit "Analyst Summarise") 25))
            0%Q _).
  discriminate.
Defined.

End Labels.

(** ** The two lists of the output *)

Section Ranking.
Import Main.

Lemma length_slice_to {A} (n : Z) (l : list A) :
  length (slice_to n l) = slice_count n (length l).
Proof.
  unfold slice_to, slice_count. destruct (0 <=? n)%Z eqn:E.
  - apply length_take.
  - rewrite length_take. apply Z.leb_gt in E. lia.
Qed.

Lemma slice_to_lookup {A} (n : Z) (l : list A) (i : nat) (x : A) :
  slice_to n l !! i = Some x <-> (i < slice_count n (length l))%nat /\ l !! i = Some x.
Proof.
  unfold slice_to, slice_count. destruct (0 <=? n)%Z eqn:E.
  - rewrite lookup_take_Some. split; intros [H1 H2].
    + split; [| exact H1]. apply lookup_lt_Some in H1. lia.
    + split; [exact H2 | lia].
  - apply Z.leb_gt in E. rewrite lookup_take_Some. split; intros [H1 H2].
    + split; [lia | exact H1].
    + split; [exact H2 | lia].
Qed.

Lemma lookup_map_list {A B} (f : A -> B) (l : list A) (i : nat) :
  List.map f l !! i = option_map f (l !! i).
Proof.
  revert i. induction l as [|a l IH]; intros [|i]; cbn; try reflexivity. apply IH.
Qed.

(** The output of a run that wrote its file, with its log. *)
Lemma main_written_log (w : world) (a : args) (out : output) :
  run_written (main w a) = Some out ->
  exists st top,
    (forall x, In x top -> In (snd x) (all_sections st))
    /\ o_input_documents out = input_documents st
    /\ extracted_sections out = fst (assemble (num_results a) top)
    /\ subsection_analysis out = snd (assemble (num_results a) top)
    /\ run_log (main w a)
       = log st ++ [PrintSaved (output_json a) (length (input_documents st))
                      (length (List.filter has_body top))
                      (length (List.filter has_body top))]
    /\ exists data persona job names,
         read_json w (input_json a) = Some data
         /\ load_input_config data = Ok (persona, job, names)
         /\ main_loop w (pdf_folder a) names initial_state = Completed st.
Proof.
  unfold main.
  destruct (read_json w (input_json a)) as [data|] eqn:Ed; [| discriminate].
  destruct (load_input_config data) as [[[persona job] names]|e] eqn:El;
    [| discriminate].
  destruct (main_loop w (pdf_folder a) names initial_state) as [st|ev s] eqn:Eloop;
    [| discriminate].
  destruct (all_sections st) as [|s0 ss] eqn:Es; [discriminate|].
  rewrite <- Es.
  destruct (build_faiss_index (encode w) (all_sections st))
    as [[idx|] metadata] eqn:Eb; [| discriminate].
  destruct (query_faiss_index (encode w) (search w) idx metadata _ 25)
    as [top|e] eqn:Eq; [| discriminate].
  destruct (assemble (num_results a) top) as [es sa] eqn:Ea.
  destruct (can_write w (output_json a)); [| discriminate].
  cbn [run_written run_log]. intros [= <-].
  exists st, top. cbn [extracted_sections subsection_analysis o_input_documents].
  split.
  { intros x Hx. apply (build_metadata_subset (encode w)). rewrite Eb. cbn [snd].
    exact (query_results_In _ _ _ _ _ _ _ Eq x Hx). }
  rewrite Ea. cbn [fst snd]. do 4 (split; [reflexivity|]).
  exists data, persona, job, names. split; [reflexivity|]. split; assumption.
Qed.

(** X17: the two lists of a written output.  They have the same length,
    which is what the slice [[:num_results]] keeps of the ranked sections
    that passed the filter (their number is the one the run prints);
    the entry at position [i] of [extracted_sections] has rank [i + 1],
    and the entry at the same position of [subsection_analysis] is about
    the same section: same document, same page number, and a refined text
    that starts with the section title and [" - "]. *)
Theorem output_lists_ranked (w : world) (a : args) (out : output) :
  run_written (main w a) = Some out ->
  exists docs ranked,
    last (run_log (main w a))
    = Some (PrintSaved (output_json a) docs ranked ranked)
    /\ length (extracted_sections out) = slice_count (num_results a) ranked
    /\ length (subsection_analysis out) = slice_count (num_results a) ranked
    /\ forall i e, extracted_sections out !! i = Some e ->
         e_importance_rank e = S i
         /\ exists r, subsection_analysis out !! i = Some r
              /\ a_document r = e_document e
              /\ a_page_number r = e_page_number e
              /\ exists body,
                   a_refined_text r = e_section_title e ++ lit " - " ++ body.
Proof.
  intros H. destruct (main_written_log w a out H)
    as [st [top [_ [_ [He [Hr [Hlog _]]]]]]].
  exists (length (input_documents st)), (length (List.filter has_body top)).
  split; [rewrite Hlog; apply last_snoc|].
  rewrite He, Hr. unfold assemble. cbn [fst snd].
  set (kept := List.filter has_body top).
  split; [rewrite length_slice_to, length_imap; reflexivity|].
  split; [rewrite length_slice_to, length_map; reflexivity|].
  intros i e Hi. apply slice_to_lookup in Hi. destruct Hi as [Hlt Hi].
  rewrite length_imap in Hlt. rewrite list_lookup_imap in Hi.
  destruct (kept !! i) as [x|] eqn:Ex; [| discriminate].
  cbn in Hi. injection Hi as <-. split; [reflexivity|].
  exists (refined_of x). split.
  - apply slice_to_lookup. rewrite length_map. split; [exact Hlt|].
    rewrite lookup_map_list, Ex. reflexivity.
  - split; [reflexivity|]. split; [reflexivity|].
    exists (combine_lines (content (snd x))). reflexivity.
Qed.

Lemma output_lists_ranked_witness :
  exists docs ranked,
    last (run_log (main Demo.world Demo.arguments))
    = Some (PrintSaved (output_json Demo.arguments) docs ranked ranked)
    /\ length (extracted_sections Demo.written)
       = slice_count (num_results Demo.arguments) ranked
    /\ length (subsection_analysis Demo.written)
       = slice_count (num_results Demo.arguments) ranked
    /\ forall i e, extracted_sections Demo.written !! i = Some e ->
         e_importance_rank e = S i
         /\ exists r, subsection_analysis Demo.written !! i = Some r
              /\ a_document r = e_document e
              /\ a_page_number r = e_page_number e
              /\ exists body,
                   a_refined_text r = e_section_title e ++ lit " - " ++ body.
Proof.
  apply (output_lists_ranked Demo.world Demo.arguments Demo.written).
  vm_compute. reflexivity.
Defined.

End Ranking.

(** ** Runs that write nothing *)

Section EarlyExits.
Import Main.

Lemma main_loop_all_missing (w : world) (folder : list N) (names : list (list N)) :
  (forall f, In f names -> path_exists w (path_join folder f) = false) ->
  forall st,
    main_loop w folder (List.map JStr names) st
    = Completed {| input_documents := input_documents st;
                   all_sections := all_sections st;
                   all_headings := all_headings st;
                   log := log st ++ List.map PrintMissing names |}.
Proof.
  induction names as [|f names IH]; intros Hm st.
  - cbn [List.map main_loop]. rewrite app_nil_r. destruct st; reflexivity.
  - cbn [List.map main_loop]. rewrite (Hm f (or_introl eq_refl)). cbn [negb].
    rewrite IH by (intros g Hg; apply Hm; right; exact Hg).
    cbn [input_documents all_sections all_headings log].
    rewrite <- app_assoc. reflexivity.
Qed.

(** X18: when none of the listed files exists in the folder -- the list
    may be empty -- the run prints one message per missing file, then
    that no content was found, returns normally and writes no output. *)
Theorem run_with_missing_files
    (w : world) (a : args) (data persona job : json) (names : list (list N)) :
  read_json w (input_json a) = Some data ->
  load_input_config data = Ok (persona, job, List.map JStr names) ->
  (forall f, In f names -> path_exists w (path_join (pdf_folder a) f) = false) ->
  run_log (main w a) = List.map PrintMissing names ++ [PrintNoContent]
  /\ run_status (main w a) = Finished
  /\ run_written (main w a) = None.
Proof.
  intros Hd Hl Hm. unfold main. rewrite Hd, Hl.
  rewrite (main_loop_all_missing w (pdf_folder a) names Hm initial_state).
  cbn [all_sections initial_state log app stop run_log run_status run_written].
  repeat split.
Qed.

Lemma run_with_missing_files_witness :
  run_log (main Demo.world_empty_folder Demo.arguments)
  = List.map PrintMissing [lit "notes.pdf"; lit "guide.pdf"] ++ [PrintNoContent]
  /\ run_status (main Demo.world_empty_folder Demo.arguments) = Finished
  /\ run_written (main Demo.world_empty_folder Demo.arguments) = None.
Proof.
  apply (run_with_missing_files Demo.world_empty_folder Demo.arguments Demo.config
           (JStr (lit "Analyst")) (JStr (lit "Summarise"))
           [lit "notes.pdf"; lit "guide.pdf"]).
  - reflexivity.
  - vm_compute. reflexivity.
  - intros f _. reflexivity.
Defined.

(** X19: when the loop over the files completes with sections, but none
    of them has an embedding text of 30 characters or more, nothing is
    indexed: the run prints that there is nothing to index, returns
    normally and writes no output. *)
Theorem run_with_nothing_to_index
    (w : world) (a : args) (data persona job : json) (names : list json)
    (st : loop_state) :
  read_json w (input_json a) = Some data ->
  load_input_config data = Ok (persona, job, names) ->
  main_loop w (pdf_folder a) names initial_state = Completed st ->
  all_sections st <> [] ->
  (forall s, In s (all_sections st) -> (length (strip (full_text s)) < 30)%nat) ->
  run_log (main w a) = log st ++ [PrintNothingToIndex]
  /\ run_status (main w a) = Finished
  /\ run_written (main w a) = None.
Proof.
  intros Hd Hl Hloop Hne Hshort. unfold main. rewrite Hd, Hl, Hloop.
  destruct (all_sections st) as [|s0 ss] eqn:Es; [congruence|]. rewrite <- Es.
  assert (Hf : List.filter admitted (all_sections st) = []).
  { rewrite Es. clear -Hshort.
    induction (s0 :: ss) as [|s l IH]; [reflexivity|]. cbn [List.filter].
    assert (E : admitted s = false).
    { unfold admitted. apply Nat.leb_gt. apply Hshort. left. reflexivity. }
    rewrite E. apply IH. intros s' Hs'. apply Hshort. right. exact Hs'. }
  unfold build_faiss_index. rewrite index_loop, Hf.
  cbn [List.map app stop run_log run_status run_written]. repeat split.
Qed.

Lemma run_with_nothing_to_index_witness :
  run_log (main Demo.world_tiny Demo.arguments)
  = [PrintProcessed (lit "a.pdf") 1; PrintNothingToIndex]
  /\ run_status (main Demo.world_tiny Demo.arguments) = Finished
  /\ run_written (main Demo.world_tiny Demo.arguments) = None.
Proof.
  apply (run_with_nothing_to_index Demo.world_tiny Demo.arguments Demo.config_tiny
           (JStr (lit "Analyst")) (JStr (lit "Summarise")) [JStr (lit "a.pdf")]
           {| input_documents := [lit "a.pdf"];
              all_sections :=
                [ {| document := lit "a.pdf"; title := lit "Intro";
                     content := lit "x" ++ [LF]; page := 0 |} ];
              all_headings := {[ lit "a.pdf" := [ (lit "Intro", 0%nat) ] ]};
              log := [PrintProcessed (lit "a.pdf") 1] |}).
  - reflexivity.
  - vm_compute. reflexivity.
  - vm_compute. reflexivity.
  - discriminate.
  - intros s [<- | []]. vm_compute. lia.
Defined.

(** X20: an exception of [load_input_config] is not caught: when the
    persona of the configuration is a bare string, the run ends with an
    uncaught [AttributeError] before it prints or writes anything. *)
Theorem run_crashes_on_bare_persona
    (w : world) (a : args) (d : list (list N * json)) (s : list N) :
  read_json w (input_json a) = Some (JDict d) ->
  assoc (lit "persona") d = Some (JStr s) ->
  run_status (main w a) = Uncaught AttributeError
  /\ run_log (main w a) = []
  /\ run_written (main w a) = None.
Proof.
  intros Hd Hp. unfold main.
  rewrite Hd, (load_input_config_bare_persona d s Hp). repeat split.
Qed.

Lemma run_crashes_on_bare_persona_witness :
  run_status (main {| read_json := fun _ => Some (JDict [ (lit "persona", JStr (lit "Analyst")) ]);
                      path_exists := fun _ => false;
                      fitz_open := fun _ => None;
                      encode := fun _ => [1%Q];
                      search := Demo.flat_ip_search;
                      now_isoformat := [];
                      format_value := fun _ => [];
                      can_write := fun _ => true |} Demo.arguments)
  = Uncaught AttributeError.
Proof.
  refine (proj1 (run_crashes_on_bare_persona _ Demo.arguments
                   [ (lit "persona", JStr (lit "Analyst")) ] (lit "Analyst") _ _)).
  - reflexivity.
  - vm_compute. reflexivity.
Defined.

End EarlyExits.

(** ** Where the output comes from *)

Section Provenance.
Import Main.

Lemma main_loop_completed_inv (w : world) (folder : list N) (names : list json) :
  forall st st',
    main_loop w folder names st = Completed st' ->
    exists l,
      input_documents st' = input_documents st ++ l
      /\ sublist (List.map JStr l) names
      /\ (forall f, In f l ->
            path_exists w (path_join folder f) = true
            /\ exists r, ProcessPdfs.main_process_pdf (fitz_open w) (path_join folder f)
                         = ProcessPdfs.Returned (Some r))
      /\ (forall s, In s (all_sections st') ->
            In s (all_sections st) \/ In (document s) l).
Proof.
  induction names as [|j names IH]; intros st st' H.
  - cbn [main_loop] in H. injection H as <-. exists [].
    rewrite app_nil_r. split; [reflexivity|]. split; [constructor|].
    split; [intros f [] | intros s Hs; left; exact Hs].
  - destruct j as [| | |f| |]; cbn [main_loop] in H; try discriminate H.
    destruct (path_exists w (path_join folder f)) eqn:Ex; cbn [negb] in H.
    2:{ destruct (IH _ _ H) as [l [H1 [H2 [H3 H4]]]]. exists l.
        cbn [input_documents all_sections] in H1, H4.
        split; [exact H1|]. split; [apply sublist_cons; exact H2|].
        split; assumption. }
    destruct (ProcessPdfs.main_process_pdf (fitz_open w) (path_join folder f))
      as [|[r|]] eqn:Er; try discriminate H.
    destruct (extract_sections_from_pdf _ _ _) as [sections|e].
    + destruct (IH _ _ H) as [l [H1 [H2 [H3 H4]]]]. exists (f :: l).
      cbn [input_documents all_sections] in H1, H4.
      split; [rewrite H1, <- app_assoc; reflexivity|].
      split; [cbn [List.map]; apply sublist_skip; exact H2|].
      split.
      * intros g [<- | Hg]; [| exact (H3 g Hg)].
        split; [exact Ex | exists r; exact Er].
      * intros s Hs. destruct (H4 s Hs) as [Hs' | Hs']; [| right; right; exact Hs'].
        apply in_app_or in Hs'. destruct Hs' as [Hs' | Hs']; [left; exact Hs'|].
        apply in_map_iff in Hs'. destruct Hs' as [g [<- _]].
        right. left. reflexivity.
    + destruct (IH _ _ H) as [l [H1 [H2 [H3 H4]]]]. exists l.
      cbn [input_documents all_sections] in H1, H4.
      split; [exact H1|]. split; [apply sublist_cons; exact H2|].
      split; assumption.
Qed.

(** X21: the documents of a written output.  [input_documents] lists, in
    the order of the configuration, files of the configuration that exist
    in the folder and were processed without an exception; and every
    entry of [extracted_sections] and of [subsection_analysis] names one
    of the documents of that list. *)
Theorem output_documents_listed (w : world) (a : args) (out : output) :
  run_written (main w a) = Some out ->
  exists data persona job names,
    read_json w (input_json a) = Some data
    /\ load_input_config data = Ok (persona, job, names)
    /\ sublist (List.map JStr (o_input_documents out)) names
    /\ (forall f, In f (o_input_documents out) ->
          path_exists w (path_join (pdf_folder a) f) = true
          /\ exists r,
               ProcessPdfs.main_process_pdf (fitz_open w)
                 (path_join (pdf_folder a) f)
               = ProcessPdfs.Returned (Some r))
    /\ (forall e, In e (extracted_sections out) ->
          In (e_document e) (o_input_documents out))
    /\ (forall r, In r (subsection_analysis out) ->
          In (a_document r) (o_input_documents out)).
Proof.
  intros H. destruct (main_written_log w a out H)
    as [st [top [Htop [Hin [He [Hr [_ [data [persona [job [names [Hd [Hl Hloop]]]]]]]]]]]]].
  exists data, persona, job, names.
  destruct (main_loop_completed_inv w (pdf_folder a) names _ _ Hloop)
    as [l [H1 [H2 [H3 H4]]]].
  cbn [initial_state input_documents all_sections app] in H1, H4.
  rewrite Hin, H1.
  assert (Hdoc : forall x, In x top -> In (document (snd x)) l).
  { intros x Hx. destruct (H4 _ (Htop x Hx)) as [[] | Hx']. exact Hx'. }
  split; [exact Hd|]. split; [exact Hl|]. split; [exact H2|]. split; [exact H3|].
  split.
  - intros e Hin'. rewrite He in Hin'.
    destruct (assemble_extracted _ _ _ Hin') as [i [x [Hx [_ ->]]]].
    exact (Hdoc x Hx).
  - intros r Hin'. rewrite Hr in Hin'.
    destruct (assemble_refined _ _ _ Hin') as [x [Hx [_ ->]]].
    exact (Hdoc x Hx).
Qed.

Lemma output_documents_listed_witness :
  exists data persona job names,
    read_json Demo.world (input_json Demo.arguments) = Some data
    /\ load_input_config data = Ok (persona, job, names)
    /\ sublist (List.map JStr (o_input_documents Demo.written)) names
    /\ (forall f, In f (o_input_documents Demo.written) ->
          path_exists Demo.world (path_join (pdf_folder Demo.arguments) f) = true
          /\ exists r,
               ProcessPdfs.main_process_pdf (fitz_open Demo.world)
                 (path_join (pdf_folder Demo.arguments) f)
               = ProcessPdfs.Returned (Some r))
    /\ (forall e, In e (extracted_sections Demo.written) ->
          In (e_document e) (o_input_documents Demo.written))
    /\ (forall r, In r (subsection_analysis Demo.written) ->
          In (a_document r) (o_input_documents Demo.written)).
Proof.
  apply (output_documents_listed Demo.world Demo.arguments Demo.written).
  vm_compute. reflexivity.
Defined.

Lemma build_index_some encode (sections : list section) idx metadata :
  build_faiss_index encode sections = (Some idx, metadata) ->
  metadata = List.filter admitted sections
  /\ idx = List.map (fun s => encode (full_text s)) metadata.
Proof.
  unfold build_faiss_index. rewrite index_loop. cbn [app].
  destruct (List.map _ (List.filter admitted sections)) as [|v vs] eqn:E;
    [discriminate|].
  intros [= <- <-]. split; [reflexivity | symmetry; exact E].
Qed.

(** X22: only indexed sections are ranked.  In a run that writes its
    output the index was built from the sections of the run, and its
    metadata list holds exactly those whose embedding text -- document
    name, title and content -- has a stripped length of at least 30.
    Every entry of [extracted_sections] and of [subsection_analysis] is
    made from a section of that metadata list: a section of the run below
    the threshold is never ranked, however long its reflowed content. *)
Theorem output_from_indexed_sections (w : world) (a : args) (out : output) :
  run_written (main w a) = Some out ->
  exists data persona job names st idx metadata,
    read_json w (input_json a) = Some data
    /\ load_input_config data = Ok (persona, job, names)
    /\ main_loop w (pdf_folder a) names initial_state = Completed st
    /\ build_faiss_index (encode w) (all_sections st) = (Some idx, metadata)
    /\ (forall s, In s metadata
                  <-> In s (all_sections st)
                      /\ (30 <= length (strip (full_text s)))%nat)
    /\ (forall e, In e (extracted_sections out) ->
          exists s, In s metadata
            /\ e_document e = document s
            /\ e_section_title e = title s
            /\ e_page_number e = (page s + 1)%nat)
    /\ (forall r, In r (subsection_analysis out) ->
          exists s, In s metadata
            /\ a_document r = document s
            /\ a_refined_text r = title s ++ lit " - " ++ combine_lines (content s)
            /\ a_page_number r = (page s + 1)%nat).
Proof.
  unfold main.
  destruct (read_json w (input_json a)) as [data|] eqn:Ed; [| discriminate].
  destruct (load_input_config data) as [[[persona job] names]|e] eqn:El;
    [| discriminate].
  destruct (main_loop w (pdf_folder a) names initial_state) as [st|ev s] eqn:Eloop;
    [| discriminate].
  destruct (all_sections st) as [|s0 ss] eqn:Es; [discriminate|].
  rewrite <- Es.
  destruct (build_faiss_index (encode w) (all_sections st))
    as [[idx|] metadata] eqn:Eb; [| discriminate].
  destruct (query_faiss_index (encode w) (search w) idx metadata _ 25)
    as [top|e] eqn:Eq; [| discriminate].
  destruct (assemble (num_results a) top) as [es sa] eqn:Ea.
  destruct (can_write w (output_json a)); [| discriminate].
  cbn [run_written]. intros [= <-].
  cbn [extracted_sections subsection_analysis].
  exists data, persona, job, names, st, idx, metadata.
  split; [reflexivity|]. split; [exact El|]. split; [exact Eloop|].
  split; [exact Eb|].
  pose proof (query_results_In _ _ _ _ _ _ _ Eq) as Htop.
  split; [| split].
  - intros s. destruct (build_index_some _ _ _ _ Eb) as [-> _].
    rewrite List.filter_In. unfold admitted. rewrite Nat.leb_le. reflexivity.
  - intros e Hin.
    assert (Hes : es = fst (assemble (num_results a) top)) by (rewrite Ea; reflexivity).
    rewrite Hes in Hin. destruct (assemble_extracted _ _ _ Hin) as [i [x [Hx [_ ->]]]].
    exists (snd x). split; [exact (Htop x Hx)|]. repeat split.
  - intros r Hin.
    assert (Hsa : sa = snd (assemble (num_results a) top)) by (rewrite Ea; reflexivity).
    rewrite Hsa in Hin. destruct (assemble_refined _ _ _ Hin) as [x [Hx [_ ->]]].
    exists (snd x). split; [exact (Htop x Hx)|]. repeat split.
Qed.

Lemma output_from_indexed_sections_witness :
  exists data persona job names st idx metadata,
    read_json Demo.world (input_json Demo.arguments) = Some data
    /\ load_input_config data = Ok (persona, job, names)
    /\ main_loop Demo.world (pdf_folder Demo.arguments) names initial_state
       = Completed st
    /\ build_faiss_index (encode Demo.world) (all_sections st) = (Some idx, metadata)
    /\ (forall s, In s metadata
                  <-> In s (all_sections st)
                      /\ (30 <= length (strip (full_text s)))%nat)
    /\ (forall e, In e (extracted_sections Demo.written) ->
          exists s, In s metadata
            /\ e_document e = document s
            /\ e_section_title e = title s
            /\ e_page_number e = (page s + 1)%nat)
    /\ (forall r, In r (subsection_analysis Demo.written) ->
          exists s, In s metadata
            /\ a_document r = document s
            /\ a_refined_text r = title s ++ lit " - " ++ combine_lines (content s)
            /\ a_page_number r = (page s + 1)%nat).
Proof.
  apply (output_from_indexed_sections Demo.world Demo.arguments Demo.written).
  vm_compute. reflexivity.
Defined.

End Provenance.

(** ** The normal form of [main.clean_text] *)

Section NormalForm.
Import Main.

(** X23: the text [clean_text] of [main.py] returns holds no bullet, no
    hyphen-minus and no en dash anywhere -- also those inside words -- its
    only white space is single spaces between other characters, and it
    holds no line feed. *)
Theorem clean_text_output (x : list N) :
  glyph_free (clean_text x)
  /\ spaced (clean_text x)
  /\ trimmed (clean_text x)
  /\ no_lf (clean_text x)
  /\ ~ In 45 (clean_text x).
Proof.
  destruct (clean_text_normal x) as [Hg [Hs Ht]].
  split; [exact Hg|]. split; [exact Hs|]. split; [exact Ht|]. split.
  - eapply Forall_impl; [exact (spaced_no_lf _ Hs)|].
    intros c Hc. cbv beta in Hc. rewrite N.eqb_sym. exact Hc.
  - intros Hin. unfold glyph_free in Hg. rewrite List.Forall_forall in Hg.
    specialize (Hg 45 Hin). discriminate Hg.
Qed.

End NormalForm.
